(** * StickerMaker: the bitrate-fitting loop of [sticker_maker.py]

    A shallow embedding of the Python program: its float arithmetic is
    IEEE-754 binary64 with round-to-nearest-even, modelled over exact
    rationals; its exceptions are an error monad; its prints and external
    process calls are a log of events. *)

From Stdlib Require Import ZArith QArith Qround Qabs Qpower Lia Lqa List Bool String.
From Stdlib Require Import SpecFloat.
From Stdlib Require Import Sorted.
Import ListNotations.

Local Open Scope Z_scope.

(** ** Python values: floats over exact rationals, and exceptions *)

Module Py.

Local Open Scope Q_scope.

(** Precision and exponent range of binary64. *)
Definition prec : Z := 53.
Definition emin : Z := -1074.
Definition emax : Z := 1024.

Definition pow2 (e : Z) : Q := 2 ^ e.

(** [Qlog2 x] is floor(log2 x) for positive [x] (and 0 otherwise). *)
Definition Qlog2 (x : Q) : Z :=
  if Qle_bool x 0 then 0%Z
  else
    let e := (Z.log2 (Qnum x) - Z.log2 (Zpos (Qden x)))%Z in
    if Qle_bool (pow2 e) x then e else (e - 1)%Z.

(** The exponent of the last mantissa bit of the double nearest to [x]:
    53 significant bits, never below the subnormal exponent. *)
Definition cexp (x : Q) : Z := Z.max (Qlog2 (Qabs x) - (prec - 1)) emin.

(** Round to the nearest integer, ties to the even one. *)
Definition round_half_even (x : Q) : Z :=
  let f := Qfloor x in
  match Qcompare (x - inject_Z f) (1 # 2) with
  | Lt => f
  | Gt => (f + 1)%Z
  | Eq => if Z.even f then f else (f + 1)%Z
  end.

(** Round a rational to 53 significant bits (exponent unbounded above). *)
Definition rnd (x : Q) : Q :=
  Qred (inject_Z (round_half_even (x / pow2 (cexp x))) * pow2 (cexp x)).

(** A Python float: a finite value, an infinity or a NaN. The sign of a
    zero is not kept: no operation of the program observes it. *)
Inductive pyfloat : Type :=
| Fnum (q : Q)
| Finf (neg : bool)
| Fnan.

Definition Qneg (x : Q) : bool := negb (Qle_bool 0 x).

(** Rounding of an exact result, overflowing to an infinity. *)
Definition fl (x : Q) : pyfloat :=
  let r := rnd x in
  if Qle_bool (pow2 emax) (Qabs r) then Finf (Qneg x) else Fnum r.

(** *** Exceptions *)

Inductive exn : Type :=
| ZeroDivisionError
| OverflowError
| ValueError
| KeyError
| TypeError
| AttributeError
| EOFError
| NoVideoStream          (* Exception("No video stream found.") *)
| ExternalError          (* a failure of a child process or of json.loads *)
| SystemExit (code : Z).

Inductive result (A : Type) : Type :=
| Ok (a : A)
| Raise (e : exn).
Arguments Ok {A} a.
Arguments Raise {A} e.

Definition rbind {A B : Type} (r : result A) (f : A -> result B) : result B :=
  match r with
  | Ok a => f a
  | Raise e => Raise e
  end.

(** *** Operations on floats, as Python evaluates them *)

(** A float literal of the source text denotes the nearest double. *)
Definition literal (q : Q) : pyfloat := fl q.

(** [float(n)] and the implicit conversion of an int operand. *)
Definition float_of_int (n : Z) : result pyfloat :=
  match fl (inject_Z n) with
  | Finf _ => Raise OverflowError
  | f => Ok f
  end.

(** [a / b] on two ints: the correctly rounded quotient. *)
Definition int_truediv (a b : Z) : result pyfloat :=
  if (b =? 0)%Z then Raise ZeroDivisionError
  else match fl (inject_Z a / inject_Z b) with
       | Finf _ => Raise OverflowError
       | f => Ok f
       end.

Definition Qzero (x : Q) : bool := Qeq_bool x 0.

(** [a * b] on two floats: overflow gives an infinity, never an error. *)
Definition float_mul (a b : pyfloat) : pyfloat :=
  match a, b with
  | Fnan, _ | _, Fnan => Fnan
  | Finf s, Finf t => Finf (xorb s t)
  | Finf s, Fnum q | Fnum q, Finf s =>
      if Qzero q then Fnan else Finf (xorb s (Qneg q))
  | Fnum x, Fnum y => fl (x * y)
  end.

(** [a / b] on two floats: only a zero divisor is an error. *)
Definition float_div (a b : pyfloat) : result pyfloat :=
  match b with
  | Fnum y =>
      if Qzero y then Raise ZeroDivisionError
      else match a with
           | Fnum x => Ok (fl (x / y))
           | Finf s => Ok (Finf (xorb s (Qneg y)))
           | Fnan => Ok Fnan
           end
  | Finf _ =>
      match a with
      | Fnum _ => Ok (Fnum 0)
      | _ => Ok Fnan
      end
  | Fnan => Ok Fnan
  end.

(** Truncation toward zero. *)
Definition Qtrunc (x : Q) : Z :=
  if Qle_bool 0 x then Qfloor x else Qceiling x.

(** [int(f)]. *)
Definition int_of_float (f : pyfloat) : result Z :=
  match f with
  | Fnum q => Ok (Qtrunc q)
  | Finf _ => Raise OverflowError
  | Fnan => Raise ValueError
  end.

(** [f <= n] for a float and an int: Python compares the exact values. *)
Definition float_le_int (f : pyfloat) (n : Z) : bool :=
  match f with
  | Fnum q => Qle_bool q (inject_Z n)
  | Finf neg => neg
  | Fnan => false
  end.

End Py.

Import Py.

(** ** Configuration *)

Definition MAX_SIZE_KB : Z := 256.
Definition TARGET_DIMENSION : Z := 512.
Definition SAFE_BITRATE_FACTOR : pyfloat := literal (75 # 100).

(** ** The target calculator *)

(** [int((TARGET_DIMENSION / longer) * shorter)]. *)
Definition scaled_edge (longer shorter : Z) : result Z :=
  rbind (int_truediv TARGET_DIMENSION longer) (fun ratio =>
  rbind (float_of_int shorter) (fun s =>
  int_of_float (float_mul ratio s))).

(** [if n % 2 != 0: n -= 1]. *)
Definition make_even (n : Z) : Z :=
  if negb (n mod 2 =? 0) then n - 1 else n.

(** [if b < 10: b = 10]. *)
Definition hard_floor (b : Z) : Z :=
  if b <? 10 then 10 else b.

(** Step 1 of the source: fit within 512x512 keeping the aspect ratio,
    then make both edges even. *)
Definition target_dimensions (width height : Z) : result (Z * Z) :=
  rbind (if width >? height
         then rbind (scaled_edge width height)
                    (fun new_height => Ok (TARGET_DIMENSION, new_height))
         else rbind (scaled_edge height width)
                    (fun new_width => Ok (new_width, TARGET_DIMENSION)))
    (fun dims =>
  let '(new_width, new_height) := dims in
  let new_width := make_even new_width in
  let new_height := make_even new_height in
  Ok (new_width, new_height)).

(** Step 2 of the source: size = bitrate * duration. *)
Definition target_bitrate (duration current_bitrate_factor : pyfloat)
    : result Z :=
  let target_total_bits := MAX_SIZE_KB * 1024 * 8 in
  rbind (float_of_int target_total_bits) (fun bits =>
  let safe_bits := float_mul bits current_bitrate_factor in
  rbind (float_div safe_bits duration) (fun bitrate_bps =>
  rbind (float_of_int 1000) (fun thousand =>
  rbind (float_div bitrate_bps thousand) (fun kbps =>
  rbind (int_of_float kbps) (fun bitrate_kbps =>
  Ok (hard_floor bitrate_kbps)))))).

Definition calculate_target_details (duration : pyfloat) (width height : Z)
    (current_bitrate_factor : option pyfloat) : result (Z * Z * Z) :=
  let current_bitrate_factor :=
    match current_bitrate_factor with
    | None => SAFE_BITRATE_FACTOR
    | Some f => f
    end in
  rbind (target_dimensions width height) (fun dims =>
  let '(new_width, new_height) := dims in
  rbind (target_bitrate duration current_bitrate_factor) (fun bitrate_kbps =>
  Ok (new_width, new_height, bitrate_kbps))).

(** ** The retry reduction of the fit loop:
    [current_bitrate = int(current_bitrate * 0.80)], then the floor. *)
Definition REDUCTION : pyfloat := literal (80 # 100).

Definition reduce_bitrate (current_bitrate : Z) : result Z :=
  rbind (float_of_int current_bitrate) (fun b =>
  rbind (int_of_float (float_mul b REDUCTION)) (fun current_bitrate =>
  Ok (hard_floor current_bitrate))).

(** ** The outside world *)

(** What [json.loads] returns. *)
#[local] Unset Elimination Schemes.
Inductive json : Type :=
| JNull
| JBool (b : bool)
| JInt (z : Z)
| JFloat (f : pyfloat)
| JStr (s : string)
| JList (l : list json)
| JDict (kv : list (string * json)).
#[local] Set Elimination Schemes.

Inductive pass : Type := Pass1 | Pass2.

(** What one attempt of the two-pass encoder does: a pass exits with a
    non-zero status, or the output file is written with some byte size. *)
Inductive encode_outcome : Type :=
| PassFails (p : pass)
| Encoded (bytes : Z).

Record world : Type := {
  shutil_which : string -> option string;
  (* the first [<tool>.exe] that os.walk finds below the script *)
  walk_exe : string -> option string;
  argv : list string;
  (* the line that input() reads, None at end of input *)
  stdin_line : option string;
  path_exists : string -> bool;
  (* ffprobe on a file, then json.loads of its output *)
  run_ffprobe : string -> string -> result json;
  (* the encoder at a loop index with a bitrate and a resolution *)
  run_ffmpeg : string -> nat -> Z -> Z -> Z -> encode_outcome;
  (* float() and int() of a string *)
  float_of_str : string -> option pyfloat;
  int_of_str : string -> option Z
}.

(** Messages printed, by the statement that prints them. *)
Inductive message : Type :=
| MsgBanner
| MsgNoFfmpeg
| MsgPleaseEnsure
| MsgFileNotFound
| MsgNoFfprobe
| MsgAnalyzing
| MsgErrorAnalyzing (e : exn)
| MsgDuration (d : pyfloat)
| MsgOriginalSize (w h : Z)
| MsgTargetSize (w h : Z)
| MsgAttempt (number max : Z) (bitrate : Z)
| MsgResult (final_size : pyfloat)
| MsgSuccess
| MsgOvershot (final_size : pyfloat)
| MsgWarning
| MsgDone.

Inductive event : Type :=
| Printed (m : message)
| Prompt
| Ffprobe (file : string)
| Ffmpeg (p : pass) (bitrate width height : Z)
| RemoveLogs.

(** ** Effects: a log of events and an exception *)

Definition io (A : Type) : Type := list event * result A.

Definition ret {A : Type} (a : A) : io A := ([], Ok a).

Definition bind {A B : Type} (m : io A) (f : A -> io B) : io B :=
  match m with
  | (l, Ok a) => let '(l', r) := f a in (l ++ l', r)
  | (l, Raise e) => (l, Raise e)
  end.

Definition emit (e : event) : io unit := ([e], Ok tt).
Definition print (m : message) : io unit := emit (Printed m).
Definition lift {A : Type} (r : result A) : io A := ([], r).
Definition raise {A : Type} (e : exn) : io A := ([], Raise e).

Declare Scope io_scope.
Delimit Scope io_scope with io.
Notation "x <- m ;; k" := (bind m (fun x => k))
  (at level 61, m at next level, right associativity) : io_scope.
Notation "m ;; k" := (bind m (fun _ => k))
  (at level 61, right associativity) : io_scope.
Local Open Scope io_scope.

(** [try: body except Exception as e: handler e]; a [SystemExit] is not
    an [Exception] and passes through. *)
Definition try_except {A : Type} (body : io A) (handler : exn -> io A) : io A :=
  match body with
  | (l, Raise (SystemExit c)) => (l, Raise (SystemExit c))
  | (l, Raise e) => let '(l', r) := handler e in (l ++ l', r)
  | ok => ok
  end.

(** The exit status of the process that ran [main]. *)
Definition exit_status {A : Type} (m : io A) : Z :=
  match snd m with
  | Ok _ => 0
  | Raise (SystemExit c) => c
  | Raise _ => 1
  end.

Definition printed {A : Type} (m : io A) (msg : message -> bool) : bool :=
  existsb (fun e => match e with Printed x => msg x | _ => false end) (fst m).

(** ** Values of the probed data *)

Fixpoint lookup (key : string) (kv : list (string * json)) : option json :=
  match kv with
  | [] => None
  | (k, v) :: rest => if String.eqb k key then Some v else lookup key rest
  end.

(** [v[key]]. *)
Definition subscript (v : json) (key : string) : result json :=
  match v with
  | JDict kv =>
      match lookup key kv with
      | Some x => Ok x
      | None => Raise KeyError
      end
  | _ => Raise TypeError
  end.

(** [v.get(key, default)]. *)
Definition dict_get (v : json) (key : string) (default : json) : result json :=
  match v with
  | JDict kv =>
      match lookup key kv with
      | Some x => Ok x
      | None => Ok default
      end
  | _ => Raise AttributeError
  end.

Definition of_bool (b : bool) : Z := if b then 1 else 0.

(** [float(v)]. *)
Definition py_float (w : world) (v : json) : result pyfloat :=
  match v with
  | JInt z => float_of_int z
  | JBool b => float_of_int (of_bool b)
  | JFloat f => Ok f
  | JStr s =>
      match float_of_str w s with
      | Some f => Ok f
      | None => Raise ValueError
      end
  | _ => Raise TypeError
  end.

(** [int(v)]. *)
Definition py_int (w : world) (v : json) : result Z :=
  match v with
  | JInt z => Ok z
  | JBool b => Ok (of_bool b)
  | JFloat f => int_of_float f
  | JStr s =>
      match int_of_str w s with
      | Some z => Ok z
      | None => Raise ValueError
      end
  | _ => Raise TypeError
  end.

Fixpoint chars (s : string) : list json :=
  match s with
  | EmptyString => []
  | String c rest => JStr (String c EmptyString) :: chars rest
  end.

(** The items that [for s in v] goes through. *)
Definition iter_items (v : json) : result (list json) :=
  match v with
  | JList l => Ok l
  | JDict kv => Ok (map (fun p => JStr (fst p)) kv)
  | JStr s => Ok (chars s)
  | _ => Raise TypeError
  end.

Definition is_video (c : json) : bool :=
  match c with
  | JStr s => String.eqb s "video"
  | _ => false
  end.

(** [next((s for s in items if s['codec_type'] == 'video'), None)]. *)
Fixpoint first_video (items : list json) : result (option json) :=
  match items with
  | [] => Ok None
  | s :: rest =>
      rbind (subscript s "codec_type") (fun c =>
      if is_video c then Ok (Some s) else first_video rest)
  end.

(** ** The media prober *)

(** The body of the [try] after [json.loads]: duration, then the first
    video stream and its dimensions. *)
Definition video_info_of (w : world) (data : json)
    : result (pyfloat * Z * Z) :=
  rbind (subscript data "format") (fun fmt =>
  rbind (dict_get fmt "duration" (JInt 0)) (fun d =>
  rbind (py_float w d) (fun duration =>
  rbind (subscript data "streams") (fun streams =>
  rbind (iter_items streams) (fun items =>
  rbind (first_video items) (fun video_stream =>
  match video_stream with
  | None => Raise NoVideoStream
  | Some video_stream =>
      rbind (subscript video_stream "width") (fun wv =>
      rbind (py_int w wv) (fun width =>
      rbind (subscript video_stream "height") (fun hv =>
      rbind (py_int w hv) (fun height =>
      Ok (duration, width, height)))))
  end)))))).

Definition get_video_info (w : world) (ffprobe_path file_path : string)
    : io (pyfloat * Z * Z) :=
  try_except
    (emit (Ffprobe file_path) ;;
     data <- lift (run_ffprobe w ffprobe_path file_path) ;;
     lift (video_info_of w data))
    (fun e => print (MsgErrorAnalyzing e) ;; raise (SystemExit 1)).

(** ** Locating the tools *)

Definition truthy (p : option string) : bool :=
  match p with
  | Some EmptyString | None => false
  | Some _ => true
  end.

Definition find_tool (w : world) (tool_name : string) : option string :=
  if truthy (shutil_which w tool_name) then shutil_which w tool_name
  else walk_exe w tool_name.

(** [if not path: ...] takes the branch for [None] and for an empty
    string; [found] is the path in the other case. *)
Definition found (path : option string) : option string :=
  if truthy path then path else None.

(** ** The fit loop *)

Definition max_attempts : nat := 3.

(** The body of [for attempt in range(max_attempts)], over the indices
    still to come; [break] leaves the remaining ones unused. *)
Fixpoint attempts (w : world) (ffmpeg_path : string) (new_w new_h : Z)
    (range : list nat) (current_bitrate : Z) : io unit :=
  match range with
  | [] => ret tt
  | attempt :: rest =>
      print (MsgAttempt (Z.of_nat attempt + 1) (Z.of_nat max_attempts)
               current_bitrate) ;;
      emit (Ffmpeg Pass1 current_bitrate new_w new_h) ;;
      match run_ffmpeg w ffmpeg_path attempt current_bitrate new_w new_h with
      | PassFails Pass1 => raise ExternalError
      | PassFails Pass2 =>
          emit (Ffmpeg Pass2 current_bitrate new_w new_h) ;;
          raise ExternalError
      | Encoded bytes =>
          emit (Ffmpeg Pass2 current_bitrate new_w new_h) ;;
          emit RemoveLogs ;;
          final_size <- lift (int_truediv bytes 1024) ;;
          print (MsgResult final_size) ;;
          if float_le_int final_size MAX_SIZE_KB then
            print MsgSuccess
          else if (attempt <? max_attempts - 1)%nat then
            print (MsgOvershot final_size) ;;
            current_bitrate <- lift (reduce_bitrate current_bitrate) ;;
            attempts w ffmpeg_path new_w new_h rest current_bitrate
          else
            print MsgWarning ;;
            attempts w ffmpeg_path new_w new_h rest current_bitrate
      end
  end.

Definition compress_video (w : world) (ffmpeg_path input_path : string)
    : io unit :=
  let ffprobe_path := find_tool w "ffprobe" in
  match found ffprobe_path with
  | None => print MsgNoFfprobe
  | Some ffprobe_path =>
      print MsgAnalyzing ;;
      info <- get_video_info w ffprobe_path input_path ;;
      let '(duration, width, height) := info in
      target <- lift (calculate_target_details duration width height None) ;;
      let '(new_w, new_h, bitrate_k) := target in
      print (MsgDuration duration) ;;
      print (MsgOriginalSize width height) ;;
      print (MsgTargetSize new_w new_h) ;;
      attempts w ffmpeg_path new_w new_h (seq 0 max_attempts) bitrate_k ;;
      print MsgDone
  end.

(** ** The command line *)

Definition input_line (w : world) : io string :=
  emit Prompt ;;
  match stdin_line w with
  | Some s => ret s
  | None => raise EOFError
  end.

Definition is_space (c : Ascii.ascii) : bool :=
  let n := Ascii.nat_of_ascii c in
  ((9 <=? n) && (n <=? 13) || (28 <=? n) && (n <=? 32))%nat.

Definition is_quote (c : Ascii.ascii) : bool :=
  (Ascii.nat_of_ascii c =? 34)%nat.

Fixpoint lstrip (p : Ascii.ascii -> bool) (s : string) : string :=
  match s with
  | EmptyString => EmptyString
  | String c rest => if p c then lstrip p rest else s
  end.

Fixpoint rstrip (p : Ascii.ascii -> bool) (s : string) : string :=
  match s with
  | EmptyString => EmptyString
  | String c rest =>
      match rstrip p rest with
      | EmptyString => if p c then EmptyString else String c EmptyString
      | rest' => String c rest'
      end
  end.

(** [s.strip()] is [strip is_space s]; stripping the double quote is
    [strip is_quote s]. *)
Definition strip (p : Ascii.ascii -> bool) (s : string) : string :=
  rstrip p (lstrip p s).

Definition main (w : world) : io unit :=
  print MsgBanner ;;
  let ffmpeg_path := find_tool w "ffmpeg" in
  match found ffmpeg_path with
  | None =>
      print MsgNoFfmpeg ;;
      print MsgPleaseEnsure ;;
      _ <- input_line w ;;
      raise (SystemExit 1)
  | Some ffmpeg_path =>
      input_file <-
        match argv w with
        | _ :: arg :: _ => ret arg
        | _ => line <- input_line w ;;
               ret (strip is_quote (strip is_space line))
        end ;;
      if negb (path_exists w input_file) then
        print MsgFileNotFound
      else
        compress_video w ffmpeg_path input_file
  end.

(** ** Observations on a run *)

(** The bitrates of the encode attempts of a log, in order: one per
    first pass. *)
Definition encode_bitrates (log : list event) : list Z :=
  flat_map (fun e => match e with
                     | Ffmpeg Pass1 b _ _ => [b]
                     | _ => []
                     end) log.

(** The measured sizes that a log reports, in order. *)
Definition measured_sizes (log : list event) : list pyfloat :=
  flat_map (fun e => match e with
                     | Printed (MsgResult s) => [s]
                     | _ => []
                     end) log.

Definition iterations (log : list event) : nat :=
  List.length (encode_bitrates log).

Definition is_warning (m : message) : bool :=
  match m with MsgWarning => true | _ => false end.

Definition is_no_ffmpeg (m : message) : bool :=
  match m with MsgNoFfmpeg => true | _ => false end.

Definition is_error_analyzing (m : message) : bool :=
  match m with MsgErrorAnalyzing _ => true | _ => false end.

(** ** The formulas of the specification, in exact arithmetic *)

(** "floor(initialBitrate x 0.80^k), clamped to the floor". *)
Definition reduction_law (initial : Z) (k : nat) : Z :=
  Z.max 10 (Qfloor (inject_Z initial * (80 # 100) ^ Z.of_nat k)).

(** One reduction step in exact arithmetic: four fifths, rounded down,
    not below the floor. *)
Definition reduction_step (b : Z) : Z := Z.max 10 (4 * b / 5).

(** "maxSizeKB x 1024 x 8 bits, multiplied by the safety factor, divided
    by duration, integer-divided by 1000, then clamped up to the floor". *)
Definition spec_bitrate (d : Q) : Z :=
  Z.max 10 (Qfloor (inject_Z (MAX_SIZE_KB * 1024 * 8) * (75 # 100) / d / 1000)).

(** The exact quotient behind the bitrate: 1572864 bits over [d] seconds. *)
Definition SAFE_BITS : Q := 1572864.

(** [dyadic f m k]: [f] is [m * 2^k] with a positive mantissa of at most
    53 bits and an exponent in the range of binary64, hence a double. *)
Definition dyadic (f : Q) (m k : Z) : Prop :=
  (f == inject_Z m * pow2 k)%Q /\ (0 < m < 2 ^ 53)%Z /\ (-1074 <= k)%Z.

(** ** Predicates used to state the properties *)

(** One iteration of the loop at index [attempt] with bitrate [b], by
    what the encoder and the size check do; [rest] are the indices still
    to come. *)
Inductive iteration (w : world) (ffmpeg_path : string) (new_w new_h : Z)
    (attempt : nat) (rest : list nat) (b : Z) : io unit -> Prop :=
| it_pass1 :
    run_ffmpeg w ffmpeg_path attempt b new_w new_h = PassFails Pass1 ->
    iteration w ffmpeg_path new_w new_h attempt rest b
      ([Printed (MsgAttempt (Z.of_nat attempt + 1) (Z.of_nat max_attempts) b);
        Ffmpeg Pass1 b new_w new_h], Raise ExternalError)
| it_pass2 :
    run_ffmpeg w ffmpeg_path attempt b new_w new_h = PassFails Pass2 ->
    iteration w ffmpeg_path new_w new_h attempt rest b
      ([Printed (MsgAttempt (Z.of_nat attempt + 1) (Z.of_nat max_attempts) b);
        Ffmpeg Pass1 b new_w new_h; Ffmpeg Pass2 b new_w new_h],
       Raise ExternalError)
| it_size_error bytes e :
    run_ffmpeg w ffmpeg_path attempt b new_w new_h = Encoded bytes ->
    int_truediv bytes 1024 = Raise e ->
    iteration w ffmpeg_path new_w new_h attempt rest b
      ([Printed (MsgAttempt (Z.of_nat attempt + 1) (Z.of_nat max_attempts) b);
        Ffmpeg Pass1 b new_w new_h; Ffmpeg Pass2 b new_w new_h; RemoveLogs],
       Raise e)
| it_fits bytes sz :
    run_ffmpeg w ffmpeg_path attempt b new_w new_h = Encoded bytes ->
    int_truediv bytes 1024 = Ok sz ->
    float_le_int sz MAX_SIZE_KB = true ->
    iteration w ffmpeg_path new_w new_h attempt rest b
      ([Printed (MsgAttempt (Z.of_nat attempt + 1) (Z.of_nat max_attempts) b);
        Ffmpeg Pass1 b new_w new_h; Ffmpeg Pass2 b new_w new_h; RemoveLogs;
        Printed (MsgResult sz); Printed MsgSuccess], Ok tt)
| it_reduce_error bytes sz e :
    run_ffmpeg w ffmpeg_path attempt b new_w new_h = Encoded bytes ->
    int_truediv bytes 1024 = Ok sz ->
    float_le_int sz MAX_SIZE_KB = false ->
    (attempt < max_attempts - 1)%nat ->
    reduce_bitrate b = Raise e ->
    iteration w ffmpeg_path new_w new_h attempt rest b
      ([Printed (MsgAttempt (Z.of_nat attempt + 1) (Z.of_nat max_attempts) b);
        Ffmpeg Pass1 b new_w new_h; Ffmpeg Pass2 b new_w new_h; RemoveLogs;
        Printed (MsgResult sz); Printed (MsgOvershot sz)], Raise e)
| it_reduce bytes sz b' :
    run_ffmpeg w ffmpeg_path attempt b new_w new_h = Encoded bytes ->
    int_truediv bytes 1024 = Ok sz ->
    float_le_int sz MAX_SIZE_KB = false ->
    (attempt < max_attempts - 1)%nat ->
    reduce_bitrate b = Ok b' ->
    iteration w ffmpeg_path new_w new_h attempt rest b
      ([Printed (MsgAttempt (Z.of_nat attempt + 1) (Z.of_nat max_attempts) b);
        Ffmpeg Pass1 b new_w new_h; Ffmpeg Pass2 b new_w new_h; RemoveLogs;
        Printed (MsgResult sz); Printed (MsgOvershot sz)]
         ++ fst (attempts w ffmpeg_path new_w new_h rest b'),
       snd (attempts w ffmpeg_path new_w new_h rest b'))
| it_last bytes sz :
    run_ffmpeg w ffmpeg_path attempt b new_w new_h = Encoded bytes ->
    int_truediv bytes 1024 = Ok sz ->
    float_le_int sz MAX_SIZE_KB = false ->
    (max_attempts - 1 <= attempt)%nat ->
    iteration w ffmpeg_path new_w new_h attempt rest b
      ([Printed (MsgAttempt (Z.of_nat attempt + 1) (Z.of_nat max_attempts) b);
        Ffmpeg Pass1 b new_w new_h; Ffmpeg Pass2 b new_w new_h; RemoveLogs;
        Printed (MsgResult sz); Printed MsgWarning]
         ++ fst (attempts w ffmpeg_path new_w new_h rest b),
       snd (attempts w ffmpeg_path new_w new_h rest b)).

(** Nothing but the success message follows a measured size that fits. *)
Definition stops_after_fit (log : list event) : Prop :=
  forall l1 sz l2, log = l1 ++ Printed (MsgResult sz) :: l2 ->
    float_le_int sz MAX_SIZE_KB = true -> l2 = [Printed MsgSuccess].

(** The measured size of an encoder outcome exceeds the budget. *)
Definition oversize (o : encode_outcome) : Prop :=
  exists bytes sz, o = Encoded bytes /\ int_truediv bytes 1024 = Ok sz /\
                   float_le_int sz MAX_SIZE_KB = false.

(** Every encode succeeds and leaves a file of fewer than 2^1000 bytes. *)
Definition encoder_succeeds (w : world) (ffmpeg_path : string)
    (new_w new_h : Z) : Prop :=
  forall i b, exists bytes,
    run_ffmpeg w ffmpeg_path i b new_w new_h = Encoded bytes /\
    0 <= bytes < 2 ^ 1000.

(** The first video stream of the probed data, as the prober finds it. *)
Definition video_stream_of (data : json) : result (option json) :=
  rbind (subscript data "streams") (fun streams =>
  rbind (iter_items streams) first_video).

(** No video stream, or a first video stream without width or height. *)
Definition no_usable_video (data : json) : Prop :=
  video_stream_of data = Ok None \/
  exists vs, video_stream_of data = Ok (Some vs) /\
    (subscript vs "width" = Raise KeyError \/
     subscript vs "height" = Raise KeyError).

(** What [except Exception] catches. *)
Definition is_exception (e : exn) : Prop :=
  match e with SystemExit _ => False | _ => True end.

Definition raises_exception {A : Type} (r : result A) : Prop :=
  match r with Ok _ => True | Raise e => is_exception e end.

(** ** Sample worlds *)

Local Open Scope string_scope.

Definition probe_of (format : list (string * json)) (streams : list json)
    : json :=
  JDict [("format", JDict format); ("streams", JList streams)].

Definition video_stream (width height : Z) : json :=
  JDict [("codec_type", JStr "video"); ("width", JInt width);
         ("height", JInt height)].

Definition audio_stream : json := JDict [("codec_type", JStr "audio")].

Definition on_path (tool_name : string) : option string :=
  Some (String.append "/usr/bin/" tool_name).

Definition only_ffmpeg (tool_name : string) : option string :=
  if String.eqb tool_name "ffmpeg" then on_path tool_name else None.

(** A world with the tools given by [tools], the file [clip.mp4] on the
    command line, present or not, probed as [probe], and encoded to
    [bytes_of attempt] bytes at each attempt. *)
Definition sample_world (tools : string -> option string) (file_there : bool)
    (probe : json) (bytes_of : nat -> Z) : world :=
  {| shutil_which := tools;
     walk_exe := fun _ => None;
     argv := ["sticker_maker.py"; "clip.mp4"];
     stdin_line := None;
     path_exists := fun _ => file_there;
     run_ffprobe := fun _ _ => Ok probe;
     run_ffmpeg := fun _ attempt _ _ _ => Encoded (bytes_of attempt);
     float_of_str := fun s => if String.eqb s "5.000000"
                              then Some (Fnum 5) else None;
     int_of_str := fun _ => None |}.

Definition hd_probe : json :=
  probe_of [("duration", JStr "5.000000")] [audio_stream; video_stream 1920 1080].

(** Every attempt comes out at 300 KB. *)
Definition always_oversize : world :=
  sample_world on_path true hd_probe (fun _ => 307200).

(** The second attempt comes out at 200 KB. *)
Definition second_fits : world :=
  sample_world on_path true hd_probe
    (fun attempt => if (attempt =? 0)%nat then 307200 else 204800).

Definition no_input_file : world :=
  sample_world on_path false hd_probe (fun _ => 204800).

Definition no_ffprobe : world :=
  sample_world only_ffmpeg true hd_probe (fun _ => 204800).

Definition audio_only : world :=
  sample_world on_path true
    (probe_of [("duration", JStr "5.000000")] [audio_stream])
    (fun _ => 204800).

Definition zero_width : world :=
  sample_world on_path true
    (probe_of [("duration", JStr "5.000000")] [video_stream 0 480])
    (fun _ => 204800).

Definition no_duration : world :=
  sample_world on_path true (probe_of [] [video_stream 1920 1080])
    (fun _ => 204800).

Local Close Scope string_scope.

(** The double nearest to 142.98763636363637. *)
Definition d143 : Q := 5030930201920787 # 35184372088832.

(** The smallest positive double, 2^-1074. *)
Definition tiny : Q := 1 # 2 ^ 1074.

(** ** The Standard Library's binary64, to compare the rounding with *)

Definition of_spec_float (x : spec_float) : pyfloat :=
  match x with
  | S754_zero _ => Fnum 0
  | S754_infinity s => Finf s
  | S754_nan => Fnan
  | S754_finite s m e =>
      Fnum (inject_Z (if s then Z.neg m else Z.pos m) * pow2 e)
  end.

Definition sf_int (n : Z) : spec_float := binary_normalize 53 1024 n 0 false.
Definition sf_mul : spec_float -> spec_float -> spec_float := SFmul 53 1024.
Definition sf_div : spec_float -> spec_float -> spec_float := SFdiv 53 1024.

Definition same_float (a b : pyfloat) : bool :=
  match a, b with
  | Fnum x, Fnum y => Qeq_bool x y
  | Finf s, Finf t => Bool.eqb s t
  | Fnan, Fnan => true
  | _, _ => false
  end.

(** ** Predicates for the further properties *)

(** The log and the result of compress_video once ffprobe is found, by
    what the prober, the calculator and the loop do. *)
Inductive compression (w : world) (ffmpeg_path ffprobe_path input_path : string)
    : io unit -> Prop :=
| cv_probe_fails e :
    get_video_info w ffprobe_path input_path
      = (fst (get_video_info w ffprobe_path input_path), Raise e) ->
    compression w ffmpeg_path ffprobe_path input_path
      (Printed MsgAnalyzing :: fst (get_video_info w ffprobe_path input_path),
       Raise e)
| cv_target_fails d wd ht e :
    get_video_info w ffprobe_path input_path
      = ([Ffprobe input_path], Ok (d, wd, ht)) ->
    calculate_target_details d wd ht None = Raise e ->
    compression w ffmpeg_path ffprobe_path input_path
      ([Printed MsgAnalyzing; Ffprobe input_path], Raise e)
| cv_loop_fails d wd ht nw nh b e :
    get_video_info w ffprobe_path input_path
      = ([Ffprobe input_path], Ok (d, wd, ht)) ->
    calculate_target_details d wd ht None = Ok (nw, nh, b) ->
    snd (attempts w ffmpeg_path nw nh (seq 0 max_attempts) b) = Raise e ->
    compression w ffmpeg_path ffprobe_path input_path
      ([Printed MsgAnalyzing; Ffprobe input_path; Printed (MsgDuration d);
        Printed (MsgOriginalSize wd ht); Printed (MsgTargetSize nw nh)]
         ++ fst (attempts w ffmpeg_path nw nh (seq 0 max_attempts) b),
       Raise e)
| cv_done d wd ht nw nh b :
    get_video_info w ffprobe_path input_path
      = ([Ffprobe input_path], Ok (d, wd, ht)) ->
    calculate_target_details d wd ht None = Ok (nw, nh, b) ->
    snd (attempts w ffmpeg_path nw nh (seq 0 max_attempts) b) = Ok tt ->
    compression w ffmpeg_path ffprobe_path input_path
      ([Printed MsgAnalyzing; Ffprobe input_path; Printed (MsgDuration d);
        Printed (MsgOriginalSize wd ht); Printed (MsgTargetSize nw nh)]
         ++ fst (attempts w ffmpeg_path nw nh (seq 0 max_attempts) b)
         ++ [Printed MsgDone],
       Ok tt).

(** pass 2 comes right after pass 1 of the same bitrate and resolution,
    and a measured size right after pass 2 and the removal of the logs *)
Definition passes_in_order (log : list event) : Prop :=
  (forall i b wd ht,
      nth_error log i = Some (Ffmpeg Pass2 b wd ht) ->
      exists j, i = S j /\ nth_error log j = Some (Ffmpeg Pass1 b wd ht)) /\
  (forall i sz,
      nth_error log i = Some (Printed (MsgResult sz)) ->
      exists j b wd ht, i = S (S j) /\
        nth_error log j = Some (Ffmpeg Pass2 b wd ht) /\
        nth_error log (S j) = Some RemoveLogs).

(** A stream entry the search for the video stream passes over. *)
Definition non_video (s : json) : Prop :=
  exists c, subscript s "codec_type" = Ok c /\ is_video c = false.

(** The ffprobe step raises nothing that [except Exception] lets through. *)
Definition probe_raises_exceptions (w : world) : Prop :=
  forall p f, raises_exception (run_ffprobe w p f).

(** The process ends with status 0 or 1. *)
Definition exits_0_or_1 {A : Type} (m : io A) : Prop :=
  exit_status m = 0 \/ exit_status m = 1.

(** Every character of [s] satisfies [p]. *)
Definition all_chars (p : Ascii.ascii -> bool) (s : string) : bool :=
  forallb p (list_ascii_of_string s).

(** The double quote, and a string between two of them. *)
Definition dquote : Ascii.ascii := Ascii.ascii_of_nat 34.
Definition quoted (s : string) : string :=
  String dquote (String.append s (String dquote EmptyString)).

(** ** Further sample worlds *)

Local Open Scope string_scope.

(** The second pass of every encode fails. *)
Definition failing_encoder : world :=
  {| shutil_which := on_path;
     walk_exe := fun _ => None;
     argv := ["sticker_maker.py"; "clip.mp4"];
     stdin_line := None;
     path_exists := fun _ => true;
     run_ffprobe := fun _ _ => Ok hd_probe;
     run_ffmpeg := fun _ _ _ _ _ => PassFails Pass2;
     float_of_str := float_of_str always_oversize;
     int_of_str := fun _ => None |}.

(** A data stream without [codec_type] comes before the video stream. *)
Definition untyped_probe : json :=
  probe_of [("duration", JStr "5.000000")]
           [JDict [("index", JInt 0)]; video_stream 1920 1080].

Definition untyped_stream : world :=
  sample_world on_path true untyped_probe (fun _ => 204800).

(** No argument on the command line; the prompt reads the quoted path
    of a file that does not exist, with blanks around it. *)
Definition typed_path : world :=
  {| shutil_which := on_path;
     walk_exe := fun _ => None;
     argv := ["sticker_maker.py"];
     stdin_line := Some (String.append "  " (String.append (quoted "my clip.mp4") " "));
     path_exists := fun _ => false;
     run_ffprobe := fun _ _ => Ok hd_probe;
     run_ffmpeg := fun _ _ _ _ _ => Encoded 204800;
     float_of_str := float_of_str always_oversize;
     int_of_str := fun _ => None |}.

Local Close Scope string_scope.

(** * Facts *)

(** ** Rounding to binary64 *)

Module FloatFacts.

Local Open Scope Q_scope.

Lemma pow2_pos e : 0 < pow2 e.
Proof. unfold pow2. apply Qpower_0_lt. reflexivity. Qed.

Lemma pow2_add a b : pow2 (a + b) == pow2 a * pow2 b.
Proof. unfold pow2. apply Qpower_plus. discriminate. Qed.

Lemma pow2_le a b : (a <= b)%Z -> pow2 a <= pow2 b.
Proof. intros H. unfold pow2. apply Qpower_le_compat_l; [assumption | discriminate]. Qed.

Lemma pow2_lt a b : (a < b)%Z -> pow2 a < pow2 b.
Proof. intros H. unfold pow2. apply Qpower_lt_compat_l; [assumption | reflexivity]. Qed.

Lemma pow2_lt_inv a b : pow2 a < pow2 b -> (a < b)%Z.
Proof.
  intros H. destruct (Z_lt_le_dec a b) as [L | L]; [assumption |].
  apply pow2_le in L. lra.
Qed.

Lemma pow2_Z n : (0 <= n)%Z -> pow2 n == inject_Z (2 ^ n).
Proof. intros H. unfold pow2. rewrite Zpower_Qpower by assumption. reflexivity. Qed.

Lemma pow2_sub a b : pow2 (a - b) == pow2 a / pow2 b.
Proof.
  assert (H := pow2_add (a - b) b). replace (a - b + b)%Z with a in H by lia.
  assert (P := pow2_pos b). rewrite H. field. lra.
Qed.

Lemma Qlog2_spec x : 0 < x -> pow2 (Qlog2 x) <= x /\ x < pow2 (Qlog2 x + 1).
Proof.
  intros Hx. unfold Qlog2.
  destruct (Qle_bool x 0) eqn:E.
  { apply Qle_bool_iff in E. lra. }
  clear E. destruct x as [n d]. cbn [Qnum Qden].
  assert (Hn : (0 < n)%Z).
  { unfold Qlt in Hx. simpl in Hx. lia. }
  set (a := Z.log2 n). set (b := Z.log2 (Z.pos d)).
  assert (Ha : (2 ^ a <= n < 2 ^ (a + 1))%Z).
  { replace (a + 1)%Z with (Z.succ a) by lia. apply Z.log2_spec. assumption. }
  assert (Hb : (2 ^ b <= Z.pos d < 2 ^ (b + 1))%Z).
  { replace (b + 1)%Z with (Z.succ b) by lia. apply Z.log2_spec. lia. }
  assert (A0 : (0 <= a)%Z) by apply Z.log2_nonneg.
  assert (B0 : (0 <= b)%Z) by apply Z.log2_nonneg.
  assert (X : n # d == inject_Z n / inject_Z (Z.pos d)) by apply Qmake_Qdiv.
  assert (D : 0 < inject_Z (Z.pos d)).
  { change 0 with (inject_Z 0). rewrite <- Zlt_Qlt. lia. }
  assert (Pa := pow2_Z a A0). assert (Pa1 := pow2_Z (a + 1) ltac:(lia)).
  assert (Pb := pow2_Z b B0). assert (Pb1 := pow2_Z (b + 1) ltac:(lia)).
  assert (Ia : inject_Z (2 ^ a) <= inject_Z n) by (rewrite <- Zle_Qle; lia).
  assert (Ia1 : inject_Z n < inject_Z (2 ^ (a + 1))) by (rewrite <- Zlt_Qlt; lia).
  assert (Ib : inject_Z (2 ^ b) <= inject_Z (Z.pos d)) by (rewrite <- Zle_Qle; lia).
  assert (Ib1 : inject_Z (Z.pos d) < inject_Z (2 ^ (b + 1))) by (rewrite <- Zlt_Qlt; lia).
  assert (Qp : 0 < inject_Z n / inject_Z (Z.pos d)).
  { apply Qlt_shift_div_l; [assumption |]. change 0 with (inject_Z 0) at 1.
    rewrite Qmult_0_l. change 0 with (inject_Z 0). rewrite <- Zlt_Qlt. lia. }
  assert (Qd : inject_Z n / inject_Z (Z.pos d) * inject_Z (Z.pos d) == inject_Z n)
    by (field; lra).
  assert (Up : n # d < pow2 (a - b + 1)).
  { replace (a - b + 1)%Z with (a + 1 - b)%Z by lia. rewrite pow2_sub, X.
    assert (Q1 := pow2_pos b).
    apply Qlt_shift_div_l; [assumption |].
    set (q := inject_Z n / inject_Z (Z.pos d)) in *.
    apply Qle_lt_trans with (q * inject_Z (Z.pos d)); [| lra].
    apply Qmult_le_l; lra. }
  assert (Lo : pow2 (a - b - 1) < n # d).
  { replace (a - b - 1)%Z with (a - (b + 1))%Z by lia. rewrite pow2_sub, X.
    assert (Q1 := pow2_pos (b + 1)).
    apply Qlt_shift_div_r; [assumption |].
    set (q := inject_Z n / inject_Z (Z.pos d)) in *.
    apply Qle_lt_trans with (q * inject_Z (Z.pos d)); [lra |].
    apply Qmult_lt_l; lra. }
  destruct (Qle_bool (pow2 (a - b)) (n # d)) eqn:T.
  - apply Qle_bool_iff in T. split; assumption.
  - split.
    + apply Qlt_le_weak. assumption.
    + replace (a - b - 1 + 1)%Z with (a - b)%Z by lia.
      apply Qnot_le_lt. intro C. apply Qle_bool_iff in C. congruence.
Qed.

Lemma Qlog2_ge x k : 0 < x -> pow2 k <= x -> (k <= Qlog2 x)%Z.
Proof.
  intros Hx H. destruct (Qlog2_spec x Hx) as [_ U].
  assert (L : (k < Qlog2 x + 1)%Z) by (apply pow2_lt_inv; lra). lia.
Qed.

Lemma Qlog2_lt x k : 0 < x -> x < pow2 k -> (Qlog2 x < k)%Z.
Proof.
  intros Hx H. destruct (Qlog2_spec x Hx) as [L _].
  apply pow2_lt_inv. lra.
Qed.

Lemma Qlog2_mono x y : 0 < x -> x <= y -> (Qlog2 x <= Qlog2 y)%Z.
Proof.
  intros Hx H. apply Qlog2_ge; [lra |].
  destruct (Qlog2_spec x Hx) as [L _]. lra.
Qed.

Lemma Qabs_nonneg_eq x : 0 <= x -> Qabs x = x.
Proof.
  destruct x as [n d]. unfold Qle, Qabs. simpl. intros H.
  f_equal. apply Z.abs_eq. lia.
Qed.

Lemma cexp_pos x : 0 <= x -> cexp x = Z.max (Qlog2 x - 52) (-1074).
Proof. intros H. unfold cexp, prec, emin. rewrite Qabs_nonneg_eq by assumption. reflexivity. Qed.

Lemma cexp_mono x y : 0 < x -> x <= y -> (cexp x <= cexp y)%Z.
Proof.
  intros Hx H. rewrite !cexp_pos by lra.
  assert (M := Qlog2_mono x y Hx H). lia.
Qed.

(** rounding to an integer *)

Lemma Qfloor_unique x n : inject_Z n <= x -> x < inject_Z (n + 1) -> Qfloor x = n.
Proof.
  intros L U.
  assert (A := Qfloor_le x). assert (B := Qlt_floor x).
  assert (C : (n < Qfloor x + 1)%Z) by (rewrite Zlt_Qlt; lra).
  assert (D : (Qfloor x < n + 1)%Z) by (rewrite Zlt_Qlt; lra).
  lia.
Qed.

Lemma rhe_bounds x : (Qfloor x <= round_half_even x <= Qfloor x + 1)%Z.
Proof.
  unfold round_half_even.
  destruct (Qcompare (x - inject_Z (Qfloor x)) (1 # 2)); [destruct (Z.even (Qfloor x)) | |]; lia.
Qed.

Lemma rhe_le_int x n : x <= inject_Z n -> (round_half_even x <= n)%Z.
Proof.
  intros H. assert (F := Qfloor_resp_le _ _ H). rewrite Qfloor_Z in F.
  assert (B := rhe_bounds x).
  destruct (Z.eq_dec (Qfloor x) n) as [E | E]; [| lia].
  unfold round_half_even. rewrite E.
  assert (L := Qfloor_le x). rewrite E in L.
  assert (C : Qcompare (x - inject_Z n) (1 # 2) = Lt) by (apply (proj1 (Qlt_alt _ _)); lra).
  rewrite C. lia.
Qed.

Lemma rhe_ge_int x n : inject_Z n <= x -> (n <= round_half_even x)%Z.
Proof.
  intros H. assert (F := Qfloor_resp_le _ _ H). rewrite Qfloor_Z in F.
  assert (B := rhe_bounds x). lia.
Qed.

Ltac qcmp H :=
  first [ apply (proj2 (Qeq_alt _ _)) in H
        | apply (proj2 (Qlt_alt _ _)) in H
        | apply (proj2 (Qgt_alt _ _)) in H ].

Lemma rhe_error x :
  inject_Z (round_half_even x) - (1 # 2) <= x /\ x <= inject_Z (round_half_even x) + (1 # 2).
Proof.
  unfold round_half_even.
  assert (L := Qfloor_le x). assert (U := Qlt_floor x).
  rewrite inject_Z_plus in U. change (inject_Z 1) with 1 in U.
  destruct (Qcompare (x - inject_Z (Qfloor x)) (1 # 2)) eqn:C.
  - qcmp C.
    destruct (Z.even (Qfloor x)); cbv iota;
      [| rewrite inject_Z_plus; change (inject_Z 1) with 1]; lra.
  - qcmp C. lra.
  - qcmp C. rewrite inject_Z_plus. change (inject_Z 1) with 1. lra.
Qed.

Lemma rhe_mono x y : x <= y -> (round_half_even x <= round_half_even y)%Z.
Proof.
  intros H. assert (F := Qfloor_resp_le _ _ H).
  assert (Bx := rhe_bounds x). assert (By := rhe_bounds y).
  destruct (Z.eq_dec (Qfloor x) (Qfloor y)) as [E | E]; [| lia].
  unfold round_half_even in *. rewrite <- E in *.
  destruct (Qcompare (x - inject_Z (Qfloor x)) (1 # 2)) eqn:Cx;
    destruct (Qcompare (y - inject_Z (Qfloor x)) (1 # 2)) eqn:Cy;
    qcmp Cx; qcmp Cy; destruct (Z.even (Qfloor x)); try lia; lra.
Qed.

Lemma rnd_eq x : rnd x == inject_Z (round_half_even (x / pow2 (cexp x))) * pow2 (cexp x).
Proof. unfold rnd. apply Qred_correct. Qed.

Lemma div_pow2_le x y c : x <= y -> x / pow2 c <= y / pow2 c.
Proof.
  intros H. assert (P := pow2_pos c).
  apply Qle_shift_div_l; [assumption |].
  assert (E : x / pow2 c * pow2 c == x) by (field; lra). lra.
Qed.

Lemma div_pow2_nonneg x c : 0 <= x -> inject_Z 0 <= x / pow2 c.
Proof.
  intros H. assert (D := div_pow2_le 0 x c H).
  assert (P := pow2_pos c).
  assert (E : 0 / pow2 c == 0) by (field; lra).
  change (inject_Z 0) with 0. lra.
Qed.

Lemma div_pow2_nonpos x c : x <= 0 -> x / pow2 c <= inject_Z 0.
Proof.
  intros H. assert (D := div_pow2_le x 0 c H).
  assert (P := pow2_pos c).
  assert (E : 0 / pow2 c == 0) by (field; lra).
  change (inject_Z 0) with 0. lra.
Qed.

Lemma rnd_nonneg x : 0 <= x -> 0 <= rnd x.
Proof.
  intros H. rewrite rnd_eq. assert (P := pow2_pos (cexp x)).
  apply Qmult_le_0_compat; [| lra].
  change 0 with (inject_Z 0). rewrite <- Zle_Qle. apply rhe_ge_int.
  apply div_pow2_nonneg. assumption.
Qed.

Lemma dyadic_cexp f m k : dyadic f m k -> (cexp f <= k)%Z.
Proof.
  intros (E & M & K).
  assert (P := pow2_pos k).
  assert (I : 0 < inject_Z m) by (change 0 with (inject_Z 0); rewrite <- Zlt_Qlt; lia).
  assert (F : 0 < f) by (rewrite E; apply Qmult_lt_0_compat; assumption).
  rewrite cexp_pos by lra.
  assert (L : (Qlog2 f < 53 + k)%Z).
  { apply Qlog2_lt; [assumption |]. rewrite pow2_add, E.
    apply Qmult_lt_r; [assumption |].
    rewrite (pow2_Z 53) by lia. rewrite <- Zlt_Qlt. lia. }
  lia.
Qed.

(** a dyadic value on the grid [2^c], [c <= k], is an integer multiple *)
Lemma dyadic_grid f m k c : dyadic f m k -> (c <= k)%Z ->
  f / pow2 c == inject_Z (m * 2 ^ (k - c)).
Proof.
  intros (E & M & K) C. assert (P := pow2_pos c).
  rewrite inject_Z_mult, <- (pow2_Z (k - c)) by lia.
  rewrite pow2_sub, E. field. lra.
Qed.

Lemma rnd_le_dyadic x f m k : 0 <= x -> x <= f -> dyadic f m k -> rnd x <= f.
Proof.
  intros X H D. assert (C := dyadic_cexp _ _ _ D).
  destruct (Qlt_le_dec 0 x) as [X0 | X0].
  - assert (Cx : (cexp x <= k)%Z).
    { assert (M := cexp_mono x f X0 H). lia. }
    assert (G := dyadic_grid _ _ _ _ D Cx).
    assert (P := pow2_pos (cexp x)).
    rewrite rnd_eq.
    assert (R : (round_half_even (x / pow2 (cexp x)) <= m * 2 ^ (k - cexp x))%Z).
    { apply rhe_le_int. rewrite <- G. apply div_pow2_le. assumption. }
    rewrite Zle_Qle in R.
    assert (E : f == f / pow2 (cexp x) * pow2 (cexp x)) by (field; lra).
    rewrite E, G. apply Qmult_le_compat_r; lra.
  - rewrite rnd_eq. assert (P := pow2_pos (cexp x)).
    assert (R : (round_half_even (x / pow2 (cexp x)) <= 0)%Z).
    { apply rhe_le_int. apply div_pow2_nonpos. assumption. }
    rewrite Zle_Qle in R. change (inject_Z 0) with 0 in R.
    destruct D as (E & M & K). assert (P2 := pow2_pos k).
    assert (I : 0 < inject_Z m) by (change 0 with (inject_Z 0); rewrite <- Zlt_Qlt; lia).
    assert (F : 0 < f) by (rewrite E; apply Qmult_lt_0_compat; assumption).
    apply Qle_trans with 0; [| lra].
    setoid_replace 0 with (0 * pow2 (cexp x)) by ring.
    apply Qmult_le_compat_r; lra.
Qed.

Lemma dyadic_pos f m k : dyadic f m k -> 0 < f.
Proof.
  intros (E & M & K). assert (P := pow2_pos k).
  assert (I : 0 < inject_Z m) by (change 0 with (inject_Z 0); rewrite <- Zlt_Qlt; lia).
  rewrite E. apply Qmult_lt_0_compat; assumption.
Qed.

(** in the normal range the scaled value has 53 bits *)
Lemma scaled_ge_pow52 x : 0 < x -> (-1022 <= Qlog2 x)%Z ->
  pow2 (Qlog2 x) <= x /\ cexp x = (Qlog2 x - 52)%Z /\
  inject_Z (2 ^ 52) <= x / pow2 (cexp x).
Proof.
  intros X C. rewrite cexp_pos by lra.
  destruct (Qlog2_spec x X) as [L U].
  assert (E : Z.max (Qlog2 x - 52) (-1074) = (Qlog2 x - 52)%Z) by lia.
  rewrite E. repeat split; try assumption.
  assert (P := pow2_pos (Qlog2 x - 52)).
  apply Qle_shift_div_l; [assumption |].
  rewrite <- (pow2_Z 52) by lia. rewrite <- pow2_add.
  replace (52 + (Qlog2 x - 52))%Z with (Qlog2 x) by lia. assumption.
Qed.

Lemma rnd_ge_dyadic x f m k : f <= x -> dyadic f m k -> f <= rnd x.
Proof.
  intros H D. assert (C := dyadic_cexp _ _ _ D). assert (F := dyadic_pos _ _ _ D).
  assert (X : 0 < x) by lra.
  assert (M := cexp_mono f x F H).
  assert (P := pow2_pos (cexp x)).
  rewrite rnd_eq.
  destruct (Z_le_gt_dec (cexp x) k) as [Cx | Cx].
  - assert (G := dyadic_grid _ _ _ _ D Cx).
    assert (R : (m * 2 ^ (k - cexp x) <= round_half_even (x / pow2 (cexp x)))%Z).
    { apply rhe_ge_int. rewrite <- G. apply div_pow2_le. assumption. }
    rewrite Zle_Qle in R.
    assert (E : f == f / pow2 (cexp x) * pow2 (cexp x)) by (field; lra).
    rewrite E, G. apply Qmult_le_compat_r; lra.
  - assert (Ln : (-1022 <= Qlog2 x)%Z).
    { destruct D as (_ & _ & K). rewrite (cexp_pos x) in Cx by lra. lia. }
    destruct (scaled_ge_pow52 x X Ln) as (L & E & S).
    assert (R : (2 ^ 52 <= round_half_even (x / pow2 (cexp x)))%Z)
      by (apply rhe_ge_int; assumption).
    rewrite Zle_Qle in R.
    assert (Lf : (Qlog2 f < Qlog2 x)%Z).
    { rewrite (cexp_pos f) in * by lra. lia. }
    destruct (Qlog2_spec f F) as [_ Uf].
    assert (T : pow2 (Qlog2 f + 1) <= pow2 (Qlog2 x)) by (apply pow2_le; lia).
    apply Qle_trans with (inject_Z (2 ^ 52) * pow2 (cexp x)).
    + rewrite <- (pow2_Z 52) by lia. rewrite <- pow2_add, E.
      replace (52 + (Qlog2 x - 52))%Z with (Qlog2 x) by lia. lra.
    + apply Qmult_le_compat_r; lra.
Qed.

Lemma rnd_zero x : x == 0 -> rnd x == 0.
Proof.
  intros H. assert (A : 0 <= rnd x) by (apply rnd_nonneg; lra).
  rewrite rnd_eq in *. assert (P := pow2_pos (cexp x)).
  assert (R : (round_half_even (x / pow2 (cexp x)) <= 0)%Z).
  { apply rhe_le_int. apply div_pow2_nonpos. lra. }
  rewrite Zle_Qle in R. change (inject_Z 0) with 0 in R.
  assert (B : inject_Z (round_half_even (x / pow2 (cexp x))) * pow2 (cexp x) <= 0 * pow2 (cexp x))
    by (apply Qmult_le_compat_r; lra).
  lra.
Qed.

(** a dyadic value is a double: rounding leaves it alone *)
Lemma rnd_dyadic f m k : dyadic f m k -> rnd f == f.
Proof.
  intros D. assert (F := dyadic_pos _ _ _ D).
  apply Qle_antisym.
  - apply rnd_le_dyadic with m k; [lra | lra | assumption].
  - apply rnd_ge_dyadic with m k; [lra | assumption].
Qed.

Lemma dyadic_int n : (0 < n < 2 ^ 53)%Z -> dyadic (inject_Z n) n 0.
Proof.
  intros H. repeat split; try lia.
  change (pow2 0) with 1. ring.
Qed.

Lemma dyadic_pow2 e : (-1074 <= e)%Z -> dyadic (pow2 e) 1 e.
Proof.
  intros H. repeat split; try lia. ring.
Qed.

(** rounding is monotone on the non-negative rationals *)
Lemma rnd_mono x y : 0 <= x -> x <= y -> rnd x <= rnd y.
Proof.
  intros X H.
  destruct (Qlt_le_dec 0 x) as [X0 | X0].
  2:{ assert (Z0 := rnd_zero x ltac:(lra)). assert (N := rnd_nonneg y ltac:(lra)). lra. }
  assert (M := cexp_mono x y X0 H).
  destruct (Z.eq_dec (cexp x) (cexp y)) as [E | E].
  - rewrite (rnd_eq x), (rnd_eq y), E. assert (P := pow2_pos (cexp y)).
    apply Qmult_le_compat_r; [| lra].
    rewrite <- Zle_Qle. apply rhe_mono. rewrite <- E. apply div_pow2_le. assumption.
  - assert (Y0 : 0 < y) by lra.
    assert (Lx : (Qlog2 x < Qlog2 y)%Z /\ (-1022 <= Qlog2 y)%Z).
    { rewrite (cexp_pos x), (cexp_pos y) in * by lra. lia. }
    destruct Lx as [Lx Ln].
    destruct (scaled_ge_pow52 y Y0 Ln) as (L & Ey & S).
    destruct (Qlog2_spec x X0) as [_ Ux].
    assert (T : pow2 (Qlog2 x + 1) <= pow2 (Qlog2 y)) by (apply pow2_le; lia).
    assert (Ky : (-1074 <= Qlog2 y)%Z) by lia.
    apply Qle_trans with (pow2 (Qlog2 y)).
    + apply rnd_le_dyadic with 1%Z (Qlog2 y); [lra | lra | apply dyadic_pow2; assumption].
    + apply rnd_ge_dyadic with 1%Z (Qlog2 y); [lra | apply dyadic_pow2; assumption].
Qed.

(** the relative error of rounding in the normal range *)
Lemma rnd_error x : pow2 (-1022) <= x ->
  x * (1 - pow2 (-53)) <= rnd x /\ rnd x <= x * (1 + pow2 (-53)).
Proof.
  intros H. assert (P0 := pow2_pos (-1022)). assert (X : 0 < x) by lra.
  assert (Lg : (-1022 <= Qlog2 x)%Z) by (apply Qlog2_ge; assumption).
  destruct (scaled_ge_pow52 x X Lg) as (L & E & S).
  assert (P := pow2_pos (cexp x)).
  destruct (rhe_error (x / pow2 (cexp x))) as [A B].
  set (r := inject_Z (round_half_even (x / pow2 (cexp x)))) in *.
  assert (Ex : x == x / pow2 (cexp x) * pow2 (cexp x)) by (field; lra).
  set (s := x / pow2 (cexp x)) in *.
  assert (U : pow2 (cexp x) <= x * pow2 (-52)).
  { rewrite E. replace (Qlog2 x - 52)%Z with (Qlog2 x + -52)%Z by lia.
    rewrite pow2_add. apply Qmult_le_compat_r; [assumption |].
    apply Qlt_le_weak, pow2_pos. }
  assert (H53 : x * pow2 (-52) == 2 * (x * pow2 (-53))).
  { change (-52)%Z with (1 + -53)%Z. rewrite pow2_add. change (pow2 1) with 2. ring. }
  rewrite rnd_eq. fold s. fold r.
  clearbody r s. clear P0 H E S L.
  set (pc := pow2 (cexp x)) in *. set (p52 := pow2 (-52)) in *.
  set (p53 := pow2 (-53)) in *. clearbody pc p52 p53.
  assert (A' : (r - (1 # 2)) * pc <= s * pc) by (apply Qmult_le_compat_r; lra).
  assert (B' : s * pc <= (r + (1 # 2)) * pc) by (apply Qmult_le_compat_r; lra).
  split; lra.
Qed.

Lemma fl_cases x : fl x = Fnum (rnd x) \/ exists s, fl x = Finf s.
Proof.
  unfold fl. destruct (Qle_bool (pow2 emax) (Qabs (rnd x))); [right; eauto | left; reflexivity].
Qed.

Lemma fl_Fnum_inv x q : fl x = Fnum q -> q = rnd x.
Proof.
  unfold fl. destruct (Qle_bool (pow2 emax) (Qabs (rnd x))); intros H; inversion H; reflexivity.
Qed.

Lemma fl_bounded x f m k :
  0 <= x -> x <= f -> dyadic f m k -> f < pow2 1024 -> fl x = Fnum (rnd x).
Proof.
  intros X H D B. unfold fl.
  destruct (Qle_bool (pow2 emax) (Qabs (rnd x))) eqn:E; [| reflexivity].
  exfalso. apply Qle_bool_iff in E.
  rewrite Qabs_nonneg_eq in E by (apply rnd_nonneg; assumption).
  assert (R := rnd_le_dyadic x f m k X H D). unfold emax in E. lra.
Qed.

Lemma Qtrunc_nonneg x : 0 <= x -> Qtrunc x = Qfloor x.
Proof.
  intros H. unfold Qtrunc. destruct (Qle_bool 0 x) eqn:E; [reflexivity |].
  apply Qle_bool_iff in H. congruence.
Qed.

End FloatFacts.

(** ** The target calculator and the reduction *)

Module TargetFacts.

Import FloatFacts.
Local Open Scope Q_scope.

Lemma REDUCTION_value : REDUCTION = Fnum (3602879701896397 # 4503599627370496).
Proof. vm_compute. reflexivity. Qed.

Lemma hard_floor_max b : hard_floor b = Z.max 10 b.
Proof. unfold hard_floor. destruct (Z.ltb_spec b 10); lia. Qed.

Lemma pow2_1024_big : inject_Z (2 ^ 53) < pow2 1024.
Proof. rewrite <- (pow2_Z 53) by lia. apply pow2_lt. lia. Qed.

Lemma float_of_int_small n : (0 <= n < 2 ^ 53)%Z ->
  exists r, float_of_int n = Ok (Fnum r) /\ r == inject_Z n.
Proof.
  intros H. unfold float_of_int.
  assert (N : 0 <= inject_Z n) by (change 0 with (inject_Z 0); rewrite <- Zle_Qle; lia).
  destruct (Z.eq_dec n 0) as [-> | NZ].
  - exists (rnd (inject_Z 0)). split; [vm_compute; reflexivity | vm_compute; reflexivity].
  - assert (D : dyadic (inject_Z n) n 0) by (apply dyadic_int; lia).
    rewrite (fl_bounded _ (inject_Z n) n 0); try assumption; try lra.
    + exists (rnd (inject_Z n)). split; [reflexivity | apply rnd_dyadic with n 0%Z; assumption].
    + assert (B := pow2_1024_big).
      assert (inject_Z n < inject_Z (2 ^ 53)) by (rewrite <- Zlt_Qlt; lia). lra.
Qed.

(** the reduction on bitrates up to [2^50] is the integer part of four fifths *)
Lemma reduce_bitrate_floor b : (0 <= b <= 2 ^ 50)%Z ->
  reduce_bitrate b = Ok (Z.max 10 (4 * b / 5)).
Proof.
  intros H. unfold reduce_bitrate.
  destruct (float_of_int_small b ltac:(lia)) as (r & -> & R).
  cbn [rbind]. rewrite REDUCTION_value. cbn [float_mul].
  set (c := 3602879701896397 # 4503599627370496).
  set (n := (4 * b / 5)%Z).
  assert (Hn : (5 * n <= 4 * b < 5 * n + 5)%Z).
  { unfold n. assert (M := Z.div_mod (4 * b) 5 ltac:(lia)).
    assert (M2 := Z.mod_pos_bound (4 * b) 5 ltac:(lia)). lia. }
  assert (In1 : 5 * inject_Z n <= 4 * inject_Z b).
  { change 5 with (inject_Z 5). change 4 with (inject_Z 4).
    rewrite <- !inject_Z_mult, <- Zle_Qle. lia. }
  assert (In2 : 4 * inject_Z b <= 5 * inject_Z n + 4).
  { change 5 with (inject_Z 5). change 4 with (inject_Z 4).
    rewrite <- !inject_Z_mult, <- inject_Z_plus, <- Zle_Qle. lia. }
  assert (Ib : 0 <= inject_Z b <= inject_Z (2 ^ 50)).
  { change 0 with (inject_Z 0). rewrite <- !Zle_Qle. lia. }
  assert (In : 0 <= inject_Z n).
  { change 0 with (inject_Z 0). rewrite <- !Zle_Qle. lia. }
  change (inject_Z (2 ^ 50)) with (1125899906842624 # 1) in Ib.
  assert (X0 : 0 <= r * c) by (unfold c; lra).
  assert (Up : r * c <= inject_Z n + (7 # 8)) by (unfold c; lra).
  assert (Lo : inject_Z n <= r * c) by (unfold c; lra).
  assert (D : dyadic (inject_Z n + (7 # 8)) (8 * n + 7) (-3)).
  { repeat split; try lia. rewrite inject_Z_plus, inject_Z_mult.
    change (pow2 (-3)) with (1 # 8). change (inject_Z 8) with 8. change (inject_Z 7) with 7. field. }
  assert (B : inject_Z n + (7 # 8) < pow2 1024).
  { assert (B := pow2_1024_big).
    assert (I : inject_Z n + 1 <= inject_Z (2 ^ 53)).
    { change 1 with (inject_Z 1). rewrite <- inject_Z_plus, <- Zle_Qle. lia. }
    lra. }
  rewrite (fl_bounded _ _ _ _ X0 Up D B). cbn [int_of_float rbind].
  rewrite Qtrunc_nonneg by (apply rnd_nonneg; assumption).
  rewrite hard_floor_max. do 2 f_equal.
  apply Qfloor_unique.
  - destruct (Z.eq_dec n 0) as [E | E].
    + rewrite E. apply rnd_nonneg. assumption.
    + apply rnd_ge_dyadic with n 0%Z; [assumption | apply dyadic_int; lia].
  - assert (U := rnd_le_dyadic _ _ _ _ X0 Up D).
    rewrite inject_Z_plus. change (inject_Z 1) with 1. lra.
Qed.

Lemma pow2_m1022_le_1 : pow2 (-1022) <= 1.
Proof. change 1 with (pow2 0). apply pow2_le. lia. Qed.

Lemma float_of_int_Ok n f : float_of_int n = Ok f -> f = Fnum (rnd (inject_Z n)).
Proof.
  unfold float_of_int. destruct (fl_cases (inject_Z n)) as [E | [s E]]; rewrite E.
  - intros H. inversion H. reflexivity.
  - discriminate.
Qed.

Lemma int_of_float_fl x t : int_of_float (fl x) = Ok t -> t = Qtrunc (rnd x).
Proof.
  destruct (fl_cases x) as [E | [s E]]; rewrite E; cbn [int_of_float].
  - intros H. inversion H. reflexivity.
  - discriminate.
Qed.

Lemma rbind_Ok {A B} (r : result A) (f : A -> result B) v :
  rbind r f = Ok v -> exists a, r = Ok a /\ f a = Ok v.
Proof. destruct r; cbn [rbind]; [eauto | discriminate]. Qed.

Lemma reduce_bitrate_lt b b' : (11 <= b)%Z -> reduce_bitrate b = Ok b' -> (b' < b)%Z.
Proof.
  intros Hb H. unfold reduce_bitrate in H.
  apply rbind_Ok in H. destruct H as (fb & F & H).
  apply rbind_Ok in H. destruct H as (t & T & H).
  apply float_of_int_Ok in F. subst fb.
  rewrite REDUCTION_value in T. cbn [float_mul] in T.
  apply int_of_float_fl in T.
  inversion H; subst b'; clear H.
  set (c := 3602879701896397 # 4503599627370496) in *.
  assert (Ib : 11 <= inject_Z b) by (change 11 with (inject_Z 11); rewrite <- Zle_Qle; lia).
  assert (P := pow2_m1022_le_1).
  destruct (rnd_error (inject_Z b) ltac:(lra)) as [L U].
  set (r := rnd (inject_Z b)) in *.
  change (pow2 (-53)) with (1 # 9007199254740992) in *.
  assert (X : pow2 (-1022) <= r * c) by (unfold c; lra).
  destruct (rnd_error (r * c) X) as [L2 U2].
  change (pow2 (-53)) with (1 # 9007199254740992) in *.
  assert (N : 0 <= rnd (r * c)) by (apply rnd_nonneg; unfold c; lra).
  rewrite Qtrunc_nonneg in T by assumption.
  assert (Fl := Qfloor_le (rnd (r * c))). rewrite <- T in Fl.
  assert (Lt : inject_Z t < inject_Z b) by (unfold c in *; lra).
  rewrite <- Zlt_Qlt in Lt. rewrite hard_floor_max. lia.
Qed.

Lemma Qzero_pos d : 0 < d -> Qzero d = false.
Proof.
  intros H. unfold Qzero. destruct (Qeq_bool d 0) eqn:E; [| reflexivity].
  apply Qeq_bool_iff in E. lra.
Qed.

(** the bitrate pipeline on a positive finite duration *)
Lemma target_bitrate_unfold d : 0 < d ->
  target_bitrate (Fnum d) SAFE_BITRATE_FACTOR =
  rbind (float_div (fl (SAFE_BITS / d)) (Fnum 1000)) (fun kbps =>
  rbind (int_of_float kbps) (fun b => Ok (hard_floor b))).
Proof.
  intros H. unfold target_bitrate.
  change (float_of_int (MAX_SIZE_KB * 1024 * 8)) with (float_of_int 2097152).
  replace (float_of_int 2097152) with (Ok (Fnum 2097152)) by (vm_compute; reflexivity).
  cbn [rbind].
  replace (float_mul (Fnum 2097152) SAFE_BITRATE_FACTOR) with (Fnum SAFE_BITS)
    by (vm_compute; reflexivity).
  cbn [float_div]. rewrite (Qzero_pos d H). cbn [rbind].
  replace (float_of_int 1000) with (Ok (Fnum 1000)) by (vm_compute; reflexivity).
  reflexivity.
Qed.

Lemma target_bitrate_Ok d b : 0 < d ->
  target_bitrate (Fnum d) SAFE_BITRATE_FACTOR = Ok b ->
  fl (SAFE_BITS / d) = Fnum (rnd (SAFE_BITS / d)) /\
  b = hard_floor (Qfloor (rnd (rnd (SAFE_BITS / d) / 1000))).
Proof.
  intros H. rewrite (target_bitrate_unfold d H).
  assert (X : 0 <= SAFE_BITS / d).
  { apply Qle_shift_div_l; [assumption |]. unfold SAFE_BITS. lra. }
  destruct (fl_cases (SAFE_BITS / d)) as [E | [s E]]; rewrite E.
  - cbn [float_div]. replace (Qzero 1000) with false by reflexivity. cbn [rbind].
    intros T. apply rbind_Ok in T. destruct T as (t & T & R).
    apply int_of_float_fl in T. inversion R. subst.
    split; [reflexivity |].
    rewrite Qtrunc_nonneg; [reflexivity |].
    apply rnd_nonneg. apply Qle_shift_div_l; [reflexivity |].
    assert (N := rnd_nonneg _ X). lra.
  - cbn. discriminate.
Qed.

Lemma div_le_compat_l a x y : 0 <= a -> 0 < x -> x <= y -> a / y <= a / x.
Proof.
  intros A X H.
  apply Qle_shift_div_l; [assumption |].
  assert (E : a / y * y == a) by (field; lra).
  assert (N : 0 <= a / y) by (apply Qle_shift_div_l; lra).
  assert (M : x * (a / y) <= y * (a / y)) by (apply Qmult_le_compat_r; lra).
  lra.
Qed.

Lemma div_le_compat_r a b c : 0 < c -> a <= b -> a / c <= b / c.
Proof.
  intros C H. apply Qle_shift_div_l; [assumption |].
  assert (E : a / c * c == a) by (field; lra). lra.
Qed.

Lemma hard_floor_mono a b : (a <= b)%Z -> (hard_floor a <= hard_floor b)%Z.
Proof. rewrite !hard_floor_max. lia. Qed.

(** longer clips get a lower (or equal) bitrate *)
Lemma target_bitrate_mono d1 d2 b1 b2 : 0 < d1 -> d1 <= d2 ->
  target_bitrate (Fnum d1) SAFE_BITRATE_FACTOR = Ok b1 ->
  target_bitrate (Fnum d2) SAFE_BITRATE_FACTOR = Ok b2 ->
  (b2 <= b1)%Z.
Proof.
  intros D1 H T1 T2.
  apply target_bitrate_Ok in T1; [| assumption].
  apply target_bitrate_Ok in T2; [| lra].
  destruct T1 as [_ ->]. destruct T2 as [_ ->].
  apply hard_floor_mono, Qfloor_resp_le.
  assert (A : 0 <= SAFE_BITS / d2).
  { apply Qle_shift_div_l; [lra |]. unfold SAFE_BITS. lra. }
  assert (B : SAFE_BITS / d2 <= SAFE_BITS / d1).
  { apply div_le_compat_l; [unfold SAFE_BITS; lra | assumption | assumption]. }
  assert (R := rnd_mono _ _ A B).
  assert (N := rnd_nonneg _ A).
  apply rnd_mono.
  - apply Qle_shift_div_l; [reflexivity | lra].
  - apply div_le_compat_r; [reflexivity | assumption].
Qed.

Lemma inject_Z_le_inv a b : inject_Z a <= inject_Z b -> (a <= b)%Z.
Proof. intros H. rewrite Zle_Qle. assumption. Qed.

Lemma rnd_between_ints x lo hi : (0 <= lo)%Z -> (hi < 2 ^ 53)%Z ->
  inject_Z lo <= x -> x <= inject_Z hi ->
  inject_Z lo <= rnd x /\ rnd x <= inject_Z hi.
Proof.
  intros L Hh A B.
  assert (I0 : 0 <= inject_Z lo) by (change 0 with (inject_Z 0); rewrite <- Zle_Qle; lia).
  assert (X : 0 <= x) by lra.
  split.
  - destruct (Z.eq_dec lo 0) as [-> | N].
    + apply rnd_nonneg. assumption.
    + apply rnd_ge_dyadic with lo 0%Z; [assumption |].
      apply dyadic_int. assert (inject_Z lo <= inject_Z hi) by lra.
      apply inject_Z_le_inv in H. lia.
  - destruct (Z.eq_dec hi 0) as [-> | N].
    + assert (Z0 := rnd_zero x ltac:(change (inject_Z 0) with 0 in B; lra)).
      rewrite Z0. apply Qle_refl.
    + apply rnd_le_dyadic with hi 0%Z; [assumption | assumption |].
      apply dyadic_int. assert (inject_Z lo <= inject_Z hi) by lra.
      apply inject_Z_le_inv in H. lia.
Qed.

Lemma fl_between_ints x lo hi : (0 <= lo)%Z -> (hi < 2 ^ 53)%Z ->
  inject_Z lo <= x -> x <= inject_Z hi -> fl x = Fnum (rnd x).
Proof.
  intros L Hh A B.
  assert (I0 : 0 <= inject_Z lo) by (change 0 with (inject_Z 0); rewrite <- Zle_Qle; lia).
  assert (I1 : inject_Z lo <= inject_Z hi) by lra. apply inject_Z_le_inv in I1.
  destruct (Z.eq_dec hi 0) as [-> | N].
  - change (inject_Z 0) with 0 in B.
    apply fl_bounded with 1 1%Z 0%Z; [lra | lra | |].
    + split; [reflexivity | lia].
    + change 1 with (pow2 0). apply pow2_lt. lia.
  - apply fl_bounded with (inject_Z hi) hi 0%Z; [lra | lra | |].
    + apply dyadic_int. lia.
    + assert (P := pow2_1024_big).
      assert (inject_Z hi < inject_Z (2 ^ 53)) by (rewrite <- Zlt_Qlt; lia). lra.
Qed.

Lemma target_bitrate_near_spec d : (1 # 1000000) <= d ->
  exists b, target_bitrate (Fnum d) SAFE_BITRATE_FACTOR = Ok b /\
    (spec_bitrate d <= b <= Z.max 10 (Qfloor (SAFE_BITS / d / 1000) + 1))%Z.
Proof.
  intros H. assert (D0 : 0 < d) by lra.
  rewrite (target_bitrate_unfold d D0).
  unfold spec_bitrate.
  assert (E : inject_Z (MAX_SIZE_KB * 1024 * 8) * (75 # 100) / d / 1000 == SAFE_BITS / d / 1000).
  { unfold SAFE_BITS. change (inject_Z (MAX_SIZE_KB * 1024 * 8)) with 2097152. field. lra. }
  rewrite (Qfloor_comp _ _ E). clear E.
  set (X := SAFE_BITS / d). set (N := Qfloor (X / 1000)).
  assert (X0 : 0 <= X) by (apply Qle_shift_div_l; [assumption | unfold SAFE_BITS; lra]).
  assert (XU : X <= 1572864000000).
  { apply Qle_shift_div_r; [assumption |]. unfold SAFE_BITS. lra. }
  assert (E1 : X / 1000 * 1000 == X) by field.
  assert (FL := Qfloor_le (X / 1000)). assert (FU := Qlt_floor (X / 1000)).
  fold N in FL, FU. rewrite inject_Z_plus in FU. change (inject_Z 1) with 1 in FU.
  assert (N0 : (0 <= N)%Z).
  { unfold N. rewrite <- (Qfloor_Z 0). apply Qfloor_resp_le.
    change (inject_Z 0) with 0. lra. }
  assert (NU : (N <= 1572864000)%Z).
  { unfold N. rewrite <- (Qfloor_Z 1572864000). apply Qfloor_resp_le.
    change (inject_Z 1572864000) with 1572864000. lra. }
  assert (A1 : inject_Z (1000 * N) <= X).
  { rewrite inject_Z_mult. change (inject_Z 1000) with 1000. lra. }
  assert (B1 : X <= inject_Z (1000 * (N + 1))).
  { rewrite inject_Z_mult, inject_Z_plus. change (inject_Z 1000) with 1000.
    change (inject_Z 1) with 1. lra. }
  rewrite (fl_between_ints X (1000 * N) (1000 * (N + 1))) by (assumption || lia).
  destruct (rnd_between_ints X (1000 * N) (1000 * (N + 1))) as [A2 B2]; try assumption; try lia.
  cbn [float_div]. replace (Qzero 1000) with false by reflexivity. cbn [rbind].
  set (y := rnd X) in *.
  assert (E2 : y / 1000 * 1000 == y) by field.
  rewrite inject_Z_mult in A2, B2. rewrite inject_Z_plus in B2.
  change (inject_Z 1000) with 1000 in *. change (inject_Z 1) with 1 in *.
  assert (A3 : inject_Z N <= y / 1000) by lra.
  assert (B3 : y / 1000 <= inject_Z (N + 1)).
  { rewrite inject_Z_plus. change (inject_Z 1) with 1. lra. }
  rewrite (fl_between_ints (y / 1000) N (N + 1)) by (assumption || lia).
  destruct (rnd_between_ints (y / 1000) N (N + 1)) as [A4 B4]; try assumption; try lia.
  cbn [int_of_float rbind].
  assert (I0 : 0 <= inject_Z N) by (change 0 with (inject_Z 0); rewrite <- Zle_Qle; lia).
  rewrite Qtrunc_nonneg by lra.
  eexists. split; [reflexivity |].
  apply Qfloor_resp_le in A4, B4. rewrite Qfloor_Z in A4, B4.
  rewrite hard_floor_max. lia.
Qed.

Lemma float_of_int_finite n f : (0 <= n)%Z -> float_of_int n = Ok f ->
  f = Fnum (rnd (inject_Z n)) /\ rnd (inject_Z n) < pow2 1024.
Proof.
  intros N. unfold float_of_int, fl.
  destruct (Qle_bool (pow2 emax) (Qabs (rnd (inject_Z n)))) eqn:E; [discriminate |].
  intros H. inversion H. split; [reflexivity |].
  apply Qnot_le_lt. intros C.
  assert (R : 0 <= rnd (inject_Z n)).
  { apply rnd_nonneg. change 0 with (inject_Z 0). rewrite <- Zle_Qle. assumption. }
  rewrite Qabs_nonneg_eq in E by assumption.
  apply Qle_bool_iff in C. unfold emax in E. congruence.
Qed.

Lemma mul_le_mul a b c d : 0 <= a -> a <= b -> 0 <= c -> c <= d -> a * c <= b * d.
Proof.
  intros A AB C CD. apply Qle_trans with (b * c).
  - apply Qmult_le_compat_r; assumption.
  - rewrite (Qmult_comm b c), (Qmult_comm b d). apply Qmult_le_compat_r; lra.
Qed.

(** the product behind the scaled edge never exceeds 512 by more than a
    rounding error *)
Lemma scaled_product_bound l s : (0 < s <= l)%Z ->
  rnd (inject_Z s) < pow2 1024 ->
  0 <= rnd (512 / inject_Z l) * rnd (inject_Z s) <= 1025 # 2.
Proof.
  intros H F.
  assert (Is : 1 <= inject_Z s) by (change 1 with (inject_Z 1); rewrite <- Zle_Qle; lia).
  assert (Il : inject_Z s <= inject_Z l) by (rewrite <- Zle_Qle; lia).
  assert (Q0 : 0 <= 512 / inject_Z l) by (apply Qle_shift_div_l; lra).
  assert (R0 : 0 <= rnd (512 / inject_Z l)) by (apply rnd_nonneg; assumption).
  assert (S0 : 0 <= rnd (inject_Z s)) by (apply rnd_nonneg; lra).
  split; [apply Qmult_le_0_compat; assumption |].
  assert (P := pow2_m1022_le_1).
  destruct (Qlt_le_dec (pow2 1031) (inject_Z l)) as [Big | Small].
  - (* the quotient is below the normal range *)
    assert (U : rnd (512 / inject_Z l) <= pow2 (-1022)).
    { apply rnd_le_dyadic with 1%Z (-1022)%Z; [assumption | | apply dyadic_pow2; lia].
      apply Qle_shift_div_r; [lra |].
      assert (E : pow2 (-1022) * pow2 1031 == 512).
      { rewrite <- pow2_add. reflexivity. }
      assert (M : pow2 (-1022) * pow2 1031 <= pow2 (-1022) * inject_Z l).
      { rewrite !(Qmult_comm (pow2 (-1022))). apply Qmult_le_compat_r; [lra |].
        apply Qlt_le_weak, pow2_pos. }
      lra. }
    apply Qle_trans with (pow2 (-1022) * pow2 1024).
    + apply mul_le_mul; try assumption. lra.
    + rewrite <- pow2_add. change (pow2 (-1022 + 1024)) with 4. lra.
  - (* normal range: two relative errors *)
    assert (N : pow2 (-1022) <= 512 / inject_Z l).
    { apply Qle_shift_div_l; [lra |].
      assert (E : pow2 (-1022) * pow2 1031 == 512).
      { rewrite <- pow2_add. reflexivity. }
      assert (M : pow2 (-1022) * inject_Z l <= pow2 (-1022) * pow2 1031).
      { rewrite !(Qmult_comm (pow2 (-1022))). apply Qmult_le_compat_r; [lra |].
        apply Qlt_le_weak, pow2_pos. }
      lra. }
    destruct (rnd_error _ N) as [_ U1].
    destruct (rnd_error (inject_Z l) ltac:(lra)) as [_ U2].
    assert (M := rnd_mono (inject_Z s) (inject_Z l) ltac:(lra) Il).
    change (pow2 (-53)) with (1 # 9007199254740992) in *.
    set (p := 1 # 9007199254740992) in *.
    apply Qle_trans with (512 / inject_Z l * (1 + p) * (inject_Z l * (1 + p))).
    + apply mul_le_mul; try assumption. lra.
    + assert (E : 512 / inject_Z l * (1 + p) * (inject_Z l * (1 + p)) == 512 * (1 + p) * (1 + p))
        by (field; lra).
      rewrite E. unfold p. apply Qle_bool_iff. vm_compute. reflexivity.
Qed.

Lemma int_truediv_512 l : (0 < l)%Z ->
  int_truediv TARGET_DIMENSION l = Ok (Fnum (rnd (512 / inject_Z l))).
Proof.
  intros H. unfold int_truediv, TARGET_DIMENSION.
  destruct (Z.eqb_spec l 0) as [E | E]; [lia |].
  change (inject_Z 512) with 512.
  assert (Il : 1 <= inject_Z l) by (change 1 with (inject_Z 1); rewrite <- Zle_Qle; lia).
  rewrite (fl_between_ints _ 0 512); try lia; try reflexivity.
  - change (inject_Z 0) with 0. apply Qle_shift_div_l; lra.
  - change (inject_Z 512) with 512. apply Qle_shift_div_r; lra.
Qed.

Lemma scaled_edge_Ok l s t : (0 < s <= l)%Z -> scaled_edge l s = Ok t ->
  rnd (inject_Z s) < pow2 1024 /\
  t = Qfloor (rnd (rnd (512 / inject_Z l) * rnd (inject_Z s))).
Proof.
  intros H. unfold scaled_edge. rewrite int_truediv_512 by lia. cbn [rbind].
  intros E. apply rbind_Ok in E. destruct E as (fs & Fs & E).
  apply float_of_int_finite in Fs; [| lia]. destruct Fs as [-> Fin].
  cbn [float_mul] in E. apply int_of_float_fl in E.
  split; [assumption |].
  rewrite Qtrunc_nonneg in E; [assumption |].
  apply rnd_nonneg. apply (scaled_product_bound l s H Fin).
Qed.

Lemma scaled_edge_range l s t : (0 < s <= l)%Z -> scaled_edge l s = Ok t ->
  (0 <= t <= 512)%Z.
Proof.
  intros H E. destruct (scaled_edge_Ok l s t H E) as [Fin ->].
  destruct (scaled_product_bound l s H Fin) as [L U].
  set (x := rnd (512 / inject_Z l) * rnd (inject_Z s)) in *.
  assert (D : dyadic (1025 # 2) 1025 (-1)) by (split; [reflexivity | lia]).
  assert (R := rnd_le_dyadic x _ _ _ L U D).
  assert (N := rnd_nonneg x L).
  split.
  - rewrite <- (Qfloor_Z 0). apply Qfloor_resp_le. assumption.
  - assert (F : (Qfloor (rnd x) <= Qfloor (1025 # 2))%Z) by (apply Qfloor_resp_le; assumption).
    change (Qfloor (1025 # 2)) with 512%Z in F. assumption.
Qed.

Lemma pow2_1023_lt : pow2 1023 < pow2 1024.
Proof. apply pow2_lt. lia. Qed.

Lemma float_of_int_total n : (0 <= n < 2 ^ 1023)%Z ->
  float_of_int n = Ok (Fnum (rnd (inject_Z n))).
Proof.
  intros H. unfold float_of_int.
  rewrite (fl_bounded (inject_Z n) (pow2 1023) 1 1023); [reflexivity | | | | ].
  - change 0 with (inject_Z 0). rewrite <- Zle_Qle. lia.
  - rewrite (pow2_Z 1023) by lia. rewrite <- Zle_Qle. lia.
  - apply dyadic_pow2. lia.
  - apply pow2_1023_lt.
Qed.

Lemma fl_small x : 0 <= x -> x <= 1025 # 2 -> fl x = Fnum (rnd x).
Proof.
  intros L U. apply fl_bounded with (1025 # 2) 1025%Z (-1)%Z; try assumption.
  - split; [reflexivity | lia].
  - apply Qle_lt_trans with (pow2 10); [vm_compute; discriminate | apply pow2_lt; lia].
Qed.

Lemma scaled_edge_total l s : (0 < s <= l)%Z -> (s < 2 ^ 1023)%Z ->
  exists t, scaled_edge l s = Ok t.
Proof.
  intros H B. unfold scaled_edge. rewrite int_truediv_512 by lia. cbn [rbind].
  rewrite float_of_int_total by lia. cbn [rbind float_mul].
  assert (Fin : rnd (inject_Z s) < pow2 1024).
  { apply Qle_lt_trans with (pow2 1023); [| apply pow2_1023_lt].
    apply rnd_le_dyadic with 1%Z 1023%Z.
    - change 0 with (inject_Z 0). rewrite <- Zle_Qle. lia.
    - rewrite (pow2_Z 1023) by lia. rewrite <- Zle_Qle. lia.
    - apply dyadic_pow2. lia. }
  destruct (scaled_product_bound l s H Fin) as [L U].
  rewrite fl_small by assumption. cbn [int_of_float]. eauto.
Qed.

Lemma make_even_even n : (make_even n mod 2 = 0)%Z.
Proof.
  unfold make_even. destruct (Z.eqb_spec (n mod 2) 0) as [E | E]; cbn [negb].
  - assumption.
  - assert (B := Z.mod_pos_bound n 2 ltac:(lia)).
    assert (M := Z.div_mod n 2 ltac:(lia)).
    replace (n - 1)%Z with (0 + (n / 2) * 2)%Z by lia.
    rewrite Z.mod_add by lia. reflexivity.
Qed.

Lemma make_even_range n hi : (0 <= n <= hi)%Z -> (0 <= make_even n <= hi)%Z.
Proof.
  intros H. unfold make_even. destruct (Z.eqb_spec (n mod 2) 0) as [E | E]; cbn [negb].
  - assumption.
  - assert (n <> 0)%Z by (intros ->; apply E; reflexivity). lia.
Qed.

Lemma target_dimensions_spec w h nw nh : (0 < w)%Z -> (0 < h)%Z ->
  target_dimensions w h = Ok (nw, nh) ->
  (nw mod 2 = 0 /\ nh mod 2 = 0 /\ 0 <= nw <= 512 /\ 0 <= nh <= 512 /\
   (h < w -> nw = 512) /\ (w <= h -> nh = 512))%Z.
Proof.
  intros W H. unfold target_dimensions.
  destruct (Z.gtb_spec w h) as [G | G]; intros E;
    apply rbind_Ok in E; destruct E as ([a b] & E & R);
    apply rbind_Ok in E; destruct E as (t & E & P);
    inversion P; subst a b; clear P; inversion R; subst nw nh; clear R;
    apply scaled_edge_range in E; try lia;
    change (make_even TARGET_DIMENSION) with 512%Z;
    assert (M := make_even_even t); assert (B := make_even_range t 512 E);
    repeat split; try lia; try reflexivity.
Qed.

Lemma target_dimensions_total w h : (0 < w < 2 ^ 1023)%Z -> (0 < h < 2 ^ 1023)%Z ->
  exists nw nh, target_dimensions w h = Ok (nw, nh).
Proof.
  intros W H. unfold target_dimensions.
  destruct (Z.gtb_spec w h) as [G | G].
  - destruct (scaled_edge_total w h ltac:(lia) ltac:(lia)) as [t ->]. cbn. eauto.
  - destruct (scaled_edge_total h w ltac:(lia) ltac:(lia)) as [t ->]. cbn. eauto.
Qed.

Lemma target_bitrate_total d : pow2 (-1003) <= d ->
  exists b, target_bitrate (Fnum d) SAFE_BITRATE_FACTOR = Ok b.
Proof.
  intros H. assert (P := pow2_pos (-1003)). assert (D0 : 0 < d) by lra.
  rewrite (target_bitrate_unfold d D0).
  set (X := SAFE_BITS / d).
  assert (X0 : 0 <= X) by (apply Qle_shift_div_l; [assumption | unfold SAFE_BITS; lra]).
  assert (E : 3 * pow2 1022 * pow2 (-1003) == SAFE_BITS).
  { rewrite <- Qmult_assoc, <- pow2_add. reflexivity. }
  assert (P2 := pow2_pos 1022).
  assert (XU : X <= inject_Z 3 * pow2 1022).
  { apply Qle_shift_div_r; [assumption |]. change (inject_Z 3) with 3.
    assert (M : 3 * pow2 1022 * pow2 (-1003) <= 3 * pow2 1022 * d).
    { rewrite !(Qmult_comm (3 * pow2 1022)). apply Qmult_le_compat_r; lra. }
    lra. }
  assert (D : dyadic (inject_Z 3 * pow2 1022) 3 1022) by (split; [reflexivity | lia]).
  assert (B : inject_Z 3 * pow2 1022 < pow2 1024).
  { change 1024%Z with (2 + 1022)%Z. rewrite pow2_add. change (pow2 2) with 4.
    change (inject_Z 3) with 3. lra. }
  rewrite (fl_bounded X _ _ _ X0 XU D B).
  cbn [float_div]. replace (Qzero 1000) with false by reflexivity. cbn [rbind].
  assert (R0 := rnd_nonneg X X0). assert (RU := rnd_le_dyadic X _ _ _ X0 XU D).
  assert (E2 : rnd X / 1000 * 1000 == rnd X) by field.
  assert (Y0 : 0 <= rnd X / 1000) by (apply Qle_shift_div_l; lra).
  assert (YU : rnd X / 1000 <= inject_Z 3 * pow2 1022) by lra.
  rewrite (fl_bounded _ _ _ _ Y0 YU D B). cbn [int_of_float rbind]. eauto.
Qed.

Lemma target_bitrate_zero d f : d == 0 ->
  target_bitrate (Fnum d) f = Raise ZeroDivisionError.
Proof.
  intros H. unfold target_bitrate.
  change (float_of_int (MAX_SIZE_KB * 1024 * 8)) with (float_of_int 2097152).
  replace (float_of_int 2097152) with (Ok (Fnum 2097152)) by (vm_compute; reflexivity).
  cbn [rbind]. unfold float_div.
  assert (Z : Qzero d = true) by (apply Qeq_bool_iff; assumption).
  rewrite Z. reflexivity.
Qed.

Lemma target_bitrate_floor d f b : target_bitrate d f = Ok b -> (10 <= b)%Z.
Proof.
  unfold target_bitrate. intros H.
  repeat (apply rbind_Ok in H; destruct H as (? & _ & H)).
  inversion H. rewrite hard_floor_max. lia.
Qed.

Lemma calculate_target_details_Ok d w h f nw nh b :
  calculate_target_details d w h f = Ok (nw, nh, b) ->
  target_dimensions w h = Ok (nw, nh) /\
  target_bitrate d (match f with None => SAFE_BITRATE_FACTOR | Some x => x end) = Ok b.
Proof.
  unfold calculate_target_details. intros H.
  apply rbind_Ok in H. destruct H as ([nw' nh'] & D & H).
  apply rbind_Ok in H. destruct H as (b' & T & H).
  inversion H; subst. split; assumption.
Qed.

Lemma reduce_bitrate_floor_bound b b' : reduce_bitrate b = Ok b' -> (10 <= b')%Z.
Proof.
  unfold reduce_bitrate. intros H.
  repeat (apply rbind_Ok in H; destruct H as (? & _ & H)).
  inversion H. rewrite hard_floor_max. lia.
Qed.

(** the scaled edge is the exact quotient rounded down, or one less *)
Lemma scaled_edge_near l s t : (0 < s <= l)%Z -> (l <= 2 ^ 31)%Z ->
  scaled_edge l s = Ok t -> (512 * s / l - 1 <= t <= 512 * s / l)%Z.
Proof.
  intros H Hl E. destruct (scaled_edge_Ok l s t H E) as [_ ->].
  set (n := (512 * s / l)%Z).
  assert (Hn : (l * n <= 512 * s <= l * n + l - 1)%Z).
  { unfold n. assert (M := Z.div_mod (512 * s) l ltac:(lia)).
    assert (M2 := Z.mod_pos_bound (512 * s) l ltac:(lia)). lia. }
  assert (N0 : (0 <= n <= 512)%Z).
  { split; [apply Z.div_pos; lia |]. apply Z.div_le_upper_bound; lia. }
  assert (Is : 1 <= inject_Z s) by (change 1 with (inject_Z 1); rewrite <- Zle_Qle; lia).
  assert (Isl : inject_Z s <= inject_Z l) by (rewrite <- Zle_Qle; lia).
  assert (Il : inject_Z l <= 2147483648).
  { change 2147483648 with (inject_Z (2 ^ 31)). rewrite <- Zle_Qle. lia. }
  assert (In1 : inject_Z l * inject_Z n <= 512 * inject_Z s).
  { change 512 with (inject_Z 512). rewrite <- !inject_Z_mult, <- Zle_Qle. lia. }
  assert (In2 : 512 * inject_Z s <= inject_Z l * inject_Z n + inject_Z l - 1).
  { change 512 with (inject_Z 512). change 1 with (inject_Z 1).
    unfold Qminus. rewrite <- !inject_Z_mult, <- inject_Z_plus, <- inject_Z_opp,
      <- inject_Z_plus, <- Zle_Qle. lia. }
  assert (In0 : 0 <= inject_Z n <= 512).
  { change 0 with (inject_Z 0). change 512 with (inject_Z 512).
    rewrite <- !Zle_Qle. exact N0. }
  (* the two factors *)
  assert (Rs : rnd (inject_Z s) == inject_Z s).
  { apply rnd_dyadic with s 0%Z. apply dyadic_int. lia. }
  set (ratio := 512 / inject_Z l).
  assert (Er : ratio * inject_Z l == 512) by (unfold ratio; field; lra).
  assert (Inv : (1 # 2147483648) <= 1 / inject_Z l).
  { apply Qle_shift_div_l; lra. }
  assert (El : 1 / inject_Z l * inject_Z l == 1) by (field; lra).
  assert (Pr : pow2 (-1022) <= ratio).
  { apply Qle_trans with (pow2 (-22)); [apply pow2_le; lia |].
    change (pow2 (-22)) with (1 # 4194304).
    unfold ratio. apply Qle_shift_div_l; lra. }
  destruct (rnd_error ratio Pr) as [Lq Uq].
  change (pow2 (-53)) with (1 # 9007199254740992) in *.
  set (q := rnd ratio) in *. set (rs := rnd (inject_Z s)) in *.
  set (x := ratio * inject_Z s).
  assert (Xl : x * inject_Z l == 512 * inject_Z s).
  { unfold x, ratio. field. lra. }
  assert (X512 : x <= 512).
  { unfold x. apply Qle_trans with (ratio * inject_Z l); [| lra].
    rewrite !(Qmult_comm ratio). apply Qmult_le_compat_r; [assumption |].
    unfold ratio. apply Qle_shift_div_l; lra. }
  assert (Xn : inject_Z n <= x).
  { apply Qmult_le_r with (inject_Z l); lra. }
  assert (Xu : x <= inject_Z n + 1 - 1 / inject_Z l).
  { apply Qmult_le_r with (inject_Z l); [lra |].
    assert (F : (inject_Z n + 1 - 1 / inject_Z l) * inject_Z l
                == inject_Z l * inject_Z n + inject_Z l - 1) by (field; lra).
    lra. }
  assert (Yl : x * (1 - (1 # 9007199254740992)) <= q * rs).
  { rewrite Rs. unfold x. rewrite (Qmult_comm ratio (inject_Z s)), <- Qmult_assoc.
    rewrite (Qmult_comm q). rewrite !(Qmult_comm (inject_Z s)).
    apply Qmult_le_compat_r; lra. }
  assert (Yu : q * rs <= x * (1 + (1 # 9007199254740992))).
  { rewrite Rs. unfold x. rewrite (Qmult_comm ratio (inject_Z s)), <- Qmult_assoc.
    rewrite (Qmult_comm q). rewrite !(Qmult_comm (inject_Z s)).
    apply Qmult_le_compat_r; lra. }
  assert (Y0 : 0 <= q * rs) by lra.
  set (y := q * rs) in *. clearbody y. clear Lq Uq Rs.
  split.
  - (* at least n - 1 *)
    destruct (Z_le_gt_dec n 1) as [Small | Big].
    + assert (T := rnd_nonneg _ Y0). apply Qfloor_resp_le in T.
      change (Qfloor 0) with 0%Z in T. lia.
    + assert (D : dyadic (inject_Z (n - 1)) (n - 1) 0) by (apply dyadic_int; lia).
      assert (G : inject_Z (n - 1) <= y).
      { unfold Z.sub. rewrite inject_Z_plus, inject_Z_opp.
        change (inject_Z 1) with 1. lra. }
      assert (T := rnd_ge_dyadic _ _ _ _ G D). apply Qfloor_resp_le in T.
      rewrite Qfloor_Z in T. exact T.
  - (* at most n *)
    assert (D : dyadic (inject_Z n + 1 - (1 # 4294967296))
                  ((n + 1) * 4294967296 - 1) (-32)).
    { split; [| lia]. unfold Z.sub.
      rewrite inject_Z_plus, inject_Z_mult, inject_Z_plus, inject_Z_opp.
      change (pow2 (-32)) with (1 # 4294967296).
      change (inject_Z 4294967296) with 4294967296. change (inject_Z 1) with 1.
      field. }
    assert (G : y <= inject_Z n + 1 - (1 # 4294967296)) by lra.
    assert (T := rnd_le_dyadic _ _ _ _ Y0 G D).
    assert (F := Qfloor_le (rnd y)).
    assert (C : inject_Z (Qfloor (rnd y)) < inject_Z (n + 1)).
    { rewrite inject_Z_plus. change (inject_Z 1) with 1. lra. }
    rewrite <- Zlt_Qlt in C. lia.
Qed.

Lemma make_even_near n : (n - 1 <= make_even n <= n)%Z.
Proof.
  unfold make_even. destruct (Z.eqb_spec (n mod 2) 0); cbn [negb]; lia.
Qed.

(** the shorter edge keeps the aspect ratio up to the rounding to an even
    number *)
Lemma target_dimensions_proportional w h nw nh :
  (0 < w <= 2 ^ 31)%Z -> (0 < h <= 2 ^ 31)%Z ->
  target_dimensions w h = Ok (nw, nh) ->
  ((h < w -> 512 * h / w - 2 <= nh <= 512 * h / w) /\
   (w <= h -> 512 * w / h - 2 <= nw <= 512 * w / h))%Z.
Proof.
  intros W H. unfold target_dimensions.
  destruct (Z.gtb_spec w h) as [G | G]; intros E;
    apply rbind_Ok in E; destruct E as ([a b] & E & R);
    apply rbind_Ok in E; destruct E as (t & E & P);
    inversion P; subst a b; clear P; inversion R; subst nw nh; clear R;
    apply scaled_edge_near in E; try lia;
    assert (M := make_even_near t); split; intros; lia.
Qed.

End TargetFacts.

(** ** The fit loop *)

Module LoopFacts.

Import FloatFacts TargetFacts.

Lemma bind_emit {B} e (k : unit -> io B) :
  bind (emit e) k = (e :: fst (k tt), snd (k tt)).
Proof. unfold bind, emit. destruct (k tt). reflexivity. Qed.

Lemma bind_print {B} m (k : unit -> io B) :
  bind (print m) k = (Printed m :: fst (k tt), snd (k tt)).
Proof. apply bind_emit. Qed.

Lemma bind_lift_Ok {A B} (a : A) (k : A -> io B) : bind (lift (Ok a)) k = k a.
Proof. unfold bind, lift. destruct (k a). reflexivity. Qed.

Lemma bind_lift_Raise {A B} e (k : A -> io B) : bind (lift (Raise e)) k = ([], Raise e).
Proof. reflexivity. Qed.

Lemma bind_ret {A B} (a : A) (k : A -> io B) : bind (ret a) k = k a.
Proof. apply bind_lift_Ok. Qed.

Lemma bind_raise {A B} e (k : A -> io B) : bind (raise e) k = ([], Raise e).
Proof. reflexivity. Qed.

Lemma attempts_cons w f nw nh a rest b :
  iteration w f nw nh a rest b (attempts w f nw nh (a :: rest) b).
Proof.
  cbn [attempts]. rewrite bind_print, bind_emit.
  destruct (run_ffmpeg w f a b nw nh) as [[|] | bytes] eqn:E.
  - cbn [fst snd raise]. apply it_pass1. assumption.
  - rewrite bind_emit. cbn [fst snd raise]. apply it_pass2. assumption.
  - rewrite !bind_emit.
    destruct (int_truediv bytes 1024) as [sz | e] eqn:S.
    + rewrite bind_lift_Ok, bind_print.
      destruct (float_le_int sz MAX_SIZE_KB) eqn:L.
      * cbn [fst snd print emit]. eapply it_fits; eassumption.
      * destruct (Nat.ltb_spec a (max_attempts - 1)) as [Lt | Ge].
        -- rewrite bind_print.
           destruct (reduce_bitrate b) as [b' | e] eqn:R.
           ++ rewrite bind_lift_Ok. cbn [fst snd]. eapply it_reduce; eassumption.
           ++ rewrite bind_lift_Raise. cbn [fst snd]. eapply it_reduce_error; eassumption.
        -- rewrite bind_print. cbn [fst snd]. eapply it_last; eassumption.
    + rewrite bind_lift_Raise. cbn [fst snd]. eapply it_size_error; eassumption.
Qed.

Section Loop.
Variable w : world.
Variable ffmpeg_path : string.
Variables new_w new_h : Z.

Let run := attempts w ffmpeg_path new_w new_h.

Lemma attempts_rect_runs (P : list nat -> Z -> io unit -> Prop) :
  (forall b, P [] b (ret tt)) ->
  (forall a rest b r,
      iteration w ffmpeg_path new_w new_h a rest b r ->
      (forall b', P rest b' (run rest b')) -> P (a :: rest) b r) ->
  forall rng b, P rng b (run rng b).
Proof.
  intros H0 HS rng. induction rng as [| a rest IH]; intros b.
  - apply H0.
  - apply HS; [apply attempts_cons | exact IH].
Qed.

(** at most one iteration per index, at least one when there is an index *)
Lemma iterations_bounds rng b :
  (iterations (fst (run rng b)) <= List.length rng)%nat /\
  (rng <> [] -> 1 <= iterations (fst (run rng b)))%nat.
Proof.
  revert rng b.
  apply (attempts_rect_runs (fun rng b r =>
    (iterations (fst r) <= List.length rng)%nat /\
    (rng <> [] -> 1 <= iterations (fst r))%nat)).
  - intros b. cbn. split; [lia | congruence].
  - intros a rest b r It IH. unfold iterations, encode_bitrates, run in *.
    destruct It; cbn [fst snd flat_map app List.length];
      try (pose proof (IH b)); try (pose proof (IH b'));
      split; intros; lia.
Qed.

(** one measured size per completed iteration *)
Lemma results_per_iteration rng b :
  (List.length (measured_sizes (fst (run rng b))) <= iterations (fst (run rng b)))%nat /\
  (snd (run rng b) = Ok tt ->
   List.length (measured_sizes (fst (run rng b))) = iterations (fst (run rng b))).
Proof.
  revert rng b.
  apply (attempts_rect_runs (fun rng b r =>
    (List.length (measured_sizes (fst r)) <= iterations (fst r))%nat /\
    (snd r = Ok tt -> List.length (measured_sizes (fst r)) = iterations (fst r)))).
  - intros b. cbn. split; [lia | reflexivity].
  - intros a rest b r It IH.
    unfold iterations, encode_bitrates, measured_sizes, run in *.
    destruct It; cbn [fst snd flat_map app List.length];
      try (pose proof (IH b)); try (pose proof (IH b'));
      split; intros; try discriminate; try lia; intuition lia.
Qed.

Lemma stops_nil : stops_after_fit [].
Proof. intros [| e l1] sz l2 H; discriminate. Qed.

Lemma stops_cons e log :
  (forall sz, e = Printed (MsgResult sz) ->
              float_le_int sz MAX_SIZE_KB = true -> log = [Printed MsgSuccess]) ->
  stops_after_fit log -> stops_after_fit (e :: log).
Proof.
  intros He Hl [| e' l1] sz l2 H F.
  - cbn in H. inversion H. subst. apply (He sz); [reflexivity | assumption].
  - cbn in H. inversion H. subst. eapply Hl; [reflexivity | assumption].
Qed.

Lemma stops_at_first_fit rng b : stops_after_fit (fst (run rng b)).
Proof.
  revert rng b.
  apply (attempts_rect_runs (fun rng b r => stops_after_fit (fst r))).
  - intros b. apply stops_nil.
  - intros a rest b r It IH. unfold run in *.
    destruct It; cbn [fst snd app];
      repeat (apply stops_cons;
              [ intros sz' E F; inversion E; subst; try reflexivity; congruence | ]);
      try apply stops_nil; try apply IH.
Qed.

(** every attempt encodes at a bitrate that is at least the floor *)
Lemma bitrates_at_least_floor rng b x : 10 <= b ->
  In x (encode_bitrates (fst (run rng b))) -> 10 <= x.
Proof.
  revert rng b x.
  apply (attempts_rect_runs (fun rng b r =>
    forall x, 10 <= b -> In x (encode_bitrates (fst r)) -> 10 <= x)).
  - intros b x _ [].
  - intros a rest b r It IH x Hb. unfold encode_bitrates, run in *.
    destruct It; cbn [fst snd flat_map app In]; intros [E | I]; try lia;
      try contradiction.
    + apply (IH b'); [| assumption].
      match goal with
      | R : reduce_bitrate _ = Ok _ |- _ =>
          unfold reduce_bitrate in R;
          apply rbind_Ok in R; destruct R as (? & _ & R);
          apply rbind_Ok in R; destruct R as (? & _ & R);
          inversion R
      end.
      rewrite hard_floor_max. lia.
    + apply (IH b); assumption.
Qed.

(** the bitrate of attempt [k] is [k] reduction steps below the first *)
Lemma bitrate_of_attempt n : forall i b k bk,
  (i + n <= max_attempts)%nat -> 10 <= b <= 2 ^ 50 ->
  nth_error (encode_bitrates (fst (run (seq i n) b))) k = Some bk ->
  bk = Nat.iter k reduction_step b.
Proof.
  induction n as [| n IH]; intros i b k bk Hi Hb.
  - cbn. destruct k; discriminate.
  - cbn [seq]. unfold run in *.
    generalize (attempts_cons w ffmpeg_path new_w new_h i (seq (S i) n) b).
    generalize (attempts w ffmpeg_path new_w new_h (i :: seq (S i) n) b).
    intros r It. unfold encode_bitrates in *.
    destruct It; cbn [fst snd flat_map app];
      destruct k as [| k]; cbn [nth_error Nat.iter];
      try (intros E; inversion E; reflexivity);
      try (destruct k; discriminate).
    + (* reduced, then the remaining attempts *)
      intros E.
      assert (Eb : b' = Z.max 10 (4 * b / 5)).
      { match goal with
        | R : reduce_bitrate _ = Ok _ |- _ =>
            rewrite reduce_bitrate_floor in R by lia; congruence
        end. }
      subst b'. apply IH in E.
      * rewrite E. fold (reduction_step b).
        change (reduction_step (Nat.iter k reduction_step b))
          with (Nat.iter (S k) reduction_step b).
        rewrite Nat.iter_succ_r. reflexivity.
      * unfold max_attempts in *. lia.
      * assert (4 * b / 5 <= b) by (apply Z.div_le_upper_bound; lia). lia.
    + (* the last index: nothing follows *)
      unfold max_attempts in *. assert (n = 0%nat) by lia. subst n.
      cbn. destruct k; discriminate.
Qed.
End Loop.

Lemma measured_fits bytes : 0 <= bytes <= 262144 ->
  exists sz, int_truediv bytes 1024 = Ok sz /\ float_le_int sz MAX_SIZE_KB = true.
Proof.
  intros H. unfold int_truediv. cbn [Z.eqb].
  assert (I : (0 <= inject_Z bytes <= 262144)%Q).
  { change 0%Q with (inject_Z 0). change 262144%Q with (inject_Z 262144).
    rewrite <- !Zle_Qle. assumption. }
  change (inject_Z 1024) with 1024%Q.
  set (x := (inject_Z bytes / 1024)%Q).
  assert (E : (x * 1024 == inject_Z bytes)%Q) by (unfold x; field).
  assert (L : (inject_Z 0 <= x)%Q) by (change (inject_Z 0) with 0%Q; lra).
  assert (U : (x <= inject_Z 256)%Q) by (change (inject_Z 256) with 256%Q; lra).
  rewrite (fl_between_ints x 0 256) by (assumption || lia).
  eexists. split; [reflexivity |].
  cbn [float_le_int]. apply Qle_bool_iff.
  apply (rnd_between_ints x 0 256); assumption || lia.
Qed.

Lemma measured_oversize bytes : 262144 < bytes < 2 ^ 1000 ->
  exists sz, int_truediv bytes 1024 = Ok sz /\ float_le_int sz MAX_SIZE_KB = false.
Proof.
  intros H. unfold int_truediv. cbn [Z.eqb].
  assert (I : (262145 <= inject_Z bytes)%Q).
  { change 262145%Q with (inject_Z 262145). rewrite <- Zle_Qle. lia. }
  assert (J : (inject_Z bytes <= pow2 1000)%Q).
  { rewrite (pow2_Z 1000) by lia. rewrite <- Zle_Qle. lia. }
  change (inject_Z 1024) with 1024%Q.
  set (x := (inject_Z bytes / 1024)%Q).
  assert (E : (x * 1024 == inject_Z bytes)%Q) by (unfold x; field).
  assert (L : (262145 # 1024 <= x)%Q) by lra.
  assert (P := pow2_pos 1000).
  assert (U : (x <= pow2 1000)%Q) by lra.
  rewrite (fl_bounded x (pow2 1000) 1 1000); [| lra | assumption | apply dyadic_pow2; lia
                                              | apply pow2_lt; lia].
  eexists. split; [reflexivity |].
  cbn [float_le_int].
  destruct (Qle_bool (rnd x) (inject_Z MAX_SIZE_KB)) eqn:C; [| reflexivity].
  apply Qle_bool_iff in C. change (inject_Z MAX_SIZE_KB) with 256%Q in C.
  assert (D : dyadic (262145 # 1024) 262145 (-10)) by (split; [reflexivity | lia]).
  assert (G := rnd_ge_dyadic x _ _ _ L D). lra.
Qed.

Lemma reduce_bitrate_total b : 0 <= b < 2 ^ 1000 ->
  exists b', reduce_bitrate b = Ok b' /\ 10 <= b' <= Z.max 10 b.
Proof.
  intros H.
  destruct (Z_le_gt_dec b 10) as [Small | Big].
  - rewrite reduce_bitrate_floor by lia. eexists. split; [reflexivity |].
    assert (4 * b / 5 <= b) by (apply Z.div_le_upper_bound; lia). lia.
  - assert (T : exists b', reduce_bitrate b = Ok b').
    { unfold reduce_bitrate. rewrite float_of_int_total by lia. cbn [rbind].
      rewrite REDUCTION_value. cbn [float_mul].
      set (c := (3602879701896397 # 4503599627370496)%Q).
      assert (B0 : (0 <= inject_Z b)%Q)
        by (change 0%Q with (inject_Z 0); rewrite <- Zle_Qle; lia).
      assert (BU : (inject_Z b <= pow2 1000)%Q).
      { rewrite (pow2_Z 1000) by lia. rewrite <- Zle_Qle. lia. }
      assert (D : dyadic (pow2 1000) 1 1000) by (apply dyadic_pow2; lia).
      assert (R0 := rnd_nonneg _ B0). assert (RU := rnd_le_dyadic _ _ _ _ B0 BU D).
      rewrite (fl_bounded (rnd (inject_Z b) * c)%Q (pow2 1000) 1 1000);
        [| unfold c; lra | unfold c; lra | assumption | apply pow2_lt; lia].
      cbn [int_of_float rbind]. eauto. }
    destruct T as [b' T]. exists b'. split; [assumption |].
    assert (L := reduce_bitrate_lt b b' ltac:(lia) T).
    assert (F := reduce_bitrate_floor_bound b b' T). lia.
Qed.

Section Completes.
Variable w : world.
Variable ffmpeg_path : string.
Variables new_w new_h : Z.

Lemma attempts_completes rng b :
  encoder_succeeds w ffmpeg_path new_w new_h -> 0 <= b < 2 ^ 1000 ->
  snd (attempts w ffmpeg_path new_w new_h rng b) = Ok tt.
Proof.
  intros Enc. revert rng b.
  apply (attempts_rect_runs w ffmpeg_path new_w new_h
           (fun rng b r => 0 <= b < 2 ^ 1000 -> snd r = Ok tt)).
  - reflexivity.
  - intros a rest b r It IH Hb.
    destruct (Enc a b) as (bytes0 & E0 & B0).
    assert (M : exists sz, int_truediv bytes0 1024 = Ok sz).
    { destruct (Z_le_gt_dec bytes0 262144).
      - destruct (measured_fits bytes0 ltac:(lia)) as (sz & S & _). eauto.
      - destruct (measured_oversize bytes0 ltac:(lia)) as (sz & S & _). eauto. }
    destruct M as (sz0 & M).
    destruct (reduce_bitrate_total b Hb) as (b0 & R0 & Rb).
    destruct It; cbn [fst snd]; try congruence.
    + apply IH. assert (b' = b0) by congruence. subst. lia.
    + apply IH. assumption.
Qed.
End Completes.

Lemma attempts_oversize_reduce w f nw nh a rest b :
  (a < max_attempts - 1)%nat ->
  oversize (run_ffmpeg w f a b nw nh) -> 10 <= b <= 2 ^ 50 ->
  encode_bitrates (fst (attempts w f nw nh (a :: rest) b))
  = b :: encode_bitrates (fst (attempts w f nw nh rest (reduction_step b))).
Proof.
  intros Ha (bytes0 & sz0 & E & S & L) Hb.
  assert (R := reduce_bitrate_floor b ltac:(lia)).
  generalize (attempts_cons w f nw nh a rest b).
  generalize (attempts w f nw nh (a :: rest) b).
  intros r It. unfold encode_bitrates.
  destruct It; cbn [fst snd flat_map app]; try congruence; try lia.
  assert (b' = reduction_step b) by (unfold reduction_step; congruence).
  subst b'. reflexivity.
Qed.

Lemma attempts_oversize_last w f nw nh a rest b :
  (max_attempts - 1 <= a)%nat ->
  oversize (run_ffmpeg w f a b nw nh) ->
  encode_bitrates (fst (attempts w f nw nh (a :: rest) b))
  = b :: encode_bitrates (fst (attempts w f nw nh rest b)).
Proof.
  intros Ha (bytes0 & sz0 & E & S & L).
  generalize (attempts_cons w f nw nh a rest b).
  generalize (attempts w f nw nh (a :: rest) b).
  intros r It. unfold encode_bitrates.
  destruct It; cbn [fst snd flat_map app]; try congruence; lia.
Qed.

Lemma reduction_step_bounds b : 10 <= b <= 2 ^ 50 ->
  10 <= reduction_step b <= 2 ^ 50.
Proof.
  intros H. unfold reduction_step.
  assert (4 * b / 5 <= b) by (apply Z.div_le_upper_bound; lia). lia.
Qed.

End LoopFacts.

(** ** The prober and the command line *)

Module ProberFacts.

Import FloatFacts TargetFacts LoopFacts.

Lemma rbind_exception {A B} (r : result A) (f : A -> result B) :
  raises_exception r -> (forall a, raises_exception (f a)) -> raises_exception (rbind r f).
Proof. destruct r; cbn; auto. Qed.

Lemma subscript_exception v k : raises_exception (subscript v k).
Proof. destruct v; cbn; auto. destruct (lookup k kv); cbn; auto. Qed.

Lemma dict_get_exception v k d : raises_exception (dict_get v k d).
Proof. destruct v; cbn; auto. destruct (lookup k kv); cbn; auto. Qed.

Lemma float_of_int_exception n : raises_exception (float_of_int n).
Proof. unfold float_of_int. destruct (fl (inject_Z n)); cbn; auto. Qed.

Lemma py_float_exception w v : raises_exception (py_float w v).
Proof.
  destruct v; cbn; auto using float_of_int_exception.
  destruct (float_of_str w s); cbn; auto.
Qed.

Lemma py_int_exception w v : raises_exception (py_int w v).
Proof.
  destruct v; cbn; auto.
  - destruct f; cbn; auto.
  - destruct (int_of_str w s); cbn; auto.
Qed.

Lemma iter_items_exception v : raises_exception (iter_items v).
Proof. destruct v; cbn; auto. Qed.

Lemma first_video_exception items : raises_exception (first_video items).
Proof.
  induction items as [| s rest IH]; cbn [first_video]; [cbn; auto |].
  apply rbind_exception; [apply subscript_exception |].
  intros c. destruct (is_video c); [cbn; auto | assumption].
Qed.

Lemma video_info_of_exception w data : raises_exception (video_info_of w data).
Proof.
  unfold video_info_of.
  repeat (apply rbind_exception;
          [ first [ apply subscript_exception | apply dict_get_exception
                  | apply py_float_exception | apply py_int_exception
                  | apply iter_items_exception | apply first_video_exception ]
          | intros ? ]).
  match goal with |- raises_exception (match ?x with _ => _ end) => destruct x end;
    [| cbn; auto].
  repeat (apply rbind_exception;
          [ first [ apply subscript_exception | apply py_int_exception ] | intros ? ]).
  cbn. auto.
Qed.

Lemma get_video_info_Ok w p f data r :
  run_ffprobe w p f = Ok data -> video_info_of w data = Ok r ->
  get_video_info w p f = ([Ffprobe f], Ok r).
Proof.
  intros R V. unfold get_video_info. rewrite bind_emit, R, bind_lift_Ok, V. reflexivity.
Qed.

Lemma get_video_info_Raise w p f data e :
  run_ffprobe w p f = Ok data -> video_info_of w data = Raise e ->
  get_video_info w p f = ([Ffprobe f; Printed (MsgErrorAnalyzing e)], Raise (SystemExit 1)).
Proof.
  intros R V. unfold get_video_info. rewrite bind_emit, R, bind_lift_Ok, V.
  assert (X := video_info_of_exception w data). rewrite V in X.
  destruct e; cbn in X; try contradiction; reflexivity.
Qed.

(** the prober leaves no encode event behind *)
Lemma get_video_info_no_encode w p f :
  encode_bitrates (fst (get_video_info w p f)) = [].
Proof.
  unfold get_video_info. rewrite bind_emit.
  destruct (run_ffprobe w p f) as [data | e].
  - rewrite bind_lift_Ok. destruct (video_info_of w data) as [r | e]; [reflexivity |].
    destruct e; reflexivity.
  - rewrite bind_lift_Raise. destruct e; reflexivity.
Qed.

Lemma no_usable_video_fails w data : no_usable_video data ->
  exists e, video_info_of w data = Raise e.
Proof.
  unfold no_usable_video, video_stream_of, video_info_of.
  intros H.
  destruct (subscript data "format") as [fmt | e]; [| now eexists]. cbn [rbind].
  destruct (dict_get fmt "duration" (JInt 0)) as [d | e]; [| now eexists]. cbn [rbind].
  destruct (py_float w d) as [duration | e]; [| now eexists]. cbn [rbind].
  destruct (subscript data "streams") as [streams | e]; [| now eexists]. cbn [rbind] in *.
  destruct (iter_items streams) as [items | e]; [| now eexists]. cbn [rbind] in *.
  destruct H as [H | (vs & H & K)]; rewrite H; cbn [rbind]; cbv iota; [now eexists |].
  destruct K as [K | K].
  - rewrite K. now eexists.
  - destruct (subscript vs "width") as [wv | e]; [| now eexists]. cbn [rbind].
    destruct (py_int w wv) as [width | e]; [| now eexists]. cbn [rbind].
    rewrite K. now eexists.
Qed.

Lemma main_with_file w ffmpeg prog file rest :
  found (find_tool w "ffmpeg") = Some ffmpeg ->
  argv w = prog :: file :: rest ->
  main w = (Printed MsgBanner ::
              fst (if negb (path_exists w file) then print MsgFileNotFound
                   else compress_video w ffmpeg file),
            snd (if negb (path_exists w file) then print MsgFileNotFound
                 else compress_video w ffmpeg file)).
Proof.
  intros F A. unfold main. rewrite bind_print, F, A, bind_ret. reflexivity.
Qed.

Lemma compress_video_probe_fails w ffmpeg ffprobe file e :
  found (find_tool w "ffprobe") = Some ffprobe ->
  get_video_info w ffprobe file =
    ([Ffprobe file; Printed (MsgErrorAnalyzing e)], Raise (SystemExit 1)) ->
  compress_video w ffmpeg file =
    ([Printed MsgAnalyzing; Ffprobe file; Printed (MsgErrorAnalyzing e)], Raise (SystemExit 1)).
Proof.
  intros F G. unfold compress_video. rewrite F, bind_print, G. reflexivity.
Qed.

Lemma fst_bind {A B} (m : io A) (k : A -> io B) :
  fst (bind m k) = fst m ++ match snd m with Ok a => fst (k a) | Raise _ => [] end.
Proof.
  destruct m as [l [a | e]]; cbn [bind fst snd].
  - destruct (k a). reflexivity.
  - rewrite app_nil_r. reflexivity.
Qed.

Lemma encode_bitrates_app l1 l2 :
  encode_bitrates (l1 ++ l2) = encode_bitrates l1 ++ encode_bitrates l2.
Proof. apply flat_map_app. Qed.

Lemma compress_video_bitrates w ffmpeg input x :
  In x (encode_bitrates (fst (compress_video w ffmpeg input))) -> 10 <= x.
Proof.
  unfold compress_video.
  destruct (found (find_tool w "ffprobe")) as [ffprobe |]; [| intros []].
  rewrite bind_print. cbn [fst]. change (encode_bitrates (Printed MsgAnalyzing :: ?l))
    with (encode_bitrates l).
  rewrite fst_bind, encode_bitrates_app, get_video_info_no_encode. cbn [app].
  destruct (snd (get_video_info w ffprobe input)) as [[[d wd] ht] | e]; [| intros []].
  destruct (calculate_target_details d wd ht None) as [[[nw nh] b] | e] eqn:C.
  - rewrite bind_lift_Ok, !bind_print. cbn [fst].
    change (encode_bitrates (Printed ?a :: Printed ?b :: Printed ?c :: ?l))
      with (encode_bitrates l).
    rewrite fst_bind, encode_bitrates_app.
    intros I. apply in_app_or in I. destruct I as [I | I].
    + apply bitrates_at_least_floor in I; [assumption |].
      apply calculate_target_details_Ok in C. destruct C as [_ C].
      apply target_bitrate_floor in C. assumption.
    + destruct (snd (attempts w ffmpeg nw nh (seq 0 max_attempts) b)); destruct I.
  - rewrite bind_lift_Raise. intros [].
Qed.

(** without ffmpeg the process exits with status 1, whatever the prompt
    reads *)
Lemma main_without_ffmpeg w : found (find_tool w "ffmpeg") = None ->
  exit_status (main w) = 1 /\ printed (main w) is_no_ffmpeg = true /\
  iterations (fst (main w)) = 0%nat.
Proof.
  intros H. unfold main. rewrite bind_print, H, !bind_print.
  unfold input_line. rewrite bind_emit.
  destruct (stdin_line w) as [s |]; repeat split; reflexivity.
Qed.

(** with ffmpeg found and the file absent the process returns normally *)
Lemma main_without_file w ffmpeg prog file rest :
  found (find_tool w "ffmpeg") = Some ffmpeg ->
  argv w = prog :: file :: rest ->
  path_exists w file = false ->
  main w = ([Printed MsgBanner; Printed MsgFileNotFound], Ok tt).
Proof.
  intros F A P. rewrite (main_with_file w ffmpeg prog file rest F A), P. reflexivity.
Qed.

(** without ffprobe compress_video returns normally *)
Lemma compress_video_without_ffprobe w ffmpeg file :
  found (find_tool w "ffprobe") = None ->
  compress_video w ffmpeg file = ([Printed MsgNoFfprobe], Ok tt).
Proof. intros F. unfold compress_video. rewrite F. reflexivity. Qed.

(** three oversize attempts end in a warning and a normal return *)
Example exhausted_run_warns_and_succeeds :
  iterations (fst (main always_oversize)) = 3%nat /\
  printed (main always_oversize) is_warning = true /\
  exit_status (main always_oversize) = 0.
Proof. repeat split; vm_compute; reflexivity. Qed.

End ProberFacts.

(** ** Agreement with the Standard Library's binary64

    The rounding above is checked against [SpecFloat] on the values the
    scenarios go through: the literal 0.80, a reduction, a scaled edge, a
    bitrate, an overflow and a subnormal quotient. *)

Module Agreement.

Example literal_080 :
  same_float (of_spec_float (sf_div (sf_int 80) (sf_int 100))) REDUCTION = true.
Proof. vm_compute. reflexivity. Qed.

Example reduction_of_102 :
  same_float (of_spec_float (sf_mul (sf_int 102) (sf_div (sf_int 80) (sf_int 100))))
             (float_mul (Fnum 102) REDUCTION) = true.
Proof. vm_compute. reflexivity. Qed.

Example scaled_edge_of_49 :
  same_float (of_spec_float (sf_mul (sf_div (sf_int 512) (sf_int 49)) (sf_int 49)))
             (float_mul (fl (512 / 49)) (Fnum 49)) = true.
Proof. vm_compute. reflexivity. Qed.

Example bitrate_of_5s :
  same_float (of_spec_float (sf_div (sf_div (sf_int 1572864) (sf_int 5)) (sf_int 1000)))
             (fl (rnd (1572864 / 5) / 1000)) = true.
Proof. vm_compute. reflexivity. Qed.

Example overflow_of_tiny :
  same_float (of_spec_float (sf_div (sf_int 1572864) (S754_finite false 1 (-1074))))
             (fl (1572864 / tiny)) = true.
Proof. vm_compute. reflexivity. Qed.

Example subnormal_quotient :
  same_float (of_spec_float (sf_div (S754_finite false 5 (-1074)) (sf_int 3)))
             (fl (5 * tiny / 3)) = true.
Proof. vm_compute. reflexivity. Qed.

End Agreement.

(** * The claims *)

Import FloatFacts TargetFacts LoopFacts ProberFacts.

(** ** C1: the reduction law *)

(** C1 as stated fails: from 102 kbps, after two oversize results the loop
    encodes at 64 kbps, where floor(102 x 0.80^2) is 65. *)
Lemma reduction_law_fails_at_102 :
  nth_error (encode_bitrates
               (fst (attempts always_oversize "ffmpeg" 512 288
                       (seq 0 max_attempts) 102))) 2 = Some 64 /\
  reduction_law 102 2 = 65 /\
  nth_error (encode_bitrates
               (fst (attempts always_oversize "ffmpeg" 512 288
                       (seq 0 max_attempts) 102))) 2
    <> Some (reduction_law 102 2).
Proof.
  split; [vm_compute; reflexivity |].
  split; [vm_compute; reflexivity |].
  vm_compute. discriminate.
Qed.

(** C1, amended: for every initial bitrate B with 10 <= B <= 2^50, the
    bitrate of attempt k+1 of the fit loop is k reduction steps below B,
    each step taking four fifths rounded down and not below the floor of
    10 kbps; when every measured size is oversize the three attempts run
    at B, step B and step (step B). *)
Theorem bitrate_after_oversize_results (w : world) (ffmpeg_path : string)
    (new_w new_h B : Z) :
  10 <= B <= 2 ^ 50 ->
  (forall k bk,
      nth_error (encode_bitrates
                   (fst (attempts w ffmpeg_path new_w new_h
                           (seq 0 max_attempts) B))) k = Some bk ->
      bk = Nat.iter k reduction_step B) /\
  ((forall i b, oversize (run_ffmpeg w ffmpeg_path i b new_w new_h)) ->
   encode_bitrates (fst (attempts w ffmpeg_path new_w new_h
                           (seq 0 max_attempts) B))
   = [B; reduction_step B; reduction_step (reduction_step B)]).
Proof.
  intros HB. split.
  - intros k bk H.
    apply (bitrate_of_attempt w ffmpeg_path new_w new_h max_attempts 0%nat B k bk);
      [reflexivity | assumption | assumption].
  - intros Over. unfold max_attempts. cbn [seq].
    assert (S1 := reduction_step_bounds B HB).
    assert (S2 := reduction_step_bounds _ S1).
    rewrite attempts_oversize_reduce by (unfold max_attempts; auto with zarith).
    rewrite attempts_oversize_reduce by (unfold max_attempts; auto with zarith).
    rewrite attempts_oversize_last by (unfold max_attempts; auto with zarith).
    reflexivity.
Qed.

Lemma bitrate_after_oversize_results_witness :
  10 <= 102 <= 2 ^ 50 /\
  nth_error (encode_bitrates
               (fst (attempts always_oversize "ffmpeg" 512 288
                       (seq 0 max_attempts) 102))) 2 = Some 64 /\
  64 = Nat.iter 2 reduction_step 102.
Proof.
  split; [lia |]. split; [vm_compute; reflexivity |].
  apply (proj1 (bitrate_after_oversize_results always_oversize "ffmpeg"
                  512 288 102 ltac:(lia)) 2%nat 64).
  vm_compute. reflexivity.
Defined.

(** ** C2: the number of iterations *)

(** C2: whatever the encoder does, the fit loop runs at least one and at
    most three encode iterations; it reports at most one measured size per
    iteration and exactly one when the run ends normally, which it does
    whenever every encode succeeds; and after the first measured size
    that fits nothing follows but the success message. *)
Theorem fit_loop_iterations (w : world) (ffmpeg_path : string)
    (new_w new_h b : Z) :
  (1 <= iterations (fst (attempts w ffmpeg_path new_w new_h
                           (seq 0 max_attempts) b)) <= max_attempts)%nat /\
  (List.length (measured_sizes (fst (attempts w ffmpeg_path new_w new_h
                                       (seq 0 max_attempts) b)))
   <= iterations (fst (attempts w ffmpeg_path new_w new_h
                         (seq 0 max_attempts) b)))%nat /\
  (snd (attempts w ffmpeg_path new_w new_h (seq 0 max_attempts) b) = Ok tt ->
   List.length (measured_sizes (fst (attempts w ffmpeg_path new_w new_h
                                       (seq 0 max_attempts) b)))
   = iterations (fst (attempts w ffmpeg_path new_w new_h
                        (seq 0 max_attempts) b))) /\
  (encoder_succeeds w ffmpeg_path new_w new_h -> 0 <= b < 2 ^ 1000 ->
   snd (attempts w ffmpeg_path new_w new_h (seq 0 max_attempts) b) = Ok tt) /\
  stops_after_fit (fst (attempts w ffmpeg_path new_w new_h
                          (seq 0 max_attempts) b)).
Proof.
  destruct (iterations_bounds w ffmpeg_path new_w new_h (seq 0 max_attempts) b)
    as [U L].
  destruct (results_per_iteration w ffmpeg_path new_w new_h (seq 0 max_attempts) b)
    as [R1 R2].
  rewrite length_seq in U.
  repeat split.
  - apply L. discriminate.
  - exact U.
  - exact R1.
  - exact R2.
  - apply attempts_completes.
  - apply stops_at_first_fit.
Qed.

Lemma fit_loop_iterations_witness :
  snd (attempts second_fits "ffmpeg" 512 288 (seq 0 max_attempts) 314) = Ok tt /\
  List.length (measured_sizes (fst (attempts second_fits "ffmpeg" 512 288
                                      (seq 0 max_attempts) 314)))
  = iterations (fst (attempts second_fits "ffmpeg" 512 288
                       (seq 0 max_attempts) 314)).
Proof.
  split; [vm_compute; reflexivity |].
  apply (proj1 (proj2 (proj2 (fit_loop_iterations second_fits "ffmpeg"
                                512 288 314)))).
  vm_compute. reflexivity.
Defined.

(** ** C3: the bitrate floor *)

(** C3: the bitrate is never below the floor of 10 kbps: neither the one
    the target calculator returns, for any duration, size and safety
    factor, nor the one a reduction returns, nor any bitrate a run of
    compress_video hands to the encoder. *)
Theorem bitrate_never_below_floor :
  (forall d w h f nw nh b,
      calculate_target_details d w h f = Ok (nw, nh, b) -> 10 <= b) /\
  (forall b b', reduce_bitrate b = Ok b' -> 10 <= b') /\
  (forall w ffmpeg_path input_path x,
      In x (encode_bitrates (fst (compress_video w ffmpeg_path input_path))) ->
      10 <= x).
Proof.
  split; [| split].
  - intros d w h f nw nh b H.
    apply calculate_target_details_Ok in H. destruct H as [_ H].
    apply target_bitrate_floor in H. exact H.
  - apply reduce_bitrate_floor_bound.
  - apply compress_video_bitrates.
Qed.

Lemma bitrate_never_below_floor_witness :
  calculate_target_details (Fnum 400) 1920 1080 None = Ok (512, 288, 10) /\
  10 <= 10.
Proof.
  split; [vm_compute; reflexivity |].
  apply (proj1 bitrate_never_below_floor (Fnum 400) 1920 1080 None 512 288 10).
  vm_compute. reflexivity.
Defined.

(** ** C4: the bitrate formula *)

(** C4 as stated fails: for the duration 142.98763636363637 s (a double)
    the calculator returns 11 kbps, where the formula in exact arithmetic
    gives floor(10.99999...) = 10; and for the duration 2^-1074 s it
    returns no bitrate at all. *)
Lemma bitrate_formula_fails_at_143s :
  literal (14298763636363637 # 100000000000000) = Fnum d143 /\
  calculate_target_details (Fnum d143) 1920 1080 None = Ok (512, 288, 11) /\
  spec_bitrate d143 = 10 /\
  calculate_target_details (Fnum tiny) 1920 1080 None = Raise OverflowError.
Proof. repeat split; vm_compute; reflexivity. Qed.

(** C4, amended: for every duration of at least a microsecond (and width
    and height the calculator accepts) the bitrate is the value of the
    formula -- 256 x 1024 x 8 bits times 0.75, divided by the duration,
    integer-divided by 1000, clamped up to 10 -- or that value plus one,
    the two divisions being rounded to binary64; for 5.0 s both are
    314 kbps. *)
Theorem bitrate_within_one_of_formula :
  (forall d w h,
      (1 # 1000000 <= d)%Q -> 0 < w < 2 ^ 1023 -> 0 < h < 2 ^ 1023 ->
      exists nw nh b,
        calculate_target_details (Fnum d) w h None = Ok (nw, nh, b) /\
        spec_bitrate d <= b <= spec_bitrate d + 1) /\
  calculate_target_details (Fnum 5) 1920 1080 None = Ok (512, 288, 314) /\
  spec_bitrate 5 = 314.
Proof.
  split; [| split; vm_compute; reflexivity].
  intros d w h Hd Hw Hh.
  destruct (target_dimensions_total w h Hw Hh) as (nw & nh & D).
  destruct (target_bitrate_near_spec d Hd) as (b & T & L & U).
  exists nw, nh, b. split.
  - unfold calculate_target_details. rewrite D. cbn [rbind]. rewrite T. reflexivity.
  - split; [exact L |].
    assert (E : Z.max 10 (Qfloor (SAFE_BITS / d / 1000) + 1) <= spec_bitrate d + 1).
    { unfold spec_bitrate.
      assert (Q : (inject_Z (MAX_SIZE_KB * 1024 * 8) * (75 # 100) / d / 1000
                   == SAFE_BITS / d / 1000)%Q).
      { unfold SAFE_BITS. change (inject_Z (MAX_SIZE_KB * 1024 * 8)) with 2097152%Q.
        field. lra. }
      rewrite (Qfloor_comp _ _ Q). lia. }
    lia.
Qed.

Lemma bitrate_within_one_of_formula_witness :
  (1 # 1000000 <= 5)%Q /\ 0 < 1920 < 2 ^ 1023 /\ 0 < 1080 < 2 ^ 1023 /\
  exists nw nh b,
    calculate_target_details (Fnum 5) 1920 1080 None = Ok (nw, nh, b) /\
    spec_bitrate 5 <= b <= spec_bitrate 5 + 1.
Proof.
  assert (Hd : (1 # 1000000 <= 5)%Q) by (vm_compute; discriminate).
  assert (Hw : 0 < 1920 < 2 ^ 1023) by lia.
  assert (Hh : 0 < 1080 < 2 ^ 1023) by lia.
  split; [exact Hd |]. split; [exact Hw |]. split; [exact Hh |].
  exact (proj1 bitrate_within_one_of_formula 5%Q 1920 1080 Hd Hw Hh).
Defined.

(** ** C5: the output dimensions *)

(** C5 as stated fails: a 49x49 square comes out as 510x512, not 512x512;
    a 1000x1 clip gets a height of 0, which is not positive; and 98x49
    gets a height of 254 where 512 x 49 / 98 is 256. *)
Lemma dimensions_fail_for_square_49 :
  calculate_target_details (Fnum 5) 49 49 None = Ok (510, 512, 314) /\
  calculate_target_details (Fnum 5) 1000 1 None = Ok (512, 0, 314) /\
  calculate_target_details (Fnum 5) 98 49 None = Ok (512, 254, 314) /\
  512 * 49 / 98 = 256.
Proof. repeat split; vm_compute; reflexivity. Qed.

(** C5, amended: for every positive width and height for which the
    calculator returns, the longer edge (the height when both are equal)
    becomes exactly 512, and both output dimensions are even integers
    between 0 and 512; for widths and heights up to 2^31 the other edge is
    floor(512 x shorter / longer) lowered by at most 2; a 1000x1000 square
    comes out as 512x512. *)
Theorem target_dimensions_even_and_bounded :
  (forall d w h f nw nh b,
      0 < w -> 0 < h ->
      calculate_target_details d w h f = Ok (nw, nh, b) ->
      nw mod 2 = 0 /\ nh mod 2 = 0 /\
      0 <= nw <= TARGET_DIMENSION /\ 0 <= nh <= TARGET_DIMENSION /\
      (h < w -> nw = TARGET_DIMENSION) /\ (w <= h -> nh = TARGET_DIMENSION)) /\
  (forall d w h f nw nh b,
      0 < w <= 2 ^ 31 -> 0 < h <= 2 ^ 31 ->
      calculate_target_details d w h f = Ok (nw, nh, b) ->
      (h < w -> TARGET_DIMENSION * h / w - 2 <= nh <= TARGET_DIMENSION * h / w) /\
      (w <= h -> TARGET_DIMENSION * w / h - 2 <= nw <= TARGET_DIMENSION * w / h)) /\
  calculate_target_details (Fnum 5) 1000 1000 None = Ok (512, 512, 314).
Proof.
  split; [| split; [| vm_compute; reflexivity]].
  - intros d w h f nw nh b Hw Hh H.
    apply calculate_target_details_Ok in H. destruct H as [H _].
    unfold TARGET_DIMENSION. apply (target_dimensions_spec w h nw nh Hw Hh H).
  - intros d w h f nw nh b Hw Hh H.
    apply calculate_target_details_Ok in H. destruct H as [H _].
    unfold TARGET_DIMENSION. apply (target_dimensions_proportional w h nw nh Hw Hh H).
Qed.

Lemma target_dimensions_even_and_bounded_witness :
  0 < 1920 /\ 0 < 1080 /\
  calculate_target_details (Fnum 5) 1920 1080 None = Ok (512, 288, 314) /\
  (512 mod 2 = 0 /\ 288 mod 2 = 0 /\
   0 <= 512 <= TARGET_DIMENSION /\ 0 <= 288 <= TARGET_DIMENSION /\
   (1080 < 1920 -> 512 = TARGET_DIMENSION) /\
   (1920 <= 1080 -> 288 = TARGET_DIMENSION)).
Proof.
  assert (Hw : 0 < 1920) by lia. assert (Hh : 0 < 1080) by lia.
  assert (E : calculate_target_details (Fnum 5) 1920 1080 None = Ok (512, 288, 314))
    by (vm_compute; reflexivity).
  split; [exact Hw |]. split; [exact Hh |]. split; [exact E |].
  exact (proj1 target_dimensions_even_and_bounded (Fnum 5) 1920 1080 None
           512 288 314 Hw Hh E).
Defined.

(** ** C6: each reduction lowers the bitrate *)

(** C6 as stated fails: at the floor a reduction changes nothing, 10 kbps
    stays 10 kbps, and a loop that starts there encodes three times at
    10 kbps. *)
Lemma reduction_keeps_floor_bitrate :
  reduce_bitrate 10 = Ok 10 /\
  encode_bitrates (fst (attempts always_oversize "ffmpeg" 512 288
                          (seq 0 max_attempts) 10)) = [10; 10; 10].
Proof. split; vm_compute; reflexivity. Qed.

(** C6, amended: every reduction of a bitrate above the floor of 10 kbps
    gives a strictly smaller bitrate, still at least 10; and below 2^1000
    the reduction always returns one. *)
Theorem reduction_decreases_above_floor :
  (forall b b', 11 <= b -> reduce_bitrate b = Ok b' -> 10 <= b' < b) /\
  (forall b, 11 <= b < 2 ^ 1000 -> exists b', reduce_bitrate b = Ok b').
Proof.
  split.
  - intros b b' Hb H. split.
    + apply (reduce_bitrate_floor_bound b b' H).
    + apply (reduce_bitrate_lt b b' Hb H).
  - intros b Hb. destruct (reduce_bitrate_total b ltac:(lia)) as (b' & H & _).
    exists b'. exact H.
Qed.

Lemma reduction_decreases_above_floor_witness :
  11 <= 314 /\ reduce_bitrate 314 = Ok 251 /\ 10 <= 251 < 314.
Proof.
  assert (Hb : 11 <= 314) by lia.
  assert (E : reduce_bitrate 314 = Ok 251) by (vm_compute; reflexivity).
  split; [exact Hb |]. split; [exact E |].
  exact (proj1 reduction_decreases_above_floor 314 251 Hb E).
Defined.

(** ** C7: the prober's failures *)

(** C7 as stated fails: a first video stream of width 0 is returned as it
    is and the process goes on to encode (at 0x512) and exits with status
    0; a missing duration is read as 0.0 and returned as well. *)
Lemma prober_accepts_zero_width_and_missing_duration :
  get_video_info zero_width "/usr/bin/ffprobe" "clip.mp4"
    = ([Ffprobe "clip.mp4"], Ok (Fnum 5, 0, 480)) /\
  encode_bitrates (fst (main zero_width)) = [314] /\
  exit_status (main zero_width) = 0 /\
  printed (main zero_width) is_error_analyzing = false /\
  get_video_info no_duration "/usr/bin/ffprobe" "clip.mp4"
    = ([Ffprobe "clip.mp4"], Ok (Fnum 0, 1920, 1080)).
Proof. repeat split; vm_compute; reflexivity. Qed.

(** C7, amended: whenever the probed data has no video stream, or its
    first video stream has no width or no height, the prober prints its
    diagnostic and exits with status 1, and so does the whole process,
    without a single encode; a missing duration is read as 0 and
    non-positive values are passed on as they are. *)
Theorem prober_failure_aborts (w : world) (ffmpeg ffprobe prog file : string)
    (rest : list string) (data : json) :
  found (find_tool w "ffmpeg") = Some ffmpeg ->
  argv w = prog :: file :: rest ->
  path_exists w file = true ->
  found (find_tool w "ffprobe") = Some ffprobe ->
  run_ffprobe w ffprobe file = Ok data ->
  no_usable_video data ->
  exists e,
    get_video_info w ffprobe file
      = ([Ffprobe file; Printed (MsgErrorAnalyzing e)], Raise (SystemExit 1)) /\
    main w = ([Printed MsgBanner; Printed MsgAnalyzing; Ffprobe file;
               Printed (MsgErrorAnalyzing e)], Raise (SystemExit 1)) /\
    exit_status (main w) = 1 /\
    iterations (fst (main w)) = 0%nat.
Proof.
  intros Fm A P Fp R N.
  destruct (no_usable_video_fails w data N) as [e V].
  exists e.
  assert (G := get_video_info_Raise w ffprobe file data e R V).
  assert (M : main w = ([Printed MsgBanner; Printed MsgAnalyzing; Ffprobe file;
                         Printed (MsgErrorAnalyzing e)], Raise (SystemExit 1))).
  { rewrite (main_with_file w ffmpeg prog file rest Fm A), P. cbn [negb].
    rewrite (compress_video_probe_fails w ffmpeg ffprobe file e Fp G).
    reflexivity. }
  split; [exact G |]. split; [exact M |]. rewrite M. split; reflexivity.
Qed.

Lemma prober_failure_aborts_witness :
  found (find_tool audio_only "ffmpeg") = Some "/usr/bin/ffmpeg"%string /\
  argv audio_only = ["sticker_maker.py"; "clip.mp4"]%string /\
  path_exists audio_only "clip.mp4" = true /\
  found (find_tool audio_only "ffprobe") = Some "/usr/bin/ffprobe"%string /\
  run_ffprobe audio_only "/usr/bin/ffprobe" "clip.mp4"
    = Ok (probe_of [("duration", JStr "5.000000")]%string [audio_stream]) /\
  no_usable_video (probe_of [("duration", JStr "5.000000")]%string [audio_stream]) /\
  exists e,
    get_video_info audio_only "/usr/bin/ffprobe" "clip.mp4"
      = ([Ffprobe "clip.mp4"; Printed (MsgErrorAnalyzing e)], Raise (SystemExit 1)) /\
    main audio_only = ([Printed MsgBanner; Printed MsgAnalyzing; Ffprobe "clip.mp4";
                        Printed (MsgErrorAnalyzing e)], Raise (SystemExit 1)) /\
    exit_status (main audio_only) = 1 /\
    iterations (fst (main audio_only)) = 0%nat.
Proof.
  assert (N : no_usable_video
                (probe_of [("duration", JStr "5.000000")]%string [audio_stream]))
    by (left; reflexivity).
  split; [reflexivity |]. split; [reflexivity |]. split; [reflexivity |].
  split; [reflexivity |]. split; [reflexivity |]. split; [exact N |].
  exact (prober_failure_aborts audio_only "/usr/bin/ffmpeg" "/usr/bin/ffprobe"
           "sticker_maker.py" "clip.mp4" [] _
           eq_refl eq_refl eq_refl eq_refl eq_refl N).
Defined.

(** ** C8: the exit status *)

(** C8 at its failing inputs: with ffmpeg found and the input file absent
    the process prints "Error: File not found." and ends with exit status
    0; with ffprobe not found it prints its error and ends with exit
    status 0 as well. *)
Theorem missing_file_and_missing_ffprobe_exit_with_success :
  main no_input_file = ([Printed MsgBanner; Printed MsgFileNotFound], Ok tt) /\
  exit_status (main no_input_file) = 0 /\
  main no_ffprobe = ([Printed MsgBanner; Printed MsgNoFfprobe], Ok tt) /\
  exit_status (main no_ffprobe) = 0.
Proof. repeat split; vm_compute; reflexivity. Qed.

(** ** C9: longer clips get a lower bitrate *)

(** C9: for all durations 0 < d1 <= d2 and the same width and height, the
    bitrate the target calculator returns for d1 is at least the one it
    returns for d2. *)
Theorem bitrate_monotone_in_duration (d1 d2 : Q) (w h : Z)
    (nw1 nh1 b1 nw2 nh2 b2 : Z) :
  (0 < d1)%Q -> (d1 <= d2)%Q ->
  calculate_target_details (Fnum d1) w h None = Ok (nw1, nh1, b1) ->
  calculate_target_details (Fnum d2) w h None = Ok (nw2, nh2, b2) ->
  b2 <= b1.
Proof.
  intros P L H1 H2.
  apply calculate_target_details_Ok in H1. destruct H1 as [_ H1].
  apply calculate_target_details_Ok in H2. destruct H2 as [_ H2].
  apply (target_bitrate_mono d1 d2 b1 b2 P L H1 H2).
Qed.

Lemma bitrate_monotone_in_duration_witness :
  (0 < 5)%Q /\ (5 <= 10)%Q /\
  calculate_target_details (Fnum 5) 1920 1080 None = Ok (512, 288, 314) /\
  calculate_target_details (Fnum 10) 1920 1080 None = Ok (512, 288, 157) /\
  157 <= 314.
Proof.
  assert (P : (0 < 5)%Q) by reflexivity.
  assert (L : (5 <= 10)%Q) by (vm_compute; discriminate).
  assert (E1 : calculate_target_details (Fnum 5) 1920 1080 None
               = Ok (512, 288, 314)) by (vm_compute; reflexivity).
  assert (E2 : calculate_target_details (Fnum 10) 1920 1080 None
               = Ok (512, 288, 157)) by (vm_compute; reflexivity).
  split; [exact P |]. split; [exact L |]. split; [exact E1 |]. split; [exact E2 |].
  exact (bitrate_monotone_in_duration 5 10 1920 1080 512 288 314 512 288 157
           P L E1 E2).
Defined.

(** ** C10: no error under the precondition *)

(** C10 as stated fails: the duration 2^-1074 (the smallest positive
    double) is positive, and with it the calculator raises OverflowError:
    the quotient by the duration overflows to infinity and int() refuses
    it. *)
Lemma tiny_duration_raises_overflow :
  (0 < tiny)%Q /\
  literal tiny = Fnum tiny /\
  calculate_target_details (Fnum tiny) 1920 1080 None = Raise OverflowError.
Proof. repeat split; vm_compute; reflexivity. Qed.

(** C10, amended: for every duration of at least 2^-1003 s and every
    positive width and height below 2^1023, calculate_target_details
    returns without any error; for a duration of zero it raises
    ZeroDivisionError, an arithmetic fault that no handler turns into an
    analysis error. *)
Theorem target_details_total_on_ordinary_input :
  (forall d w h,
      (pow2 (-1003) <= d)%Q -> 0 < w < 2 ^ 1023 -> 0 < h < 2 ^ 1023 ->
      exists nw nh b,
        calculate_target_details (Fnum d) w h None = Ok (nw, nh, b)) /\
  (forall w h,
      0 < w < 2 ^ 1023 -> 0 < h < 2 ^ 1023 ->
      calculate_target_details (Fnum 0) w h None = Raise ZeroDivisionError) /\
  main no_duration = ([Printed MsgBanner; Printed MsgAnalyzing; Ffprobe "clip.mp4"],
                      Raise ZeroDivisionError).
Proof.
  split; [| split].
  - intros d w h Hd Hw Hh.
    destruct (target_dimensions_total w h Hw Hh) as (nw & nh & D).
    destruct (target_bitrate_total d Hd) as (b & T).
    exists nw, nh, b.
    unfold calculate_target_details. rewrite D. cbn [rbind]. rewrite T. reflexivity.
  - intros w h Hw Hh.
    destruct (target_dimensions_total w h Hw Hh) as (nw & nh & D).
    unfold calculate_target_details. rewrite D. cbn [rbind].
    rewrite target_bitrate_zero by reflexivity. reflexivity.
  - vm_compute. reflexivity.
Qed.

Lemma target_details_total_on_ordinary_input_witness :
  (pow2 (-1003) <= 5)%Q /\ 0 < 1920 < 2 ^ 1023 /\ 0 < 1080 < 2 ^ 1023 /\
  exists nw nh b,
    calculate_target_details (Fnum 5) 1920 1080 None = Ok (nw, nh, b).
Proof.
  assert (Hd : (pow2 (-1003) <= 5)%Q) by (vm_compute; discriminate).
  assert (Hw : 0 < 1920 < 2 ^ 1023) by lia.
  assert (Hh : 0 < 1080 < 2 ^ 1023) by lia.
  split; [exact Hd |]. split; [exact Hw |]. split; [exact Hh |].
  exact (proj1 target_details_total_on_ordinary_input 5%Q 1920 1080 Hd Hw Hh).
Defined.

(** * Further facts *)

(** ** The calculator at the ends of its range *)

Module CalculatorFacts.

Import FloatFacts TargetFacts.
Local Open Scope Q_scope.

Lemma hard_floor_low t : (t <= 10)%Z -> hard_floor t = 10%Z.
Proof. intros H. rewrite hard_floor_max. lia. Qed.

(** from 143 seconds on the bitrate is the floor itself *)
Lemma target_bitrate_long d : 143 <= d ->
  target_bitrate (Fnum d) SAFE_BITRATE_FACTOR = Ok 10%Z.
Proof.
  intros H. assert (D0 : 0 < d) by lra.
  rewrite (target_bitrate_unfold d D0).
  set (X := SAFE_BITS / d).
  assert (X0 : 0 <= X) by (apply Qle_shift_div_l; [assumption | unfold SAFE_BITS; lra]).
  assert (XU : X <= 21999 # 2).
  { apply Qle_shift_div_r; [assumption |]. unfold SAFE_BITS. lra. }
  assert (D1 : dyadic (21999 # 2) 21999 (-1)) by (split; [reflexivity | lia]).
  assert (B1 : 21999 # 2 < pow2 1024).
  { apply Qlt_trans with (pow2 14); [reflexivity | apply pow2_lt; lia]. }
  rewrite (fl_bounded X _ _ _ X0 XU D1 B1).
  cbn [float_div]. replace (Qzero 1000) with false by reflexivity. cbn [rbind].
  assert (R0 := rnd_nonneg X X0). assert (RU := rnd_le_dyadic X _ _ _ X0 XU D1).
  set (y := rnd X) in *. clearbody y.
  assert (E : y / 1000 * 1000 == y) by field.
  assert (Y0 : 0 <= y / 1000) by lra.
  assert (YU : y / 1000 <= 22527 # 2048) by lra.
  assert (D2 : dyadic (22527 # 2048) 22527 (-11)) by (split; [reflexivity | lia]).
  assert (B2 : 22527 # 2048 < pow2 1024).
  { apply Qlt_trans with (pow2 14); [reflexivity | apply pow2_lt; lia]. }
  rewrite (fl_bounded _ _ _ _ Y0 YU D2 B2). cbn [int_of_float rbind].
  assert (T0 := rnd_nonneg _ Y0). assert (TU := rnd_le_dyadic _ _ _ _ Y0 YU D2).
  rewrite Qtrunc_nonneg by assumption.
  f_equal. apply hard_floor_low.
  assert (F : (Qfloor (rnd (y / 1000)) <= Qfloor (22527 # 2048))%Z)
    by (apply Qfloor_resp_le; assumption).
  exact F.
Qed.

(** up to 142 seconds the bitrate is above the floor *)
Lemma target_bitrate_short d : 1 # 1000000 <= d -> d <= 142 ->
  exists b, target_bitrate (Fnum d) SAFE_BITRATE_FACTOR = Ok b /\ (11 <= b)%Z.
Proof.
  intros L U. destruct (target_bitrate_near_spec d L) as (b & T & Lo & _).
  exists b. split; [exact T |].
  assert (S : (11 <= spec_bitrate d)%Z).
  { unfold spec_bitrate.
    assert (X : 11 <= inject_Z (MAX_SIZE_KB * 1024 * 8) * (75 # 100) / d / 1000).
    { change (inject_Z (MAX_SIZE_KB * 1024 * 8)) with 2097152.
      apply Qle_shift_div_l; [reflexivity |]. apply Qle_shift_div_l; lra. }
    apply Qfloor_resp_le in X. change (Qfloor 11) with 11%Z in X. lia. }
  lia.
Qed.

Lemma scaled_edge_zero l : (0 < l)%Z -> scaled_edge l 0 = Ok 0%Z.
Proof.
  intros H. unfold scaled_edge. rewrite int_truediv_512 by assumption. cbn [rbind].
  replace (float_of_int 0) with (Ok (Fnum 0)) by (vm_compute; reflexivity).
  cbn [rbind float_mul].
  set (q := rnd (512 / inject_Z l)).
  assert (Z0 : q * 0 == 0) by ring.
  rewrite fl_small by lra. cbn [int_of_float].
  rewrite Qtrunc_nonneg by (apply rnd_nonneg; lra).
  f_equal. rewrite (Qfloor_comp _ _ (rnd_zero _ Z0)). reflexivity.
Qed.

Lemma cexp_opp x : cexp (- x) = cexp x.
Proof.
  unfold cexp. f_equal. f_equal. f_equal.
  destruct x as [n d]. unfold Qabs, Qopp. cbn. f_equal. apply Z.abs_opp.
Qed.

Lemma rnd_nonpos x : x <= 0 -> rnd x <= 0.
Proof.
  intros H. rewrite rnd_eq. assert (P := pow2_pos (cexp x)).
  assert (R : (round_half_even (x / pow2 (cexp x)) <= 0)%Z).
  { apply rhe_le_int. apply div_pow2_nonpos. assumption. }
  rewrite Zle_Qle in R. change (inject_Z 0) with 0 in R.
  assert (M : inject_Z (round_half_even (x / pow2 (cexp x))) * pow2 (cexp x)
              <= 0 * pow2 (cexp x)) by (apply Qmult_le_compat_r; lra).
  lra.
Qed.

(** rounding a negative value never passes below minus a double *)
Lemma rnd_ge_opp_dyadic x f m k : x <= 0 -> - f <= x -> dyadic f m k -> - f <= rnd x.
Proof.
  intros X H D. assert (F := dyadic_pos _ _ _ D).
  destruct (Qlt_le_dec x 0) as [Neg | Z0].
  - assert (C : (cexp x <= k)%Z).
    { rewrite <- cexp_opp.
      assert (M := cexp_mono (- x) f ltac:(lra) ltac:(lra)).
      assert (K := dyadic_cexp _ _ _ D). lia. }
    assert (G := dyadic_grid _ _ _ _ D C).
    assert (P := pow2_pos (cexp x)).
    rewrite rnd_eq.
    assert (R : (- (m * 2 ^ (k - cexp x)) <= round_half_even (x / pow2 (cexp x)))%Z).
    { apply rhe_ge_int. rewrite inject_Z_opp, <- G.
      assert (E : - (f / pow2 (cexp x)) == (- f) / pow2 (cexp x)) by (field; lra).
      rewrite E. apply div_pow2_le. assumption. }
    rewrite Zle_Qle, inject_Z_opp in R.
    assert (E : f == f / pow2 (cexp x) * pow2 (cexp x)) by (field; lra).
    rewrite E at 1. rewrite G.
    assert (M : - inject_Z (m * 2 ^ (k - cexp x)) * pow2 (cexp x)
                <= inject_Z (round_half_even (x / pow2 (cexp x))) * pow2 (cexp x))
      by (apply Qmult_le_compat_r; lra).
    lra.
  - assert (E := rnd_zero x ltac:(lra)). lra.
Qed.

Lemma fl_bounded_neg x f m k :
  x <= 0 -> - f <= x -> dyadic f m k -> f < pow2 1024 -> fl x = Fnum (rnd x).
Proof.
  intros X H D B. unfold fl.
  destruct (Qle_bool (pow2 emax) (Qabs (rnd x))) eqn:E; [| reflexivity].
  exfalso. apply Qle_bool_iff in E.
  assert (N := rnd_nonpos x X). assert (L := rnd_ge_opp_dyadic x f m k X H D).
  rewrite (Qabs_neg _ N) in E. unfold emax in E. lra.
Qed.

Lemma Qtrunc_nonpos x : x <= 0 -> (Qtrunc x <= 0)%Z.
Proof.
  intros H. unfold Qtrunc. destruct (Qle_bool 0 x) eqn:E.
  - apply Qfloor_resp_le in H. exact H.
  - apply Qceiling_resp_le in H. exact H.
Qed.

(** a negative duration is not refused: the bitrate is the floor *)
Lemma target_bitrate_negative d : d <= - pow2 (-1003) ->
  target_bitrate (Fnum d) SAFE_BITRATE_FACTOR = Ok 10%Z.
Proof.
  intros H. assert (P := pow2_pos (-1003)). assert (D0 : d < 0) by lra.
  unfold target_bitrate.
  change (float_of_int (MAX_SIZE_KB * 1024 * 8)) with (float_of_int 2097152).
  replace (float_of_int 2097152) with (Ok (Fnum 2097152)) by (vm_compute; reflexivity).
  cbn [rbind].
  replace (float_mul (Fnum 2097152) SAFE_BITRATE_FACTOR) with (Fnum SAFE_BITS)
    by (vm_compute; reflexivity).
  cbn [float_div].
  assert (Zd : Qzero d = false).
  { unfold Qzero. destruct (Qeq_bool d 0) eqn:E; [| reflexivity].
    apply Qeq_bool_iff in E. lra. }
  rewrite Zd. cbn [rbind].
  replace (float_of_int 1000) with (Ok (Fnum 1000)) by (vm_compute; reflexivity).
  cbn [rbind].
  set (X := SAFE_BITS / d).
  assert (Xd : X * d == SAFE_BITS) by (unfold X; field; lra).
  assert (X0 : X <= 0).
  { apply Qnot_lt_le. intros C.
    assert (M : X * d < 0).
    { setoid_replace (X * d) with (- (X * (- d))) by ring.
      assert (0 < X * - d) by (apply Qmult_lt_0_compat; lra). lra. }
    unfold SAFE_BITS in Xd. lra. }
  assert (P2 := pow2_pos 1022).
  assert (E : 3 * pow2 1022 * pow2 (-1003) == SAFE_BITS).
  { rewrite <- Qmult_assoc, <- pow2_add. reflexivity. }
  assert (XL : - (inject_Z 3 * pow2 1022) <= X).
  { change (inject_Z 3) with 3.
    apply Qnot_lt_le. intros C.
    assert (M : 3 * pow2 1022 * pow2 (-1003) < (- X) * (- d)).
    { apply Qlt_le_trans with (- X * pow2 (-1003)).
      - apply Qmult_lt_compat_r; lra.
      - rewrite !(Qmult_comm (- X)). apply Qmult_le_compat_r; lra. }
    assert (N : - X * - d == X * d) by ring. lra. }
  assert (D : dyadic (inject_Z 3 * pow2 1022) 3 1022) by (split; [reflexivity | lia]).
  assert (B : inject_Z 3 * pow2 1022 < pow2 1024).
  { change 1024%Z with (2 + 1022)%Z. rewrite pow2_add. change (pow2 2) with 4.
    change (inject_Z 3) with 3. lra. }
  rewrite (fl_bounded_neg X _ _ _ X0 XL D B).
  cbn [float_div]. replace (Qzero 1000) with false by reflexivity.
  assert (R0 := rnd_nonpos X X0). assert (RL := rnd_ge_opp_dyadic X _ _ _ X0 XL D).
  set (y := rnd X) in *. clearbody y.
  assert (E2 : y / 1000 * 1000 == y) by field.
  change (inject_Z 3) with 3 in *.
  assert (Y0 : y / 1000 <= 0) by lra.
  assert (YL : - (3 * pow2 1022) <= y / 1000) by lra.
  rewrite (fl_bounded_neg _ (inject_Z 3 * pow2 1022) 3 1022 Y0 YL D B).
  cbn [int_of_float rbind]. f_equal. apply hard_floor_low.
  assert (T := Qtrunc_nonpos _ (rnd_nonpos _ Y0)). lia.
Qed.

End CalculatorFacts.

(** ** Runs of the prober, the loop, compress_video and main *)

Module RunFacts.

Import FloatFacts TargetFacts LoopFacts ProberFacts.

Lemma get_video_info_Ok_log w p f r l :
  get_video_info w p f = (l, Ok r) -> l = [Ffprobe f].
Proof.
  unfold get_video_info. rewrite bind_emit.
  destruct (run_ffprobe w p f) as [data | e].
  - rewrite bind_lift_Ok. destruct (video_info_of w data) as [r' | e].
    + cbn. intros H. inversion H. reflexivity.
    + destruct e; cbn; intros H; inversion H.
  - rewrite bind_lift_Raise. destruct e; cbn; intros H; inversion H.
Qed.

Lemma compress_video_cases w ffmpeg ffprobe file :
  found (find_tool w "ffprobe") = Some ffprobe ->
  compression w ffmpeg ffprobe file (compress_video w ffmpeg file).
Proof.
  intros F. unfold compress_video. rewrite F, bind_print.
  destruct (get_video_info w ffprobe file) as [l [[[d wd] ht] | e]] eqn:G.
  - assert (L := get_video_info_Ok_log _ _ _ _ _ G). subst l.
    cbn [bind fst snd app].
    destruct (calculate_target_details d wd ht None) as [[[nw nh] b] | e] eqn:C.
    + rewrite bind_lift_Ok, !bind_print.
      destruct (attempts w ffmpeg nw nh (seq 0 max_attempts) b) as [la [[] | e]] eqn:A.
      * cbn [bind fst snd app print emit].
        replace la with (fst (attempts w ffmpeg nw nh (seq 0 max_attempts) b))
          by (rewrite A; reflexivity).
        eapply cv_done; [exact G | eassumption | rewrite A; reflexivity].
      * cbn [bind fst snd app].
        replace la with (fst (attempts w ffmpeg nw nh (seq 0 max_attempts) b))
          by (rewrite A; reflexivity).
        eapply cv_loop_fails; [exact G | eassumption | rewrite A; reflexivity].
    + rewrite bind_lift_Raise. cbn [fst snd app].
      eapply cv_target_fails; [exact G | eassumption].
  - cbn [bind fst snd].
    replace l with (fst (get_video_info w ffprobe file)) by (rewrite G; reflexivity).
    apply cv_probe_fails. rewrite G. reflexivity.
Qed.

Ltac in_cases I :=
  repeat (destruct I as [I | I]); try discriminate I; try contradiction.

Section LoopInvariants.
Variable w : world.
Variable ffmpeg_path : string.
Variables new_w new_h : Z.

(** every encoder call of the loop uses the resolution the loop was given *)
Lemma attempts_resolution rng b p x wd ht :
  In (Ffmpeg p x wd ht) (fst (attempts w ffmpeg_path new_w new_h rng b)) ->
  wd = new_w /\ ht = new_h.
Proof.
  revert rng b.
  apply (attempts_rect_runs w ffmpeg_path new_w new_h (fun rng b r =>
    In (Ffmpeg p x wd ht) (fst r) -> wd = new_w /\ ht = new_h)).
  - intros b [].
  - intros a rest b r It IH I.
    destruct It; cbn [fst snd app In] in I; in_cases I;
      try (inversion I; subst; split; reflexivity);
      try (apply in_app_or in I; destruct I as [I | I]);
      eauto.
Qed.

(** the loop never reads the standard input *)
Lemma attempts_no_prompt rng b :
  ~ In Prompt (fst (attempts w ffmpeg_path new_w new_h rng b)).
Proof.
  revert rng b.
  apply (attempts_rect_runs w ffmpeg_path new_w new_h (fun rng b r =>
    ~ In Prompt (fst r))).
  - intros b [].
  - intros a rest b r It IH I.
    destruct It; cbn [fst snd app In] in I; in_cases I; eapply IH; eassumption.
Qed.

(** from a bitrate at or above the floor, a reduction never raises it *)
Lemma reduce_bitrate_le b b' : 10 <= b -> reduce_bitrate b = Ok b' -> 10 <= b' <= b.
Proof.
  intros Hb H. split; [apply (reduce_bitrate_floor_bound b b' H) |].
  destruct (Z.eq_dec b 10) as [-> | N].
  - rewrite reduce_bitrate_floor in H by lia. inversion H. reflexivity.
  - assert (L := reduce_bitrate_lt b b' ltac:(lia) H). lia.
Qed.

(** the bitrates of successive attempts never go up *)
Lemma attempts_bitrates_sorted rng b : 10 <= b ->
  Sorted Z.ge (encode_bitrates (fst (attempts w ffmpeg_path new_w new_h rng b))) /\
  (forall x, In x (encode_bitrates (fst (attempts w ffmpeg_path new_w new_h rng b))) ->
             x <= b).
Proof.
  revert rng b.
  apply (attempts_rect_runs w ffmpeg_path new_w new_h (fun rng b r =>
    10 <= b ->
    Sorted Z.ge (encode_bitrates (fst r)) /\
    (forall x, In x (encode_bitrates (fst r)) -> x <= b))).
  - intros b _. split; [constructor | intros x []].
  - intros a rest b r It IH Hb.
    assert (K : forall b', 10 <= b' <= b ->
              Sorted Z.ge (b :: encode_bitrates
                                  (fst (attempts w ffmpeg_path new_w new_h rest b'))) /\
              (forall x, In x (b :: encode_bitrates
                                  (fst (attempts w ffmpeg_path new_w new_h rest b'))) ->
                         x <= b)).
    { intros b' Hb'. destruct (IH b' ltac:(lia)) as [S U].
      split.
      - constructor; [exact S |].
        destruct (encode_bitrates (fst (attempts w ffmpeg_path new_w new_h rest b')))
          as [| y l] eqn:E; constructor.
        assert (y <= b') by (apply U; left; reflexivity). lia.
      - intros x [<- | I]; [lia |]. apply U in I. lia. }
    unfold encode_bitrates in *.
    destruct It; cbn [fst snd flat_map app];
      try (split; [repeat constructor | intros x [<- | []]; lia]).
    + apply K. apply reduce_bitrate_le; assumption.
    + apply K. lia.
Qed.

Lemma passes_in_order_nil : passes_in_order [].
Proof. split; intros [| i]; cbn; discriminate. Qed.

Lemma passes_in_order_app pre log :
  passes_in_order pre -> passes_in_order log -> passes_in_order (pre ++ log).
Proof.
  intros [P1 P2] [L1 L2]. split.
  - intros i b wd ht H.
    destruct (Nat.lt_ge_cases i (List.length pre)) as [Lt | Ge].
    + rewrite nth_error_app1 in H by assumption.
      destruct (P1 i b wd ht H) as (j & -> & J).
      exists j. split; [reflexivity |]. rewrite nth_error_app1 by lia. exact J.
    + rewrite nth_error_app2 in H by assumption.
      destruct (L1 _ b wd ht H) as (j & E & J).
      exists (List.length pre + j)%nat. split; [lia |].
      rewrite nth_error_app2 by lia.
      replace (List.length pre + j - List.length pre)%nat with j by lia. exact J.
  - intros i sz H.
    destruct (Nat.lt_ge_cases i (List.length pre)) as [Lt | Ge].
    + rewrite nth_error_app1 in H by assumption.
      destruct (P2 i sz H) as (j & b & wd & ht & -> & J1 & J2).
      exists j, b, wd, ht. split; [reflexivity |].
      rewrite !nth_error_app1 by lia. split; assumption.
    + rewrite nth_error_app2 in H by assumption.
      destruct (L2 _ sz H) as (j & b & wd & ht & E & J1 & J2).
      exists (List.length pre + j)%nat, b, wd, ht. split; [lia |].
      rewrite !nth_error_app2 by lia.
      replace (List.length pre + j - List.length pre)%nat with j by lia.
      replace (S (List.length pre + j) - List.length pre)%nat with (S j) by lia.
      split; assumption.
Qed.

Ltac by_index i H :=
  do 7 (try (destruct i as [| i]; cbn [nth_error] in H;
             [try discriminate H | ])).

Lemma passes_in_order_prefix b sz (m1 m2 : message) (n : nat) :
  (forall s, m2 <> MsgResult s) -> (forall s, m1 <> MsgResult s) ->
  passes_in_order (firstn n
    [Printed m1; Ffmpeg Pass1 b new_w new_h; Ffmpeg Pass2 b new_w new_h;
     RemoveLogs; Printed (MsgResult sz); Printed m2]).
Proof.
  intros N2 N1.
  do 7 (try (destruct n as [| n])); cbn [firstn]; split;
    intros i; intros; by_index i H;
    try (destruct i; discriminate H);
    try (inversion H; subst; congruence);
    try (inversion H; subst; eexists; split; [reflexivity | reflexivity]);
    try (inversion H; subst; do 4 eexists; split; [reflexivity |];
         split; reflexivity).
Qed.

(** the warning is printed only by the last of the three attempts, after
    which the loop ends normally; success is never reported beside it *)
Lemma attempts_warning n : forall i b,
  (i + n <= max_attempts)%nat ->
  In (Printed MsgWarning) (fst (attempts w ffmpeg_path new_w new_h (seq i n) b)) ->
  snd (attempts w ffmpeg_path new_w new_h (seq i n) b) = Ok tt /\
  ~ In (Printed MsgSuccess) (fst (attempts w ffmpeg_path new_w new_h (seq i n) b)) /\
  iterations (fst (attempts w ffmpeg_path new_w new_h (seq i n) b)) = n /\
  (i + n = max_attempts)%nat.
Proof.
  induction n as [| n IH]; intros i b Hi.
  - intros [].
  - cbn [seq].
    generalize (attempts_cons w ffmpeg_path new_w new_h i (seq (S i) n) b).
    generalize (attempts w ffmpeg_path new_w new_h (i :: seq (S i) n) b).
    intros r It. unfold iterations, encode_bitrates in *.
    destruct It; cbn [fst snd flat_map app In List.length]; intros I; in_cases I.
    + destruct (IH (S i) b' ltac:(unfold max_attempts in *; lia) I) as (R & NS & N & E).
      repeat split; try assumption; try lia.
      intros J. in_cases J.
    + unfold max_attempts in *. assert (n = 0%nat) by lia. subst n.
      cbn. repeat split; try lia; try (intros J; in_cases J).
    + unfold max_attempts in *. assert (n = 0%nat) by lia. subst n.
      cbn in I. contradiction.
Qed.
End LoopInvariants.

Lemma first_video_skips pre s post : Forall non_video pre ->
  first_video (pre ++ s :: post)
  = rbind (subscript s "codec_type") (fun c =>
      if is_video c then Ok (Some s) else first_video post).
Proof.
  induction 1 as [| x pre (c & C & V) _ IH]; [reflexivity |].
  cbn [app first_video]. rewrite C. cbn [rbind]. rewrite V. exact IH.
Qed.

Lemma video_info_of_broken_stream w data pre bad post e :
  subscript data "streams" = Ok (JList (pre ++ bad :: post)) ->
  Forall non_video pre ->
  subscript bad "codec_type" = Raise e ->
  exists e', video_info_of w data = Raise e'.
Proof.
  intros S N C. unfold video_info_of.
  destruct (subscript data "format") as [fmt | x]; [| now eexists]. cbn [rbind].
  destruct (dict_get fmt "duration" (JInt 0)) as [d | x]; [| now eexists]. cbn [rbind].
  destruct (py_float w d) as [duration | x]; [| now eexists]. cbn [rbind].
  rewrite S. cbn [rbind iter_items]. rewrite (first_video_skips pre bad post N), C.
  now eexists.
Qed.

Lemma get_video_info_cases w p f : raises_exception (run_ffprobe w p f) ->
  (exists r, get_video_info w p f = ([Ffprobe f], Ok r)) \/
  (exists e, get_video_info w p f
             = ([Ffprobe f; Printed (MsgErrorAnalyzing e)], Raise (SystemExit 1))).
Proof.
  intros X. destruct (run_ffprobe w p f) as [data | e] eqn:R.
  - destruct (video_info_of w data) as [r | e] eqn:V.
    + left. exists r. apply (get_video_info_Ok w p f data r R V).
    + right. exists e. apply (get_video_info_Raise w p f data e R V).
  - right. exists e. unfold get_video_info. rewrite bind_emit, R, bind_lift_Raise.
    cbn in X. destruct e; cbn in X; try contradiction; reflexivity.
Qed.

(** a missing duration reads as 0.0 *)
Lemma video_info_of_no_duration w data fmt d wd ht :
  subscript data "format" = Ok (JDict fmt) ->
  lookup "duration" fmt = None ->
  video_info_of w data = Ok (d, wd, ht) -> d = Fnum 0.
Proof.
  intros F L. unfold video_info_of. rewrite F. cbn [rbind dict_get]. rewrite L.
  cbn [rbind py_float].
  replace (float_of_int 0) with (Ok (Fnum 0)) by (vm_compute; reflexivity).
  cbn [rbind]. intros H.
  repeat (apply rbind_Ok in H; destruct H as (? & _ & H)).
  destruct x1; [| discriminate H].
  repeat (apply rbind_Ok in H; destruct H as (? & _ & H)).
  inversion H. reflexivity.
Qed.

Lemma int_truediv_exception a b : raises_exception (int_truediv a b).
Proof.
  unfold int_truediv. destruct (b =? 0); cbn; auto.
  destruct (fl (inject_Z a / inject_Z b)); cbn; auto.
Qed.

Lemma float_div_exception a b : raises_exception (float_div a b).
Proof.
  unfold float_div. destruct b as [y | |]; cbn; auto.
  - destruct (Qzero y); cbn; auto. destruct a; cbn; auto.
  - destruct a; cbn; auto.
Qed.

Lemma int_of_float_exception f : raises_exception (int_of_float f).
Proof. destruct f; cbn; auto. Qed.

Lemma scaled_edge_exception l s : raises_exception (scaled_edge l s).
Proof.
  unfold scaled_edge.
  apply rbind_exception; [apply int_truediv_exception | intros ratio].
  apply rbind_exception; [apply float_of_int_exception | intros x].
  apply int_of_float_exception.
Qed.

Lemma calculate_target_details_exception d wd ht f :
  raises_exception (calculate_target_details d wd ht f).
Proof.
  unfold calculate_target_details.
  apply rbind_exception.
  - unfold target_dimensions. apply rbind_exception.
    + destruct (wd >? ht); (apply rbind_exception;
        [apply scaled_edge_exception | intros; exact I]).
    + intros [a b]. exact I.
  - intros [a b]. apply rbind_exception; [| intros; exact I].
    unfold target_bitrate.
    repeat (apply rbind_exception;
            [ first [ apply float_of_int_exception | apply float_div_exception
                    | apply int_of_float_exception ] | intros ? ]).
    exact I.
Qed.

Lemma reduce_bitrate_exception b : raises_exception (reduce_bitrate b).
Proof.
  unfold reduce_bitrate.
  apply rbind_exception; [apply float_of_int_exception | intros x].
  apply rbind_exception; [apply int_of_float_exception | intros; exact I].
Qed.

Lemma attempts_exception w f nw nh rng b :
  raises_exception (snd (attempts w f nw nh rng b)).
Proof.
  revert rng b.
  apply (attempts_rect_runs w f nw nh (fun rng b r => raises_exception (snd r))).
  - intros b. exact I.
  - intros a rest b r It IH.
    destruct It; cbn [fst snd]; try exact I; try apply IH.
    + match goal with H : int_truediv ?x ?y = Raise ?e |- _ =>
        generalize (int_truediv_exception x y); rewrite H; auto end.
    + match goal with H : reduce_bitrate ?x = Raise ?e |- _ =>
        generalize (reduce_bitrate_exception x); rewrite H; auto end.
Qed.

Lemma exits_bind {A B} (m : io A) (k : A -> io B) :
  exits_0_or_1 m -> (forall a, exits_0_or_1 (k a)) -> exits_0_or_1 (bind m k).
Proof.
  intros Hm Hk. destruct m as [l [a | e]]; cbn [bind].
  - specialize (Hk a). destruct (k a) as [l' r]. exact Hk.
  - exact Hm.
Qed.

Lemma exits_emit e : exits_0_or_1 (emit e).
Proof. left. reflexivity. Qed.

Lemma exits_lift {A} (r : result A) : raises_exception r -> exits_0_or_1 (lift r).
Proof.
  destruct r as [a | e]; [left; reflexivity |].
  destruct e; cbn; intros H; try contradiction; right; reflexivity.
Qed.

Lemma exits_run {A} (l : list event) (r : result A) :
  raises_exception r -> exits_0_or_1 (l, r).
Proof. apply (exits_lift r). Qed.

Lemma exits_input_line w : exits_0_or_1 (input_line w).
Proof.
  unfold input_line. apply exits_bind; [apply exits_emit | intros _].
  destruct (stdin_line w); [left | right]; reflexivity.
Qed.

Lemma exits_get_video_info w p f : probe_raises_exceptions w ->
  exits_0_or_1 (get_video_info w p f).
Proof.
  intros H. destruct (get_video_info_cases w p f (H p f)) as [(r & E) | (e & E)];
    rewrite E; [left | right]; reflexivity.
Qed.

Lemma exits_compress_video w ffmpeg file : probe_raises_exceptions w ->
  exits_0_or_1 (compress_video w ffmpeg file).
Proof.
  intros H. unfold compress_video.
  destruct (found (find_tool w "ffprobe")) as [ffprobe |]; [| left; reflexivity].
  apply exits_bind; [apply exits_emit | intros _].
  apply exits_bind; [apply exits_get_video_info; assumption | intros [[d wd] ht]].
  apply exits_bind; [apply exits_lift, calculate_target_details_exception
                    | intros [[nw nh] b]].
  repeat (apply exits_bind; [apply exits_emit | intros _]).
  apply exits_bind; [| intros _; apply exits_emit].
  destruct (attempts w ffmpeg nw nh (seq 0 max_attempts) b) as [l r] eqn:E.
  apply exits_run. change r with (snd (l, r)). rewrite <- E. apply attempts_exception.
Qed.

Lemma get_video_info_log w p f :
  fst (get_video_info w p f) = [Ffprobe f] \/
  exists e, fst (get_video_info w p f) = [Ffprobe f; Printed (MsgErrorAnalyzing e)].
Proof.
  unfold get_video_info. rewrite bind_emit.
  destruct (run_ffprobe w p f) as [data | e].
  - rewrite bind_lift_Ok. destruct (video_info_of w data) as [r | e]; [left; reflexivity |].
    destruct e; cbn; first [left; reflexivity | right; eexists; reflexivity].
  - rewrite bind_lift_Raise.
    destruct e; cbn; first [left; reflexivity | right; eexists; reflexivity].
Qed.

Lemma compress_video_no_prompt w ffmpeg file :
  ~ In Prompt (fst (compress_video w ffmpeg file)).
Proof.
  destruct (found (find_tool w "ffprobe")) as [ffprobe |] eqn:F.
  - destruct (compress_video_cases w ffmpeg ffprobe file F); cbn [fst];
      intros I.
    + destruct I as [I | I]; [discriminate I |].
      destruct (get_video_info_log w ffprobe file) as [E | (x & E)];
        rewrite E in I; in_cases I.
    + in_cases I.
    + apply in_app_or in I. destruct I as [I | I]; [in_cases I |].
      apply attempts_no_prompt in I. exact I.
    + apply in_app_or in I. destruct I as [I | I]; [in_cases I |].
      apply in_app_or in I. destruct I as [I | I]; [| in_cases I].
      apply attempts_no_prompt in I. exact I.
  - rewrite (compress_video_without_ffprobe w ffmpeg file F). intros I. in_cases I.
Qed.

(** an attempt starts with its headline and the first pass *)
Lemma attempts_first w f nw nh a rest b :
  exists l, fst (attempts w f nw nh (a :: rest) b)
            = Printed (MsgAttempt (Z.of_nat a + 1) (Z.of_nat max_attempts) b)
              :: Ffmpeg Pass1 b nw nh :: l.
Proof.
  generalize (attempts_cons w f nw nh a rest b).
  generalize (attempts w f nw nh (a :: rest) b). intros r It.
  destruct It; cbn [fst app]; eexists; reflexivity.
Qed.

Lemma lstrip_pad p pad s : all_chars p pad = true ->
  lstrip p (String.append pad s) = lstrip p s.
Proof.
  unfold all_chars. induction pad as [| c pad IH]; cbn; [reflexivity |].
  intros H. apply andb_prop in H. destruct H as [C H]. rewrite C. auto.
Qed.

Lemma rstrip_all p pad : all_chars p pad = true -> rstrip p pad = EmptyString.
Proof.
  unfold all_chars. induction pad as [| c pad IH]; cbn; [reflexivity |].
  intros H. apply andb_prop in H. destruct H as [C H]. rewrite (IH H), C. reflexivity.
Qed.

Lemma rstrip_pad p s pad : all_chars p pad = true ->
  rstrip p (String.append s pad) = rstrip p s.
Proof.
  intros H. induction s as [| c s IH]; cbn [String.append rstrip].
  - apply rstrip_all. assumption.
  - rewrite IH. reflexivity.
Qed.

Lemma rstrip_none p s : all_chars (fun c => negb (p c)) s = true -> rstrip p s = s.
Proof.
  unfold all_chars. induction s as [| c s IH]; cbn; [reflexivity |].
  intros H. apply andb_prop in H. destruct H as [C H]. rewrite (IH H).
  destruct s; [| reflexivity]. apply negb_true_iff in C. rewrite C. reflexivity.
Qed.

Lemma rstrip_last p s c : p c = false ->
  rstrip p (String.append s (String c EmptyString)) = String.append s (String c EmptyString).
Proof.
  intros C. induction s as [| a s IH]; cbn [String.append rstrip].
  - rewrite C. reflexivity.
  - rewrite IH. destruct s; reflexivity.
Qed.

Lemma strip_quoted pad1 core pad2 :
  all_chars is_space pad1 = true -> all_chars is_space pad2 = true ->
  all_chars (fun c => negb (is_quote c)) core = true ->
  strip is_quote
    (strip is_space (String.append pad1 (String.append (quoted core) pad2)))
  = core.
Proof.
  intros P1 P2 C. unfold strip at 2. rewrite (lstrip_pad _ _ _ P1).
  unfold quoted. cbn [String.append lstrip].
  change (is_space dquote) with false. cbv iota.
  change (String dquote
            (String.append (String.append core (String dquote EmptyString)) pad2))
    with (String.append
            (String dquote (String.append core (String dquote EmptyString))) pad2).
  rewrite (rstrip_pad _ _ _ P2).
  change (String dquote (String.append core (String dquote EmptyString)))
    with (String.append (String dquote core) (String dquote EmptyString)).
  rewrite rstrip_last by reflexivity.
  unfold strip. cbn [String.append lstrip]. change (is_quote dquote) with true. cbv iota.
  destruct core as [| c core].
  - reflexivity.
  - assert (Q : is_quote c = false).
    { unfold all_chars in C. cbn in C. apply andb_prop in C. destruct C as [C _].
      apply negb_true_iff in C. exact C. }
    cbn [String.append lstrip]. rewrite Q.
    change (String c (String.append core (String dquote EmptyString)))
      with (String.append (String c core) (String dquote EmptyString)).
    rewrite rstrip_pad by reflexivity. apply rstrip_none. assumption.
Qed.

Lemma bind_logged {A B} (l : list event) (a : A) (k : A -> io B) :
  bind (l, Ok a) k = (l ++ fst (k a), snd (k a)).
Proof. cbn [bind]. destruct (k a). reflexivity. Qed.

Lemma main_reads_path w ffmpeg line :
  found (find_tool w "ffmpeg") = Some ffmpeg ->
  (List.length (argv w) <= 1)%nat ->
  stdin_line w = Some line ->
  main w = (Printed MsgBanner :: Prompt ::
              fst (if negb (path_exists w (strip is_quote (strip is_space line)))
                   then print MsgFileNotFound
                   else compress_video w ffmpeg (strip is_quote (strip is_space line))),
            snd (if negb (path_exists w (strip is_quote (strip is_space line)))
                 then print MsgFileNotFound
                 else compress_video w ffmpeg (strip is_quote (strip is_space line)))).
Proof.
  intros F A S. unfold main. rewrite bind_print, F.
  assert (E : match argv w with
              | _ :: arg :: _ => ret arg
              | _ => bind (input_line w)
                       (fun line => ret (strip is_quote (strip is_space line)))
              end = ([Prompt], Ok (strip is_quote (strip is_space line)))).
  { unfold input_line. rewrite S.
    destruct (argv w) as [| a [| b l]]; cbn in A; try lia; reflexivity. }
  rewrite E, bind_logged. reflexivity.
Qed.

(** the loop never prints the closing line of compress_video *)
Lemma attempts_no_done w f nw nh rng b :
  ~ In (Printed MsgDone) (fst (attempts w f nw nh rng b)).
Proof.
  revert rng b.
  apply (attempts_rect_runs w f nw nh (fun rng b r => ~ In (Printed MsgDone) (fst r))).
  - intros b [].
  - intros a rest b r It IH I.
    destruct It; cbn [fst snd app In] in I; in_cases I; eapply IH; eassumption.
Qed.

End RunFacts.

Import CalculatorFacts RunFacts.

(** * Further properties of the program *)

(** ** The target calculator *)

(** X1: for every duration of 143 seconds or more, and every positive
    width and height below 2^1023, calculate_target_details returns the
    floor bitrate of 10 kbps: the budget of 1572864 bits no longer pays
    for 11 kbps. *)
Theorem long_clip_gets_floor_bitrate d wd ht :
  (143 <= d)%Q -> 0 < wd < 2 ^ 1023 -> 0 < ht < 2 ^ 1023 ->
  exists nw nh, calculate_target_details (Fnum d) wd ht None = Ok (nw, nh, 10).
Proof.
  intros D W H. destruct (target_dimensions_total wd ht W H) as (nw & nh & T).
  exists nw, nh. unfold calculate_target_details.
  rewrite T. cbn [rbind]. rewrite (target_bitrate_long d D). reflexivity.
Qed.

Lemma long_clip_gets_floor_bitrate_witness :
  (143 <= 200)%Q /\ 0 < 1920 < 2 ^ 1023 /\ 0 < 1080 < 2 ^ 1023 /\
  exists nw nh, calculate_target_details (Fnum 200) 1920 1080 None = Ok (nw, nh, 10).
Proof.
  assert (D : (143 <= 200)%Q) by (vm_compute; discriminate).
  assert (W : 0 < 1920 < 2 ^ 1023) by lia.
  assert (H : 0 < 1080 < 2 ^ 1023) by lia.
  split; [exact D |]. split; [exact W |]. split; [exact H |].
  exact (long_clip_gets_floor_bitrate 200%Q 1920 1080 D W H).
Defined.

(** X2: for every duration between one microsecond and 142 seconds the
    calculator's bitrate is at least 11 kbps, above the floor. *)
Theorem short_clip_gets_more_than_floor d wd ht nw nh b :
  (1 # 1000000 <= d)%Q -> (d <= 142)%Q ->
  calculate_target_details (Fnum d) wd ht None = Ok (nw, nh, b) -> 11 <= b.
Proof.
  intros L U C. apply calculate_target_details_Ok in C. destruct C as [_ C].
  destruct (target_bitrate_short d L U) as (b' & T & B). congruence.
Qed.

Lemma short_clip_gets_more_than_floor_witness :
  (1 # 1000000 <= 142)%Q /\ (142 <= 142)%Q /\
  calculate_target_details (Fnum 142) 1920 1080 None = Ok (512, 288, 11) /\
  11 <= 11.
Proof.
  assert (L : (1 # 1000000 <= 142)%Q) by (vm_compute; discriminate).
  assert (U : (142 <= 142)%Q) by (vm_compute; discriminate).
  assert (C : calculate_target_details (Fnum 142) 1920 1080 None = Ok (512, 288, 11))
    by (vm_compute; reflexivity).
  split; [exact L |]. split; [exact U |]. split; [exact C |].
  exact (short_clip_gets_more_than_floor 142%Q 1920 1080 512 288 11 L U C).
Defined.

(** X3: for a width and a height that differ, exchanging them exchanges
    the two target dimensions: a portrait clip gets the dimensions of the
    landscape clip, turned. *)
Theorem dimensions_turn_with_the_clip w h a b :
  w <> h -> target_dimensions w h = Ok (a, b) -> target_dimensions h w = Ok (b, a).
Proof.
  intros N. unfold target_dimensions.
  destruct (Z.gtb_spec w h) as [G | G]; destruct (Z.gtb_spec h w) as [G' | G'];
    try lia.
  - destruct (scaled_edge w h) as [t | e]; cbn [rbind]; intros H; inversion H.
    reflexivity.
  - destruct (scaled_edge h w) as [t | e]; cbn [rbind]; intros H; inversion H.
    reflexivity.
Qed.

Lemma dimensions_turn_with_the_clip_witness :
  1920 <> 1080 /\ target_dimensions 1920 1080 = Ok (512, 288) /\
  target_dimensions 1080 1920 = Ok (288, 512).
Proof.
  assert (N : 1920 <> 1080) by lia.
  assert (T : target_dimensions 1920 1080 = Ok (512, 288)) by (vm_compute; reflexivity).
  split; [exact N |]. split; [exact T |].
  exact (dimensions_turn_with_the_clip 1920 1080 512 288 N T).
Defined.

(** X4: a width or height of zero is not refused: with a positive other
    edge the calculator returns 512 by 0 or 0 by 512; only when both are
    zero does it raise ZeroDivisionError. *)
Theorem zero_edge_gives_zero_dimension l :
  0 < l ->
  target_dimensions l 0 = Ok (512, 0) /\
  target_dimensions 0 l = Ok (0, 512) /\
  target_dimensions 0 0 = Raise ZeroDivisionError.
Proof.
  intros H. unfold target_dimensions.
  destruct (Z.gtb_spec l 0) as [G | G]; [| lia].
  destruct (Z.gtb_spec 0 l) as [G' | G']; [lia |].
  rewrite (scaled_edge_zero l H). repeat split.
Qed.

Lemma zero_edge_gives_zero_dimension_witness :
  0 < 480 /\
  target_dimensions 480 0 = Ok (512, 0) /\
  target_dimensions 0 480 = Ok (0, 512) /\
  target_dimensions 0 0 = Raise ZeroDivisionError.
Proof.
  assert (P : 0 < 480) by lia.
  split; [exact P |]. exact (zero_edge_gives_zero_dimension 480 P).
Defined.

(** X5: a negative duration (of magnitude at least 2^-1003 s) is not
    refused either: the quotient is negative, and the floor lifts the
    bitrate to 10 kbps. *)
Theorem negative_duration_gives_floor_bitrate d wd ht :
  (d <= - pow2 (-1003))%Q -> 0 < wd < 2 ^ 1023 -> 0 < ht < 2 ^ 1023 ->
  exists nw nh, calculate_target_details (Fnum d) wd ht None = Ok (nw, nh, 10).
Proof.
  intros D W H. destruct (target_dimensions_total wd ht W H) as (nw & nh & T).
  exists nw, nh. unfold calculate_target_details.
  rewrite T. cbn [rbind]. rewrite (target_bitrate_negative d D). reflexivity.
Qed.

Lemma negative_duration_gives_floor_bitrate_witness :
  (- (5) <= - pow2 (-1003))%Q /\ 0 < 1920 < 2 ^ 1023 /\ 0 < 1080 < 2 ^ 1023 /\
  exists nw nh, calculate_target_details (Fnum (- (5))) 1920 1080 None = Ok (nw, nh, 10).
Proof.
  assert (D : (- (5) <= - pow2 (-1003))%Q) by (vm_compute; discriminate).
  assert (W : 0 < 1920 < 2 ^ 1023) by lia.
  assert (H : 0 < 1080 < 2 ^ 1023) by lia.
  split; [exact D |]. split; [exact W |]. split; [exact H |].
  exact (negative_duration_gives_floor_bitrate (- (5))%Q 1920 1080 D W H).
Defined.

(** ** The fit loop *)

(** X6: started at a bitrate of at least 10 kbps, the loop never raises
    the bitrate: the bitrates of its encodes, in order, are non-increasing
    and none exceeds the starting one. *)
Theorem loop_bitrates_never_increase w ffmpeg_path new_w new_h rng b :
  10 <= b ->
  Sorted Z.ge (encode_bitrates (fst (attempts w ffmpeg_path new_w new_h rng b))) /\
  (forall x, In x (encode_bitrates (fst (attempts w ffmpeg_path new_w new_h rng b))) ->
             x <= b).
Proof. apply attempts_bitrates_sorted. Qed.

Lemma loop_bitrates_never_increase_witness :
  10 <= 314 /\
  Sorted Z.ge (encode_bitrates
                 (fst (attempts always_oversize "ffmpeg" 512 288 (seq 0 max_attempts) 314))) /\
  (forall x, In x (encode_bitrates
                     (fst (attempts always_oversize "ffmpeg" 512 288
                             (seq 0 max_attempts) 314))) -> x <= 314).
Proof.
  assert (B : 10 <= 314) by lia.
  split; [exact B |].
  exact (loop_bitrates_never_increase always_oversize "ffmpeg" 512 288
           (seq 0 max_attempts) 314 B).
Defined.

(** X7: in every run of the loop the second pass of an encode comes
    directly after the first pass with the same bitrate and resolution,
    and a size is reported only directly after a second pass and the
    removal of the pass logs. *)
Theorem loop_passes_in_order w ffmpeg_path new_w new_h rng b :
  passes_in_order (fst (attempts w ffmpeg_path new_w new_h rng b)).
Proof.
  revert rng b.
  apply (attempts_rect_runs w ffmpeg_path new_w new_h (fun rng b r =>
    passes_in_order (fst r))).
  - intros b. apply passes_in_order_nil.
  - intros a rest b r It IH.
    assert (A : forall s, MsgAttempt (Z.of_nat a + 1) (Z.of_nat max_attempts) b
                          <> MsgResult s) by discriminate.
    destruct It; cbn [fst snd].
    + apply (passes_in_order_prefix new_w new_h b (Fnum 0) _ MsgDone 2); [discriminate | exact A].
    + apply (passes_in_order_prefix new_w new_h b (Fnum 0) _ MsgDone 3); [discriminate | exact A].
    + apply (passes_in_order_prefix new_w new_h b (Fnum 0) _ MsgDone 4); [discriminate | exact A].
    + apply (passes_in_order_prefix new_w new_h b sz _ MsgSuccess 6); [discriminate | exact A].
    + apply (passes_in_order_prefix new_w new_h b sz _ (MsgOvershot sz) 6); [discriminate | exact A].
    + apply passes_in_order_app; [| apply IH].
      apply (passes_in_order_prefix new_w new_h b sz _ (MsgOvershot sz) 6); [discriminate | exact A].
    + apply passes_in_order_app; [| apply IH].
      apply (passes_in_order_prefix new_w new_h b sz _ MsgWarning 6); [discriminate | exact A].
Qed.

(** X8: one attempt whose output has [bytes] bytes (fewer than 2^1000)
    ends the loop with the success message exactly when
    bytes <= 262144: the float division by 1024 does not blur the
    threshold of 256 KB. *)
Theorem attempt_succeeds_iff_at_most_262144_bytes w f nw nh a rest b bytes :
  run_ffmpeg w f a b nw nh = Encoded bytes -> 0 <= bytes < 2 ^ 1000 ->
  (bytes <= 262144 <->
   exists sz, attempts w f nw nh (a :: rest) b
     = ([Printed (MsgAttempt (Z.of_nat a + 1) (Z.of_nat max_attempts) b);
         Ffmpeg Pass1 b nw nh; Ffmpeg Pass2 b nw nh; RemoveLogs;
         Printed (MsgResult sz); Printed MsgSuccess], Ok tt)).
Proof.
  intros E B.
  generalize (attempts_cons w f nw nh a rest b).
  generalize (attempts w f nw nh (a :: rest) b). intros r It.
  destruct (Z_le_gt_dec bytes 262144) as [Le | Gt].
  - split; [intros _ | intros _; exact Le].
    destruct (measured_fits bytes ltac:(lia)) as (sz & S & L).
    destruct It; try congruence;
      try (assert (bytes0 = bytes) by congruence; subst bytes0; congruence).
    assert (bytes0 = bytes) by congruence; subst bytes0.
    exists sz0. reflexivity.
  - split; [intros Le; lia | intros (sz' & R)]. exfalso.
    destruct (measured_oversize bytes ltac:(lia)) as (sz & S & L).
    destruct It; try congruence;
      try (assert (bytes0 = bytes) by congruence; subst bytes0; congruence);
      try (cbn [app] in R; inversion R).
Qed.

Lemma attempt_succeeds_iff_at_most_262144_bytes_witness :
  run_ffmpeg second_fits "ffmpeg" 1 251 512 288 = Encoded 204800 /\
  0 <= 204800 < 2 ^ 1000 /\
  (204800 <= 262144 <->
   exists sz, attempts second_fits "ffmpeg" 512 288 [1%nat; 2%nat] 251
     = ([Printed (MsgAttempt (Z.of_nat 1 + 1) (Z.of_nat max_attempts) 251);
         Ffmpeg Pass1 251 512 288; Ffmpeg Pass2 251 512 288; RemoveLogs;
         Printed (MsgResult sz); Printed MsgSuccess], Ok tt)).
Proof.
  assert (E : run_ffmpeg second_fits "ffmpeg" 1 251 512 288 = Encoded 204800)
    by reflexivity.
  assert (B : 0 <= 204800 < 2 ^ 1000) by lia.
  split; [exact E |]. split; [exact B |].
  exact (attempt_succeeds_iff_at_most_262144_bytes second_fits "ffmpeg" 512 288
           1%nat [2%nat] 251 204800 E B).
Defined.

(** ** compress_video *)

(** X9: when the prober returns (duration, width, height) and the
    calculator returns (new_w, new_h, b), the first encode of
    compress_video runs at b kbps, every later one at a bitrate between
    10 and b, and every encoder call uses the resolution new_w x new_h. *)
Theorem compress_video_encodes_at_target w ffmpeg ffprobe file data d wd ht nw nh b :
  found (find_tool w "ffprobe") = Some ffprobe ->
  run_ffprobe w ffprobe file = Ok data ->
  video_info_of w data = Ok (d, wd, ht) ->
  calculate_target_details d wd ht None = Ok (nw, nh, b) ->
  (exists rest, encode_bitrates (fst (compress_video w ffmpeg file)) = b :: rest /\
                Forall (fun x => 10 <= x <= b) rest) /\
  (forall p x wd' ht', In (Ffmpeg p x wd' ht') (fst (compress_video w ffmpeg file)) ->
                       wd' = nw /\ ht' = nh).
Proof.
  intros F R V C.
  assert (G := get_video_info_Ok w ffprobe file data _ R V).
  assert (Hb : 10 <= b).
  { apply calculate_target_details_Ok in C. destruct C as [_ C].
    apply target_bitrate_floor in C. exact C. }
  assert (L : exists l r,
            compress_video w ffmpeg file
            = ([Printed MsgAnalyzing; Ffprobe file; Printed (MsgDuration d);
                Printed (MsgOriginalSize wd ht); Printed (MsgTargetSize nw nh)]
                 ++ fst (attempts w ffmpeg nw nh (seq 0 max_attempts) b) ++ l, r) /\
            (l = [] \/ l = [Printed MsgDone])).
  { unfold compress_video. rewrite F, bind_print, G. cbn [bind app].
    rewrite C. cbn [lift bind app]. rewrite !bind_print.
    destruct (attempts w ffmpeg nw nh (seq 0 max_attempts) b) as [la [[] | e]];
      cbn [bind fst snd app print emit].
    - exists [Printed MsgDone], (Ok tt). split; [reflexivity | right; reflexivity].
    - exists [], (Raise e). rewrite app_nil_r. split; [reflexivity | left; reflexivity]. }
  destruct L as (l & r & E & Hl). rewrite E. cbn [fst]. split.
  - destruct (attempts_bitrates_sorted w ffmpeg nw nh (seq 0 max_attempts) b Hb)
      as [_ U].
    destruct (attempts_first w ffmpeg nw nh 0%nat (seq 1 2) b) as (tl & T).
    change (seq 0 max_attempts) with (0%nat :: seq 1 2) in *.
    rewrite T in *.
    exists (encode_bitrates (tl ++ l)). split.
    + unfold encode_bitrates. cbn [app flat_map]. reflexivity.
    + apply Forall_forall. intros x I. rewrite encode_bitrates_app in I.
      apply in_app_or in I. destruct I as [I | I].
      * split.
        -- apply (bitrates_at_least_floor w ffmpeg nw nh (0%nat :: seq 1 2) b x Hb).
           rewrite T. unfold encode_bitrates. cbn [flat_map app]. right. exact I.
        -- apply U. unfold encode_bitrates. cbn [flat_map app]. right. exact I.
      * destruct Hl as [-> | ->]; cbn in I; contradiction.
  - intros p x wd' ht' I. cbn [app] in I. in_cases I.
    apply in_app_or in I. destruct I as [I | I].
    + eapply attempts_resolution. exact I.
    + destruct Hl as [-> | ->]; in_cases I.
Qed.

Lemma compress_video_encodes_at_target_witness :
  found (find_tool always_oversize "ffprobe") = Some "/usr/bin/ffprobe"%string /\
  run_ffprobe always_oversize "/usr/bin/ffprobe" "clip.mp4" = Ok hd_probe /\
  video_info_of always_oversize hd_probe = Ok (Fnum 5, 1920, 1080) /\
  calculate_target_details (Fnum 5) 1920 1080 None = Ok (512, 288, 314) /\
  (exists rest,
      encode_bitrates (fst (compress_video always_oversize "ffmpeg" "clip.mp4"))
      = 314 :: rest /\ Forall (fun x => 10 <= x <= 314) rest) /\
  (forall p x wd' ht',
      In (Ffmpeg p x wd' ht') (fst (compress_video always_oversize "ffmpeg" "clip.mp4")) ->
      wd' = 512 /\ ht' = 288).
Proof.
  assert (F : found (find_tool always_oversize "ffprobe")
              = Some "/usr/bin/ffprobe"%string) by reflexivity.
  assert (R : run_ffprobe always_oversize "/usr/bin/ffprobe" "clip.mp4" = Ok hd_probe)
    by reflexivity.
  assert (V : video_info_of always_oversize hd_probe = Ok (Fnum 5, 1920, 1080))
    by (vm_compute; reflexivity).
  assert (C : calculate_target_details (Fnum 5) 1920 1080 None = Ok (512, 288, 314))
    by (vm_compute; reflexivity).
  split; [exact F |]. split; [exact R |]. split; [exact V |]. split; [exact C |].
  exact (compress_video_encodes_at_target always_oversize "ffmpeg" "/usr/bin/ffprobe"
           "clip.mp4" hd_probe (Fnum 5) 1920 1080 512 288 314 F R V C).
Defined.

(** X10: with ffprobe found, compress_video prints its closing line
    exactly when it returns normally: no failure of the prober, the
    calculator or the encoder is followed by it. *)
Theorem done_printed_iff_normal_return w ffmpeg ffprobe file :
  found (find_tool w "ffprobe") = Some ffprobe ->
  (In (Printed MsgDone) (fst (compress_video w ffmpeg file)) <->
   snd (compress_video w ffmpeg file) = Ok tt).
Proof.
  intros F.
  destruct (compress_video_cases w ffmpeg ffprobe file F); cbn [fst snd].
  - split; [| discriminate]. intros I. exfalso.
    destruct I as [I | I]; [discriminate I |].
    destruct (get_video_info_log w ffprobe file) as [E | (x & E)];
      rewrite E in I; in_cases I.
  - split; [| discriminate]. intros I. in_cases I.
  - split; [| discriminate]. intros I. exfalso.
    apply in_app_or in I. destruct I as [I | I]; [in_cases I |].
    apply attempts_no_done in I. exact I.
  - split; [reflexivity | intros _].
    apply in_or_app. right. apply in_or_app. right. left. reflexivity.
Qed.

Lemma done_printed_iff_normal_return_witness :
  found (find_tool failing_encoder "ffprobe") = Some "/usr/bin/ffprobe"%string /\
  (In (Printed MsgDone) (fst (compress_video failing_encoder "ffmpeg" "clip.mp4")) <->
   snd (compress_video failing_encoder "ffmpeg" "clip.mp4") = Ok tt).
Proof.
  assert (F : found (find_tool failing_encoder "ffprobe")
              = Some "/usr/bin/ffprobe"%string) by reflexivity.
  split; [exact F |].
  exact (done_printed_iff_normal_return failing_encoder "ffmpeg" "/usr/bin/ffprobe"
           "clip.mp4" F).
Defined.

(** X11: the size warning appears only in a run of compress_video that
    made all three encodes without a success message; such a run still
    prints its closing line and returns normally, leaving the oversize
    file in place. *)
Theorem warning_ends_a_normal_run w ffmpeg file :
  In (Printed MsgWarning) (fst (compress_video w ffmpeg file)) ->
  snd (compress_video w ffmpeg file) = Ok tt /\
  In (Printed MsgDone) (fst (compress_video w ffmpeg file)) /\
  ~ In (Printed MsgSuccess) (fst (compress_video w ffmpeg file)) /\
  iterations (fst (compress_video w ffmpeg file)) = max_attempts.
Proof.
  destruct (found (find_tool w "ffprobe")) as [ffprobe |] eqn:F.
  - destruct (compress_video_cases w ffmpeg ffprobe file F); cbn [fst snd]; intros I.
    + exfalso. destruct I as [I | I]; [discriminate I |].
      destruct (get_video_info_log w ffprobe file) as [E | (x & E)];
        rewrite E in I; in_cases I.
    + in_cases I.
    + exfalso. apply in_app_or in I. destruct I as [I | I]; [in_cases I |].
      apply (attempts_warning w ffmpeg nw nh max_attempts 0%nat b (Nat.le_refl _)) in I.
      destruct I as [I _]. congruence.
    + apply in_app_or in I. destruct I as [I | I]; [in_cases I |].
      apply in_app_or in I. destruct I as [I | I]; [| in_cases I].
      apply (attempts_warning w ffmpeg nw nh max_attempts 0%nat b (Nat.le_refl _)) in I.
      destruct I as (_ & NS & N & _).
      split; [reflexivity |]. split.
      * apply in_or_app. right. apply in_or_app. right. left. reflexivity.
      * split.
        -- intros J. apply in_app_or in J. destruct J as [J | J]; [in_cases J |].
           apply in_app_or in J. destruct J as [J | J]; [auto | in_cases J].
        -- unfold iterations in *. rewrite !encode_bitrates_app, !length_app.
           cbn. cbn in N. lia.
  - rewrite (compress_video_without_ffprobe w ffmpeg file F). intros I. in_cases I.
Qed.

Lemma warning_ends_a_normal_run_witness :
  In (Printed MsgWarning) (fst (compress_video always_oversize "ffmpeg" "clip.mp4")) /\
  snd (compress_video always_oversize "ffmpeg" "clip.mp4") = Ok tt /\
  In (Printed MsgDone) (fst (compress_video always_oversize "ffmpeg" "clip.mp4")) /\
  ~ In (Printed MsgSuccess) (fst (compress_video always_oversize "ffmpeg" "clip.mp4")) /\
  iterations (fst (compress_video always_oversize "ffmpeg" "clip.mp4")) = max_attempts.
Proof.
  assert (I : In (Printed MsgWarning)
                (fst (compress_video always_oversize "ffmpeg" "clip.mp4"))).
  { vm_compute. repeat (first [left; reflexivity | right]). }
  split; [exact I |].
  exact (warning_ends_a_normal_run always_oversize "ffmpeg" "clip.mp4" I).
Defined.

(** ** The media prober *)

(** X12: whatever ffprobe and the parsing of its output do, as long as
    they raise nothing but an Exception, get_video_info runs ffprobe once
    and either returns a triple or prints its diagnostic and exits with
    status 1; no exception leaves it. *)
Theorem prober_returns_or_exits_1 w p f :
  raises_exception (run_ffprobe w p f) ->
  (exists r, get_video_info w p f = ([Ffprobe f], Ok r)) \/
  (exists e, get_video_info w p f
             = ([Ffprobe f; Printed (MsgErrorAnalyzing e)], Raise (SystemExit 1))).
Proof. apply get_video_info_cases. Qed.

Lemma prober_returns_or_exits_1_witness :
  raises_exception (run_ffprobe audio_only "ffprobe" "clip.mp4") /\
  ((exists r, get_video_info audio_only "ffprobe" "clip.mp4"
              = ([Ffprobe "clip.mp4"], Ok r)) \/
   (exists e, get_video_info audio_only "ffprobe" "clip.mp4"
              = ([Ffprobe "clip.mp4"; Printed (MsgErrorAnalyzing e)],
                 Raise (SystemExit 1)))).
Proof.
  assert (X : raises_exception (run_ffprobe audio_only "ffprobe" "clip.mp4"))
    by exact I.
  split; [exact X |].
  exact (prober_returns_or_exits_1 audio_only "ffprobe" "clip.mp4" X).
Defined.

(** X13: the prober takes the first video stream: when the streams
    before it all carry a codec_type other than video, the width and
    height returned are those of that stream, whatever follows it, and
    the duration is that of the format entry. *)
Theorem prober_takes_first_video_stream w data fmt dv dur pre vs post wd ht :
  subscript data "format" = Ok fmt ->
  dict_get fmt "duration" (JInt 0) = Ok dv ->
  py_float w dv = Ok dur ->
  subscript data "streams" = Ok (JList (pre ++ vs :: post)) ->
  Forall non_video pre ->
  subscript vs "codec_type" = Ok (JStr "video") ->
  subscript vs "width" = Ok (JInt wd) ->
  subscript vs "height" = Ok (JInt ht) ->
  video_info_of w data = Ok (dur, wd, ht).
Proof.
  intros F D P S N C W H. unfold video_info_of.
  rewrite F. cbn [rbind]. rewrite D. cbn [rbind]. rewrite P. cbn [rbind].
  rewrite S. cbn [rbind iter_items]. rewrite (first_video_skips pre vs post N), C.
  cbn [rbind]. change (is_video (JStr "video")) with true. cbv iota.
  cbn [rbind]. rewrite W. cbn [rbind py_int]. rewrite H. reflexivity.
Qed.

Lemma prober_takes_first_video_stream_witness :
  subscript (probe_of [("duration", JStr "5.000000")]%string
               ([audio_stream] ++ video_stream 1920 1080 :: [video_stream 640 480]))
            "format" = Ok (JDict [("duration", JStr "5.000000")]%string) /\
  dict_get (JDict [("duration", JStr "5.000000")]%string) "duration" (JInt 0)
    = Ok (JStr "5.000000") /\
  py_float always_oversize (JStr "5.000000") = Ok (Fnum 5) /\
  Forall non_video [audio_stream] /\
  video_info_of always_oversize
    (probe_of [("duration", JStr "5.000000")]%string
       ([audio_stream] ++ video_stream 1920 1080 :: [video_stream 640 480]))
  = Ok (Fnum 5, 1920, 1080).
Proof.
  assert (N : Forall non_video [audio_stream]).
  { constructor; [| constructor]. exists (JStr "audio"). split; reflexivity. }
  split; [reflexivity |]. split; [reflexivity |]. split; [reflexivity |].
  split; [exact N |].
  exact (prober_takes_first_video_stream always_oversize
           (probe_of [("duration", JStr "5.000000")]%string
              ([audio_stream] ++ video_stream 1920 1080 :: [video_stream 640 480]))
           (JDict [("duration", JStr "5.000000")]%string)
           (JStr "5.000000") (Fnum 5)
           [audio_stream] (video_stream 1920 1080) [video_stream 640 480] 1920 1080
           eq_refl eq_refl eq_refl eq_refl N eq_refl eq_refl eq_refl).
Defined.

(** X14: a stream without a codec_type that comes before the first
    video stream makes the prober fail, even when a video stream follows:
    the diagnostic is printed and the process exits with status 1. *)
Theorem stream_without_codec_type_fails w p f data pre bad post e :
  run_ffprobe w p f = Ok data ->
  subscript data "streams" = Ok (JList (pre ++ bad :: post)) ->
  Forall non_video pre ->
  subscript bad "codec_type" = Raise e ->
  exists e', get_video_info w p f
             = ([Ffprobe f; Printed (MsgErrorAnalyzing e')], Raise (SystemExit 1)).
Proof.
  intros R S N C.
  destruct (video_info_of_broken_stream w data pre bad post e S N C) as (e' & V).
  exists e'. apply (get_video_info_Raise w p f data e' R V).
Qed.

Lemma stream_without_codec_type_fails_witness :
  run_ffprobe untyped_stream "ffprobe" "clip.mp4" = Ok untyped_probe /\
  subscript untyped_probe "streams"
    = Ok (JList ([] ++ JDict [("index", JInt 0)]%string :: [video_stream 1920 1080])) /\
  subscript (JDict [("index", JInt 0)]%string) "codec_type" = Raise KeyError /\
  exists e', get_video_info untyped_stream "ffprobe" "clip.mp4"
             = ([Ffprobe "clip.mp4"; Printed (MsgErrorAnalyzing e')],
                Raise (SystemExit 1)).
Proof.
  split; [reflexivity |]. split; [reflexivity |]. split; [reflexivity |].
  exact (stream_without_codec_type_fails untyped_stream "ffprobe" "clip.mp4"
           untyped_probe [] (JDict [("index", JInt 0)]%string)
           [video_stream 1920 1080] KeyError
           eq_refl eq_refl (Forall_nil non_video) eq_refl).
Defined.

(** ** The whole process *)

(** X15: when the probed format has no duration, the prober returns a
    duration of 0.0 and the process dies in the calculator, before any
    encode, with an exception that no handler catches: ZeroDivisionError
    whenever the dimensions can be computed. *)
Theorem missing_duration_crashes_the_process
    w ffmpeg ffprobe prog file rest data fmt d wd ht :
  found (find_tool w "ffmpeg") = Some ffmpeg ->
  found (find_tool w "ffprobe") = Some ffprobe ->
  argv w = prog :: file :: rest ->
  path_exists w file = true ->
  run_ffprobe w ffprobe file = Ok data ->
  subscript data "format" = Ok (JDict fmt) ->
  lookup "duration" fmt = None ->
  video_info_of w data = Ok (d, wd, ht) ->
  exists e, main w = ([Printed MsgBanner; Printed MsgAnalyzing; Ffprobe file], Raise e) /\
            is_exception e /\
            (forall dims, target_dimensions wd ht = Ok dims -> e = ZeroDivisionError).
Proof.
  intros F1 F2 A P R S L V.
  assert (D := video_info_of_no_duration w data fmt d wd ht S L V). subst d.
  assert (G := get_video_info_Ok w ffprobe file data _ R V).
  rewrite (main_with_file w ffmpeg prog file rest F1 A), P. cbn [negb].
  unfold compress_video. rewrite F2, bind_print, G. cbn [bind app].
  assert (X := calculate_target_details_exception (Fnum 0) wd ht None).
  unfold calculate_target_details in *.
  destruct (target_dimensions wd ht) as [[nw nh] | e].
  - cbn [rbind] in *. rewrite (target_bitrate_zero 0 SAFE_BITRATE_FACTOR) in * by reflexivity.
    cbn [rbind lift bind fst snd app]. exists ZeroDivisionError.
    split; [reflexivity |]. split; [exact I | reflexivity].
  - cbn [rbind lift bind fst snd app] in *. exists e.
    split; [reflexivity |]. split; [exact X | discriminate].
Qed.

Lemma missing_duration_crashes_the_process_witness :
  found (find_tool no_duration "ffmpeg") = Some "/usr/bin/ffmpeg"%string /\
  found (find_tool no_duration "ffprobe") = Some "/usr/bin/ffprobe"%string /\
  argv no_duration = ["sticker_maker.py"; "clip.mp4"]%string /\
  path_exists no_duration "clip.mp4" = true /\
  run_ffprobe no_duration "/usr/bin/ffprobe" "clip.mp4"
    = Ok (probe_of [] [video_stream 1920 1080]) /\
  lookup "duration" [] = None /\
  video_info_of no_duration (probe_of [] [video_stream 1920 1080])
    = Ok (Fnum 0, 1920, 1080) /\
  exists e, main no_duration
            = ([Printed MsgBanner; Printed MsgAnalyzing; Ffprobe "clip.mp4"], Raise e) /\
            is_exception e /\
            (forall dims, target_dimensions 1920 1080 = Ok dims -> e = ZeroDivisionError).
Proof.
  assert (V : video_info_of no_duration (probe_of [] [video_stream 1920 1080])
              = Ok (Fnum 0, 1920, 1080)) by (vm_compute; reflexivity).
  split; [reflexivity |]. split; [reflexivity |]. split; [reflexivity |].
  split; [reflexivity |]. split; [reflexivity |]. split; [reflexivity |].
  split; [exact V |].
  exact (missing_duration_crashes_the_process no_duration "/usr/bin/ffmpeg"
           "/usr/bin/ffprobe" "sticker_maker.py" "clip.mp4" []
           (probe_of [] [video_stream 1920 1080]) [] (Fnum 0) 1920 1080
           eq_refl eq_refl eq_refl eq_refl eq_refl eq_refl eq_refl V).
Defined.

(** X16: started with the input path on the command line and ffmpeg
    found, the process never reads the standard input, whatever the
    prober, the calculator and the encoder do. *)
Theorem run_with_argument_never_prompts w ffmpeg prog file rest :
  found (find_tool w "ffmpeg") = Some ffmpeg ->
  argv w = prog :: file :: rest ->
  ~ In Prompt (fst (main w)).
Proof.
  intros F A. rewrite (main_with_file w ffmpeg prog file rest F A). cbn [fst].
  intros [I | I]; [discriminate I |].
  destruct (negb (path_exists w file)).
  - destruct I as [I | []]. discriminate I.
  - apply compress_video_no_prompt in I. exact I.
Qed.

Lemma run_with_argument_never_prompts_witness :
  found (find_tool always_oversize "ffmpeg") = Some "/usr/bin/ffmpeg"%string /\
  argv always_oversize = ["sticker_maker.py"; "clip.mp4"]%string /\
  ~ In Prompt (fst (main always_oversize)).
Proof.
  split; [reflexivity |]. split; [reflexivity |].
  exact (run_with_argument_never_prompts always_oversize "/usr/bin/ffmpeg"
           "sticker_maker.py" "clip.mp4" [] eq_refl eq_refl).
Defined.

(** X17: as long as ffprobe and the parsing of its output raise nothing
    but an Exception, the exit status of the process is 0 or 1, for every
    command line, input, probe result and encoder behaviour. *)
Theorem exit_status_is_0_or_1 w :
  probe_raises_exceptions w -> exit_status (main w) = 0 \/ exit_status (main w) = 1.
Proof.
  intros H. change (exits_0_or_1 (main w)). unfold main. apply exits_bind; [apply exits_emit | intros _].
  destruct (found (find_tool w "ffmpeg")) as [ffmpeg |].
  - apply exits_bind.
    + destruct (argv w) as [| a [| arg rest]];
        try (left; reflexivity);
        (apply exits_bind; [apply exits_input_line | intros; left; reflexivity]).
    + intros file. destruct (negb (path_exists w file));
        [left; reflexivity | apply exits_compress_video; assumption].
  - repeat (apply exits_bind; [apply exits_emit | intros _]).
    apply exits_bind; [apply exits_input_line | intros _]. right. reflexivity.
Qed.

Lemma exit_status_is_0_or_1_witness :
  probe_raises_exceptions failing_encoder /\
  (exit_status (main failing_encoder) = 0 \/ exit_status (main failing_encoder) = 1).
Proof.
  assert (P : probe_raises_exceptions failing_encoder) by (intros p f; exact I).
  split; [exact P |]. exact (exit_status_is_0_or_1 failing_encoder P).
Defined.

(** X18: without a command-line argument the process prompts once, and
    a line that holds the path between double quotes, with ASCII
    whitespace around them, names the path itself: the process goes on
    with the text between the quotes, whitespace inside it kept. *)
Theorem quoted_path_is_unwrapped w ffmpeg pad1 core pad2 :
  found (find_tool w "ffmpeg") = Some ffmpeg ->
  (List.length (argv w) <= 1)%nat ->
  stdin_line w = Some (String.append pad1 (String.append (quoted core) pad2)) ->
  all_chars is_space pad1 = true ->
  all_chars is_space pad2 = true ->
  all_chars (fun c => negb (is_quote c)) core = true ->
  main w = (Printed MsgBanner :: Prompt ::
              fst (if negb (path_exists w core) then print MsgFileNotFound
                   else compress_video w ffmpeg core),
            snd (if negb (path_exists w core) then print MsgFileNotFound
                 else compress_video w ffmpeg core)).
Proof.
  intros F A S P1 P2 C.
  rewrite (main_reads_path w ffmpeg _ F A S), (strip_quoted pad1 core pad2 P1 P2 C).
  reflexivity.
Qed.

Lemma quoted_path_is_unwrapped_witness :
  found (find_tool typed_path "ffmpeg") = Some "/usr/bin/ffmpeg"%string /\
  (List.length (argv typed_path) <= 1)%nat /\
  stdin_line typed_path
    = Some (String.append "  " (String.append (quoted "my clip.mp4") " ")) /\
  all_chars is_space "  " = true /\
  all_chars is_space " " = true /\
  all_chars (fun c => negb (is_quote c)) "my clip.mp4" = true /\
  main typed_path = ([Printed MsgBanner; Prompt; Printed MsgFileNotFound], Ok tt).
Proof.
  assert (A : (List.length (argv typed_path) <= 1)%nat) by (cbn; lia).
  split; [reflexivity |]. split; [exact A |]. split; [reflexivity |].
  split; [reflexivity |]. split; [reflexivity |]. split; [reflexivity |].
  exact (quoted_path_is_unwrapped typed_path "/usr/bin/ffmpeg" "  " "my clip.mp4" " "
           eq_refl A eq_refl eq_refl eq_refl eq_refl).
Defined.
